(** * Row-wise append (rbind) of columnar tables

    A shallow embedding of [src/core/frame/rbind.cc]: the argument
    flattening and the column-matching planner of [py::Frame::rbind], the
    table-level loop of [DataTable::rbind], the per-column orchestration
    of [Column::rbind] and the four [rbind_impl] storage appenders.

    Conventions of the embedding.
    - [size_t] row counts are integers in [Z]; every addition the code
      performs on them is written with its wrap-around at [2^64], and so
      is every product [sizeof(T) * n] that gives a size in bytes.
    - Offsets of string columns are [uint32_t] / [uint64_t] values in [Z];
      all arithmetic on them wraps at the offset width.
    - Container sizes and positions inside containers ([std::vector]
      indices, number of columns, number of frames) are [nat].
    - A buffer is a list of its elements; a write through a pointer is an
      update by position, and a write or read outside the buffer (undefined
      behaviour in C++) is the error [Fault].  A buffer resized to [b]
      bytes holds [b / sizeof(T)] elements; where the product that gave
      [b] wrapped, the column is left with fewer elements than the rows
      it is told to have, which is a [Fault] as well.
    - [xassert] is defined outside this file and checks its condition in
      debug builds only; the embedding is of the code without these
      checks, and [Error] has no value for a failed assertion.
    - C++ exceptions are values of [Error]; code that can throw returns
      [res]. Code that mutates the target before it throws returns the
      state reached together with the error. *)

From Stdlib Require Import ZArith Lia Bool.
From stdpp Require Import gmap strings list fin_maps.

Local Open Scope Z_scope.

(** ** Element types *)

(** [dt::SType], restricted to the element types of the specification. *)
Inductive SType :=
| VOID | BOOL | INT8 | INT16 | INT32 | INT64 | FLOAT32 | FLOAT64
| STR32 | STR64 | OBJ.

#[global] Instance SType_eq_dec : EqDecision SType.
Proof. solve_decision. Defined.

(** The element types stored by [SentinelFw_ColumnImpl<T>]. *)
Inductive FwKind :=
| FW_BOOL | FW_INT8 | FW_INT16 | FW_INT32 | FW_INT64 | FW_FLOAT32 | FW_FLOAT64.

#[global] Instance FwKind_eq_dec : EqDecision FwKind.
Proof. solve_decision. Defined.

Definition fw_stype (k : FwKind) : SType :=
  match k with
  | FW_BOOL => BOOL | FW_INT8 => INT8 | FW_INT16 => INT16 | FW_INT32 => INT32
  | FW_INT64 => INT64 | FW_FLOAT32 => FLOAT32 | FW_FLOAT64 => FLOAT64
  end.

(** Offset width of [SentinelStr_ColumnImpl<T>]: [T = uint32_t] or
    [T = uint64_t]. *)
Inductive OffW := W32 | W64.

#[global] Instance OffW_eq_dec : EqDecision OffW.
Proof. solve_decision. Defined.

Definition str_stype (w : OffW) : SType :=
  match w with W32 => STR32 | W64 => STR64 end.

(** [sizeof(T) * 8] *)
Definition bits (w : OffW) : Z :=
  match w with W32 => 32 | W64 => 64 end.

(** [LType], as far as [rbind] looks at it. *)
Inductive LType := LT_STRING | LT_OTHER.

#[global] Instance LType_eq_dec : EqDecision LType.
Proof. solve_decision. Defined.

Definition stype_ltype (s : SType) : LType :=
  match s with STR32 | STR64 => LT_STRING | _ => LT_OTHER end.

(** A boxed Python value: the [None] singleton or a reference to some
    other object. *)
Inductive PyObj := Py_None | Py_ref (id : nat).

#[global] Instance PyObj_eq_dec : EqDecision PyObj.
Proof. solve_decision. Defined.

(** ** Machine arithmetic *)

(** Reduction of a value to [size_t]. *)
Definition wrap64 (x : Z) : Z := x mod 2 ^ 64.

(** [a + b] on [size_t]. *)
Definition size_add (a b : Z) : Z := wrap64 (a + b).

(** [a * b] on [size_t]. *)
Definition size_mul (a b : Z) : Z := wrap64 (a * b).

(** [sizeof(T)] for the element type [T] of a fixed-width column: the
    template is instantiated at [int8_t] (the columns of type bool and
    int8), [int16_t], [int32_t], [int64_t], [float] and [double]. *)
Definition sizeof_T (k : FwKind) : Z :=
  match k with
  | FW_BOOL | FW_INT8 => 1
  | FW_INT16 => 2
  | FW_INT32 | FW_FLOAT32 => 4
  | FW_INT64 | FW_FLOAT64 => 8
  end.

(** [sizeof(T)] for the offset type [T] of a string column: [uint32_t]
    or [uint64_t]. *)
Definition sizeof_off (w : OffW) : Z :=
  match w with W32 => 4 | W64 => 8 end.

(** The [sizeof] of a pointer to [PyObject], on the platform whose
    [size_t] has 64 bits. *)
Definition sizeof_ptr : Z := 8.

(** [static_cast<T>(x)] for the offset type [T] of width [w]. *)
Definition wrapT (w : OffW) (x : Z) : Z := x mod 2 ^ bits w.

(** Modelled from the spec: [GETNA<uint32_t>()] and [GETNA<uint64_t>()]
    are declared outside this file; the specification says a missing
    string sets "a dedicated high bit" on its end offset. *)
Definition GETNA (w : OffW) : Z := 2 ^ (bits w - 1).

(** Modelled from the spec: [ISNA<T>(x)] for an offset tests that high
    bit. *)
Definition ISNA (w : OffW) (x : Z) : bool := Z.testbit x (bits w - 1).

(** [x & ~GETNA<T>()] *)
Definition clear_na (w : OffW) (x : Z) : Z := Z.ldiff x (GETNA w).

(** Modelled from the spec: [Column::MAX_ARR32_SIZE], "the 32-bit offset
    limit": the largest offset that leaves the high bit free. *)
Definition MAX_ARR32_SIZE : Z := 2 ^ 31 - 1.

(** [static constexpr size_t INVALID_INDEX = size_t(-1)] *)
Definition INVALID_INDEX : Z := 2 ^ 64 - 1.

(** ** Errors *)

Inductive Error :=
| TypeError_not_frame (j : nat)
    (** "`Frame.rbind()` expects a list or sequence of Frames ...; instead
        item j was a ..." *)
| ValueError_keyed
    (** "Cannot rbind to a keyed frame" *)
| ValueError_ncols (n0 n1 : nat)
    (** "Cannot rbind frame with n1 columns to a frame with n0 columns
        without parameter `force=True`" *)
| ValueError_not_found (name : string)
    (** "Column `name` is not found in the original frame; ..." *)
| TypeError_rbind (col_type new_type : SType)
    (** "Cannot rbind column of type `col_type` to a column of type
        `new_type`" *)
| Fault.
    (** an access outside a container or buffer *)

#[global] Instance Error_eq_dec : EqDecision Error.
Proof. solve_decision. Defined.

Inductive res (A : Type) :=
| Ok (a : A)
| Err (e : Error).
Arguments Ok {A} a.
Arguments Err {A} e.

Definition bind {A B} (m : res A) (k : A -> res B) : res B :=
  match m with
  | Ok a => k a
  | Err e => Err e
  end.

Notation "'do' x <- m ; k" := (bind m (fun x => k))
  (at level 10, x pattern, m at level 100, k at level 200).

(** [v[i]] on a [std::vector]. *)
Definition at_ {A} (v : list A) (i : nat) : res A :=
  match v !! i with
  | Some x => Ok x
  | None => Err Fault
  end.

(** ** Columns *)

(** A column in materialized form, one constructor per [ColumnImpl] class
    that has an [rbind_impl].  For a string column [offs] holds the
    entries of the offset buffer after the leading entry, that is the
    array the code calls [offs] once it has added one to the buffer's
    start; the leading entry always holds 0 ([offs[-1] = 0]). *)
Inductive Column :=
| ConstNa_ColumnImpl (nrows_ : Z) (stype_ : SType)
| SentinelFw_ColumnImpl (kind : FwKind) (mbuf_ : list Z)
| SentinelStr_ColumnImpl (w : OffW) (offs : list Z) (strbuf_ : list Byte.byte)
| SentinelObj_ColumnImpl (mbuf_ : list PyObj).

Definition col_nrows (c : Column) : Z :=
  match c with
  | ConstNa_ColumnImpl n _ => n
  | SentinelFw_ColumnImpl _ d => Z.of_nat (length d)
  | SentinelStr_ColumnImpl _ o _ => Z.of_nat (length o)
  | SentinelObj_ColumnImpl d => Z.of_nat (length d)
  end.

Definition col_stype (c : Column) : SType :=
  match c with
  | ConstNa_ColumnImpl _ s => s
  | SentinelFw_ColumnImpl k _ => fw_stype k
  | SentinelStr_ColumnImpl w _ _ => str_stype w
  | SentinelObj_ColumnImpl _ => OBJ
  end.

Definition col_ltype (c : Column) : LType := stype_ltype (col_stype c).

(** Modelled from the spec: [Column::new_na_column(nrows, stype)] is
    defined outside this file; it makes the Constant-NA column of section
    3, "no data, every logical value is missing", of the given row count
    and type. *)
Definition new_na_column (nrows : Z) (s : SType) : Column :=
  ConstNa_ColumnImpl nrows s.

(** ** Tables *)

Record DataTable := mkDataTable {
  nrows_ : Z;
  ncols_ : nat;
  nkeys_ : nat;
  columns_ : list Column;
  names_ : list string
}.

(** [DataTable::get_column(k)] *)
Definition get_column (df : DataTable) (k : nat) : res Column :=
  at_ (columns_ df) k.

(** ** [py::Frame::rbind]: collecting the frames *)

(** An argument of the Python call, as [process_arg] distinguishes
    them. *)
#[warnings="-register-all"]
Inductive robj :=
| PyFrame (df : DataTable)
| PyIter (items : list robj)
| PyString (s : string)
| PyOther.

(** The lambda [process_arg] of [Frame::rbind]; its captured variables
    [dts] and [j] are threaded as a pair. *)
Fixpoint process_arg (arg : robj) (level : nat) (st : list DataTable * nat)
  : res (list DataTable * nat) :=
  match arg with
  | PyFrame df =>
      let '(dts, j) := st in
      Ok (if decide (nrows_ df = 0) then dts else dts ++ [df], S j)
  | PyIter items =>
      if decide (level < 2)%nat then
        (fix each (items : list robj) (st : list DataTable * nat) :=
           match items with
           | [] => Ok st
           | item :: rest =>
               do st' <- process_arg item (S level) st; each rest st'
           end) items st
      else Err (TypeError_not_frame (snd st))
  | _ => Err (TypeError_not_frame (snd st))
  end.

(** [for (auto arg : args.varargs()) process_arg(arg, 0);] *)
Fixpoint process_varargs (varargs : list robj) (st : list DataTable * nat)
  : res (list DataTable * nat) :=
  match varargs with
  | [] => Ok st
  | arg :: rest => do st' <- process_arg arg 0 st; process_varargs rest st'
  end.

(** The frames an argument holds, in the order of the traversal. *)
Fixpoint frames_of (arg : robj) : list DataTable :=
  match arg with
  | PyFrame df => [df]
  | PyIter items =>
      (fix each (items : list robj) : list DataTable :=
         match items with
         | [] => []
         | item :: rest => frames_of item ++ each rest
         end) items
  | _ => []
  end.

Definition all_frames (varargs : list robj) : list DataTable :=
  flat_map frames_of varargs.

Definition has_rows (df : DataTable) : Prop := nrows_ df <> 0.

#[global] Instance has_rows_dec df : Decision (has_rows df).
Proof. unfold has_rows. apply _. Defined.

(** ** [py::Frame::rbind]: matching the columns *)

Abbreviation sztvec := (list Z) (only parsing).

(** [_check_ncols] *)
Definition _check_ncols (n0 n1 : nat) : res unit :=
  if decide (n0 = n1) then Ok tt else Err (ValueError_ncols n0 n1).

(** [cols[r][c] = v] *)
Definition set_cell (cols : list sztvec) (r c : nat) (v : Z)
  : res (list sztvec) :=
  match cols !! r with
  | Some row =>
      if decide (c < length row)%nat
      then Ok (<[r := <[c := v]> row]> cols)
      else Err Fault
  | None => Err Fault
  end.

(** The variables of the planner: [final_names], [cols], [inames], [n]. *)
Record Plan := mkPlan {
  final_names : list string;
  cols : list sztvec;
  inames : gmap string nat;
  plan_n : nat
}.

(** [for (const auto& name : final_names) inames[name] = i++;] *)
Fixpoint index_names (names : list string) (i : nat) (m : gmap string nat)
  : gmap string nat :=
  match names with
  | [] => m
  | name :: rest => index_names rest (S i) (<[name := i]> m)
  end.

(** The body of the loop over [dfnames] in the branch [bynames]. *)
Definition bynames_name (force : bool) (ndts i j : nat) (name : string)
    (p : Plan) : res Plan :=
  do same <- (if decide (j < plan_n p)%nat
              then do f <- at_ (final_names p) j; Ok (bool_decide (name = f))
              else Ok false);
  if same : bool then
    do cols' <- set_cell (cols p) j i (Z.of_nat j);
    Ok (mkPlan (final_names p) cols' (inames p) (plan_n p))
  else
    match inames p !! name with
    | Some k =>
        do cols' <- set_cell (cols p) k i (Z.of_nat j);
        Ok (mkPlan (final_names p) cols' (inames p) (plan_n p))
    | None =>
        if force then
          let n := plan_n p in
          let cols1 := cols p ++ [replicate ndts INVALID_INDEX] in
          do cols' <- set_cell cols1 n i (Z.of_nat j);
          Ok (mkPlan (final_names p ++ [name]) cols'
                     (<[name := n]> (inames p)) (S n))
        else Err (ValueError_not_found name)
    end.

Fixpoint bynames_names (force : bool) (ndts i : nat) (dfnames : list string)
    (j : nat) (p : Plan) : res Plan :=
  match dfnames with
  | [] => Ok p
  | name :: rest =>
      do p' <- bynames_name force ndts i j name p;
      bynames_names force ndts i rest (S j) p'
  end.

(** The loop over [dts] in the branch [bynames]. *)
Fixpoint bynames_frames (force : bool) (ndts : nat) (dts : list DataTable)
    (i : nat) (p : Plan) : res Plan :=
  match dts with
  | [] => Ok p
  | df :: rest =>
      do _ <- (if force then Ok tt else _check_ncols (plan_n p) (ncols_ df));
      do p' <- bynames_names force ndts i (names_ df) 0 p;
      bynames_frames force ndts rest (S i) p'
  end.

(** [for (size_t j = n; j < df->ncols(); ++j) { final_names.push_back(
    dfnames[j]); cols.push_back(sztvec(dts.size(), INVALID_INDEX)); }],
    by the number of iterations left. *)
Fixpoint bypos_extend (ndts : nat) (dfnames : list string) (count j : nat)
    (p : Plan) : res Plan :=
  match count with
  | O => Ok p
  | S count' =>
      do name <- at_ dfnames j;
      bypos_extend ndts dfnames count' (S j)
        (mkPlan (final_names p ++ [name])
                (cols p ++ [replicate ndts INVALID_INDEX])
                (inames p) (plan_n p))
  end.

(** [for (size_t j = 0; j < df->ncols(); ++j) cols[j][i] = j;], by the
    number of iterations left. *)
Fixpoint bypos_fill (i count j : nat) (cs : list sztvec)
  : res (list sztvec) :=
  match count with
  | O => Ok cs
  | S count' =>
      do cs' <- set_cell cs j i (Z.of_nat j);
      bypos_fill i count' (S j) cs'
  end.

(** The loop over [dts] in the branch [!bynames]. *)
Fixpoint bypos_frames (force : bool) (ndts : nat) (dts : list DataTable)
    (i : nat) (p : Plan) : res Plan :=
  match dts with
  | [] => Ok p
  | df :: rest =>
      do p1 <-
        (if decide (plan_n p = ncols_ df) then Ok p
         else
           do _ <- (if force then Ok tt
                    else _check_ncols (plan_n p) (ncols_ df));
           if decide (plan_n p < ncols_ df)%nat then
             do p' <- bypos_extend ndts (names_ df)
                        (ncols_ df - plan_n p) (plan_n p) p;
             Ok (mkPlan (final_names p') (cols p') (inames p') (ncols_ df))
           else Ok p);
      do cs <- bypos_fill i (ncols_ df) 0 (cols p1);
      bypos_frames force ndts rest (S i)
        (mkPlan (final_names p1) cs (inames p1) (plan_n p1))
  end.

(** Lines 166-171: the names and the number of columns the planner
    starts from.  [dts] is not empty when the code gets here. *)
Definition seed_names (dt : DataTable) (dts : list DataTable)
  : list string * nat :=
  if decide (ncols_ dt = 0%nat) then
    match dts with
    | df0 :: _ => (names_ df0, length (names_ df0))
    | [] => (names_ dt, ncols_ dt)
    end
  else (names_ dt, ncols_ dt).

(** Lines 177-180: [cols] as a matrix of [n] rows, one entry per frame,
    all [INVALID_INDEX]. *)
Definition empty_cols (n ndts : nat) : list sztvec :=
  replicate n (replicate ndts INVALID_INDEX).

(** The planner: lines 166-240 of [Frame::rbind], from the copy of the
    target's names to the end of the two matching branches. *)
Definition plan_columns (dt : DataTable) (dts : list DataTable)
    (force bynames : bool) : res Plan :=
  let '(final_names0, n0) := seed_names dt dts in
  let ndts := length dts in
  if bynames then
    bynames_frames force ndts dts 0
      (mkPlan final_names0 (empty_cols n0 ndts)
              (index_names final_names0 0 ∅) n0)
  else
    bypos_frames force ndts dts 0
      (mkPlan final_names0 (empty_cols n0 ndts) ∅ n0).

(** *** The planner without the same-position shortcut *)

(** The body of the loop over [dfnames] when every name goes through the
    lookup in [inames]: the planner of the specification's section 4.1
    with its first test left out. *)
Definition lookup_name (force : bool) (ndts i j : nat) (name : string)
    (p : Plan) : res Plan :=
  match inames p !! name with
  | Some k =>
      do cols' <- set_cell (cols p) k i (Z.of_nat j);
      Ok (mkPlan (final_names p) cols' (inames p) (plan_n p))
  | None =>
      if force then
        let n := plan_n p in
        let cols1 := cols p ++ [replicate ndts INVALID_INDEX] in
        do cols' <- set_cell cols1 n i (Z.of_nat j);
        Ok (mkPlan (final_names p ++ [name]) cols'
                   (<[name := n]> (inames p)) (S n))
      else Err (ValueError_not_found name)
  end.

Fixpoint lookup_names (force : bool) (ndts i : nat) (dfnames : list string)
    (j : nat) (p : Plan) : res Plan :=
  match dfnames with
  | [] => Ok p
  | name :: rest =>
      do p' <- lookup_name force ndts i j name p;
      lookup_names force ndts i rest (S j) p'
  end.

Fixpoint lookup_frames (force : bool) (ndts : nat) (dts : list DataTable)
    (i : nat) (p : Plan) : res Plan :=
  match dts with
  | [] => Ok p
  | df :: rest =>
      do _ <- (if force then Ok tt else _check_ncols (plan_n p) (ncols_ df));
      do p' <- lookup_names force ndts i (names_ df) 0 p;
      lookup_frames force ndts rest (S i) p'
  end.

Definition plan_columns_lookup (dt : DataTable) (dts : list DataTable)
    (force : bool) : res Plan :=
  let '(final_names0, n0) := seed_names dt dts in
  let ndts := length dts in
  lookup_frames force ndts dts 0
    (mkPlan final_names0 (empty_cols n0 ndts)
            (index_names final_names0 0 ∅) n0).

(** *** What the planner maintains *)

(** [cols] is a matrix of [n] rows with one entry per frame. *)
Definition cols_shape (ndts n : nat) (cs : list sztvec) : Prop :=
  length cs = n /\ Forall (fun row => length row = ndts) cs.

(** [final_names] has [n] names, and [inames] maps exactly these names to
    positions below [n]. *)
Definition names_inv (p : Plan) : Prop :=
  length (final_names p) = plan_n p /\
  (forall name k, inames p !! name = Some k -> (k < plan_n p)%nat) /\
  (forall name, name ∈ final_names p <-> is_Some (inames p !! name)).

(** [inames] is the inverse of [final_names]. *)
Definition names_bij (p : Plan) : Prop :=
  length (final_names p) = plan_n p /\
  (forall name k,
     inames p !! name = Some k <-> final_names p !! k = Some name).

(** The exceptions of the planner when [force] is off, for a schema of
    [n0] columns named [fnames]. *)
Definition schema_error (n0 : nat) (fnames : list string)
    (dts : list DataTable) (e : Error) : Prop :=
  (exists df, df ∈ dts /\ ncols_ df <> n0 /\
              e = ValueError_ncols n0 (ncols_ df)) \/
  (exists df name, df ∈ dts /\ name ∈ names_ df /\ (name ∉ fnames) /\
                   e = ValueError_not_found name).

(** ** Type promotion *)

(** Position of a fixed-width type in the chain
    [bool < int8 < int16 < int32 < int64 < float32 < float64]. *)
Definition fw_rank (k : FwKind) : nat :=
  match k with
  | FW_BOOL => 1 | FW_INT8 => 2 | FW_INT16 => 3 | FW_INT32 => 4
  | FW_INT64 => 5 | FW_FLOAT32 => 6 | FW_FLOAT64 => 7
  end%nat.

Definition stype_fw (s : SType) : option FwKind :=
  match s with
  | BOOL => Some FW_BOOL | INT8 => Some FW_INT8 | INT16 => Some FW_INT16
  | INT32 => Some FW_INT32 | INT64 => Some FW_INT64
  | FLOAT32 => Some FW_FLOAT32 | FLOAT64 => Some FW_FLOAT64
  | _ => None
  end.

(** Modelled from the spec: [dt::Type::common] is declared outside this
    file.  Section 4.4: the chain [void < bool < int8 < int16 < int32 <
    int64 < float32 < float64] promotes to the right; [string] and
    [object] are compatible only with themselves, [void] and [object];
    [void] is the identity.  [None] is the invalid type.  The two string
    types differ in offset width only and combine to the wider one. *)
Definition common (a b : SType) : option SType :=
  match a, b with
  | VOID, x => Some x
  | x, VOID => Some x
  | OBJ, OBJ | OBJ, STR32 | OBJ, STR64 | STR32, OBJ | STR64, OBJ => Some OBJ
  | STR32, STR32 => Some STR32
  | STR32, STR64 | STR64, STR32 | STR64, STR64 => Some STR64
  | _, _ =>
      match stype_fw a, stype_fw b with
      | Some ka, Some kb =>
          Some (if decide (fw_rank ka <= fw_rank kb)%nat then b else a)
      | _, _ => None
      end
  end.

(** The type [Column::rbind] arrives at: [new_type] after the loop over
    the columns' types, or the pair of types its exception names, the
    column's type first. *)
Fixpoint common_type_of (new_type : SType) (types : list SType)
  : SType + SType * SType :=
  match types with
  | [] => inl new_type
  | t :: rest =>
      match common new_type t with
      | Some next_type => common_type_of next_type rest
      | None => inr (t, new_type)
      end
  end.

(** The element types of the specification's data model: one string type,
    whatever the width of the offsets. *)
Inductive ElementType :=
| E_void | E_bool | E_int8 | E_int16 | E_int32 | E_int64
| E_float32 | E_float64 | E_string | E_object.

Definition element_type (s : SType) : ElementType :=
  match s with
  | VOID => E_void | BOOL => E_bool | INT8 => E_int8 | INT16 => E_int16
  | INT32 => E_int32 | INT64 => E_int64 | FLOAT32 => E_float32
  | FLOAT64 => E_float64 | STR32 | STR64 => E_string | OBJ => E_object
  end.

(** The only error of a computation is an access out of bounds. *)
Definition only_fault {A} (m : res A) : Prop :=
  forall e, m = Err e -> e = Fault.

(** The sum of the frames' row counts, as a number. *)
Definition sum_nrows (dts : list DataTable) : Z :=
  foldr Z.add 0 (nrows_ <$> dts).

(** ** The values of a string column *)

(** The bytes from offset [off_beg] up to offset [off_end]. *)
Definition str_slice (off_beg off_end : Z) (strbuf : list Byte.byte)
  : list Byte.byte :=
  take (Z.to_nat (off_end - off_beg)) (drop (Z.to_nat off_beg) strbuf).

(** Modelled from the spec: reading a string column is defined outside
    this file.  Section 3: the entry of a row is the end offset of its
    string, the string starts where the previous one ended, "a missing
    string is encoded by setting a dedicated high bit on its end-offset",
    and "removing the bit always yields a valid offset".  [str_decode w
    prev offs strbuf] lists the values of the rows whose entries are
    [offs], [None] for a missing one, when the entry before them is
    [prev]. *)
Fixpoint str_decode (w : OffW) (prev : Z) (offs : list Z)
    (strbuf : list Byte.byte) : list (option (list Byte.byte)) :=
  match offs with
  | [] => []
  | off_end :: rest =>
      (if ISNA w off_end then None
       else Some (str_slice (clear_na w prev) off_end strbuf))
      :: str_decode w off_end rest strbuf
  end.

(** The values a column contributes to a string column: those of a string
    column, and one missing value per row of a void column. *)
Definition col_values (c : Column) : list (option (list Byte.byte)) :=
  match c with
  | SentinelStr_ColumnImpl w offs strbuf => str_decode w 0 offs strbuf
  | ConstNa_ColumnImpl n _ => replicate (Z.to_nat n) None
  | _ => []
  end.

(** The last entry of an offset buffer whose entries after the leading
    one are [offs], [prev] being the entry before them. *)
Definition last_off (prev : Z) (offs : list Z) : Z :=
  default prev (last offs).

(** A string column as the data model has it: every entry fits the offset
    type and, with the high bit removed, lies within the string data, and
    the string data ends where the last entry says. *)
Definition str_wf (w : OffW) (offs : list Z) (strbuf : list Byte.byte)
  : Prop :=
  Forall (fun e => 0 <= e < 2 ^ bits w /\
                   clear_na w e <= Z.of_nat (length strbuf)) offs /\
  clear_na w (last_off 0 offs) = Z.of_nat (length strbuf).

(** The columns the second loop of the string appender can meet: void
    columns and string columns. *)
Definition str_source (c : Column) : Prop :=
  match c with
  | SentinelStr_ColumnImpl w offs strbuf => str_wf w offs strbuf
  | ConstNa_ColumnImpl n s => s = VOID /\ 0 <= n
  | _ => False
  end.

(** The number of rows and of bytes of string data of a list of
    columns. *)
Definition total_rows (columns : list Column) : Z :=
  foldr Z.add 0 (col_nrows <$> columns).

Definition col_bytes (c : Column) : Z :=
  match c with
  | SentinelStr_ColumnImpl _ _ strbuf => Z.of_nat (length strbuf)
  | _ => 0
  end.

Definition total_bytes (columns : list Column) : Z :=
  foldr Z.add 0 (col_bytes <$> columns).

(** ** Buffers *)

(** [memcpy] / [set_value] / [std::fill] of [vals] to position [pos] of a
    buffer. *)
Definition write_at {A} (pos : nat) (vals : list A) (buf : list A)
  : res (list A) :=
  if decide (pos + length vals <= length buf)%nat
  then Ok (take pos buf ++ vals ++ drop (pos + length vals) buf)
  else Err Fault.

(** [nrows_ = new_nrows], after the buffer has been resized.  A column of
    the embedding has the rows its buffer holds.  Where the size in bytes
    that the code computed for the buffer has wrapped, the buffer holds
    fewer rows than [new_nrows]: the column is left with rows outside its
    buffer, which the loops that follow write and a later read meets.
    The embedding stops here with [Fault]. *)
Definition set_nrows {A} (buf : list A) (new_nrows : Z) : res unit :=
  if decide (Z.of_nat (length buf) = new_nrows) then Ok tt else Err Fault.

(** What an [rbind_impl] leaves behind: the rebuilt column, the list
    [columns] (whose elements it casts in place) and the in-out parameter
    [new_stype]. *)
Record Appended := mkAppended {
  app_self : Column;
  app_columns : list Column;
  app_new_stype : SType
}.

(** ** Example data *)

(** A cast to instantiate the appenders with in the examples: a column
    that has the type asked for is returned as it is, any other column
    becomes a column of that type without values. *)
Definition ex_cast (s : SType) (c : Column) : Column :=
  if decide (col_stype c = s) then c
  else ConstNa_ColumnImpl (col_nrows c) s.

(** Missing-value patterns for the examples: the smallest integer of the
    width, and a NaN for the two float types. *)
Definition ex_GETNA_fw (k : FwKind) : Z :=
  match k with
  | FW_BOOL | FW_INT8 => -128
  | FW_INT16 => -32768
  | FW_INT32 => -2147483648
  | FW_INT64 => -9223372036854775808
  | FW_FLOAT32 => 2139097762
  | FW_FLOAT64 => 9218868437227407266
  end.

Definition ex_int32 (data : list Z) : Column :=
  SentinelFw_ColumnImpl FW_INT32 data.

(** The frames of the examples in the documentation of [dt.rbind]. *)
Definition ex_DT1 : DataTable :=
  mkDataTable 3 2 0 [ex_int32 [5; 4; 6]; ex_int32 [170; 172; 180]]
    ["Weight"; "Height"]%string.

Definition ex_DT2 : DataTable :=
  mkDataTable 3 2 0 [ex_int32 [180; 181; 169]; ex_int32 [4; 4; 5]]
    ["Height"; "Weight"]%string.

Definition ex_DT3 : DataTable :=
  mkDataTable 3 3 0
    [ex_int32 [4; 4; 5]; ex_int32 [180; 181; 169]; ex_int32 [25; 50; 67]]
    ["Weight"; "Height"; "Age"]%string.

(** [ex_DT1] with its first column as key, and a frame without rows. *)
Definition ex_keyed : DataTable :=
  mkDataTable 3 2 1 [ex_int32 [5; 4; 6]; ex_int32 [170; 172; 180]]
    ["Weight"; "Height"]%string.

Definition ex_norows : DataTable :=
  mkDataTable 0 1 0 [ex_int32 []] ["Age"]%string.

(** A frame without columns, as [dt.Frame()] makes it. *)
Definition ex_nocols : DataTable := mkDataTable 0 0 0 [] [].

(** A target with one integer column, a frame with the same column, and a
    frame that has a column of Python objects besides. *)
Definition ex_A3 : DataTable :=
  mkDataTable 3 1 0 [ex_int32 [1; 2; 3]] ["A"]%string.

Definition ex_A2 : DataTable :=
  mkDataTable 2 1 0 [ex_int32 [4; 5]] ["A"]%string.

Definition ex_AB3 : DataTable :=
  mkDataTable 3 2 0
    [ex_int32 [6; 7; 8];
     SentinelObj_ColumnImpl [Py_ref 1; Py_ref 2; Py_ref 3]]
    ["A"; "B"]%string.

(** String columns: "ab", missing, "c" with 64-bit offsets; missing, "de"
    with 32-bit offsets. *)
Definition ex_str64 : Column :=
  SentinelStr_ColumnImpl W64 [2; 2 ^ 63 + 2; 3]
    [Byte.x61; Byte.x62; Byte.x63].

Definition ex_str32 : Column :=
  SentinelStr_ColumnImpl W32 [2 ^ 31; 2] [Byte.x64; Byte.x65].

(** [ex_DT1] with the rows of [ex_DT2] appended by names. *)
Definition ex_DT12 : DataTable :=
  mkDataTable 6 2 0
    [ex_int32 [5; 4; 6; 4; 4; 5]; ex_int32 [170; 172; 180; 180; 181; 169]]
    ["Weight"; "Height"]%string.

(** [ex_DT1] with the rows of [ex_DT3] appended with [force]. *)
Definition ex_DT13 : DataTable :=
  mkDataTable 6 3 0
    [ex_int32 [5; 4; 6; 4; 4; 5];
     ex_int32 [170; 172; 180; 180; 181; 169];
     ex_int32 [-2147483648; -2147483648; -2147483648; 25; 50; 67]]
    ["Weight"; "Height"; "Age"]%string.

(** A frame whose second column is a string column. *)
Definition ex_mixed : DataTable :=
  mkDataTable 2 2 0 [ex_int32 [1; 2]; ex_str32]
    ["Weight"; "Height"]%string.

(** [ex_DT1] with its own rows and those of [ex_DT2] appended by names,
    and [ex_DT1] as an append of itself and of [ex_mixed] by position
    leaves it: the first column rebuilt, the second as it was. *)
Definition ex_DT112 : DataTable :=
  mkDataTable 9 2 0
    [ex_int32 [5; 4; 6; 5; 4; 6; 4; 4; 5];
     ex_int32 [170; 172; 180; 170; 172; 180; 180; 181; 169]]
    ["Weight"; "Height"]%string.

Definition ex_DT11_torn : DataTable :=
  mkDataTable 3 2 0
    [ex_int32 [5; 4; 6; 5; 4; 6; 1; 2]; ex_int32 [170; 172; 180]]
    ["Weight"; "Height"]%string.

(** A frame of three columns, one more than [ex_DT1] has, whose second
    column is a string column. *)
Definition ex_mixed3 : DataTable :=
  mkDataTable 2 3 0 [ex_int32 [1; 2]; ex_str32; ex_int32 [30; 40]]
    ["Weight"; "Height"; "Age"]%string.

(** A frame of one void column of [2^63] rows. *)
Definition ex_void63 : DataTable :=
  mkDataTable (2 ^ 63) 1 0 [ConstNa_ColumnImpl (2 ^ 63) VOID] ["A"]%string.

Section Rbind.

(** [Column::cast] and [Column::cast_inplace] are defined outside this
    file; the appenders are parametric in them. *)
Variable cast : SType -> Column -> Column.

(** [GETNA<T>()] of the fixed-width element types, declared outside this
    file: the reserved bit pattern that denotes a missing value. *)
Variable GETNA_fw : FwKind -> Z.

(** The content of buffer elements that [Buffer::resize] adds and does not
    initialise. *)
Variable uninit : Z.
Variable uninit_byte : Byte.byte.

(** What [Column::rbind] asserts of a cast ([xassert(newcol.stype() ==
    new_stype)]): the column it returns has the type asked for. *)
Definition cast_keeps_stype : Prop :=
  forall s c, col_stype (cast s c) = s.

(** Modelled from the spec: [Column::materialize] is defined outside this
    file.  It "resolves any pending lazy/view representation into concrete
    storage"; the one such representation here is the all-missing column
    of a type other than void, which becomes a buffer of missing
    values. *)
Definition materialize (c : Column) : Column :=
  match c with
  | ConstNa_ColumnImpl n s =>
      match s with
      | VOID => c
      | STR32 =>
          SentinelStr_ColumnImpl W32 (replicate (Z.to_nat n) (GETNA W32)) []
      | STR64 =>
          SentinelStr_ColumnImpl W64 (replicate (Z.to_nat n) (GETNA W64)) []
      | OBJ => SentinelObj_ColumnImpl (replicate (Z.to_nat n) Py_None)
      | _ =>
          match stype_fw s with
          | Some k =>
              SentinelFw_ColumnImpl k (replicate (Z.to_nat n) (GETNA_fw k))
          | None => c
          end
      end
  | _ => c
  end.

(** *** [dt::ConstNa_ColumnImpl::rbind_impl] *)

Definition ConstNa_rbind_impl (stype_ : SType) (columns : list Column)
    (new_nrows : Z) (new_stype : SType) : res Appended :=
  Ok (mkAppended (ConstNa_ColumnImpl new_nrows stype_) columns new_stype).

(** *** [dt::SentinelFw_ColumnImpl<T>::rbind_impl] *)

(** The buffer, the write pointer [resptr] and the counter
    [rows_to_fill].  [resptr] is a [char*]; it is kept here in elements of
    type [T] from the start of the buffer: every amount the code adds to
    it is a product by [sizeof(T)] on [size_t], hence a multiple of
    [sizeof(T)], and is added here divided by [sizeof(T)]. *)
Record FwState := mkFwState {
  fw_buf : list Z;
  fw_resptr : nat;
  fw_rows_to_fill : Z
}.

(** [if (rows_to_fill) { set_value(resptr, naptr, sizeof(T), rows_to_fill);
    resptr += rows_to_fill * sizeof(T); rows_to_fill = 0; }] *)
Definition fw_flush (k : FwKind) (s : FwState) : res FwState :=
  if decide (fw_rows_to_fill s = 0) then Ok s
  else
    let n := Z.to_nat (fw_rows_to_fill s) in
    do buf <- write_at (fw_resptr s) (replicate n (GETNA_fw k)) (fw_buf s);
    Ok (mkFwState buf
          (fw_resptr s
           + Z.to_nat (size_mul (fw_rows_to_fill s) (sizeof_T k)
                       / sizeof_T k))
          0).

(** [col.get_data_readonly()] of a fixed-width column. *)
Definition fw_data (c : Column) : res (list Z) :=
  match c with
  | SentinelFw_ColumnImpl _ d => Ok d
  | _ => Err Fault
  end.

(** The loop over [columns]; returns the columns as the loop leaves them
    together with the state. *)
Fixpoint fw_loop (k : FwKind) (columns : list Column) (s : FwState)
  : res (list Column * FwState) :=
  match columns with
  | [] => Ok ([], s)
  | col :: rest =>
      if decide (col_stype col = VOID) then
        do (rest', s') <-
          fw_loop k rest
            (mkFwState (fw_buf s) (fw_resptr s)
                       (size_add (fw_rows_to_fill s) (col_nrows col)));
        Ok (col :: rest', s')
      else
        do s1 <- fw_flush k s;
        let col' := if decide (col_stype col = fw_stype k) then col
                    else materialize (cast (fw_stype k) col) in
        let col_data_size := size_mul (sizeof_T k) (col_nrows col') in
        do s2 <-
          (if decide (col_data_size = 0) then Ok s1
           else
             do data <- fw_data col';
             let n := Z.to_nat (col_data_size / sizeof_T k) in
             do buf <- write_at (fw_resptr s1) (take n data) (fw_buf s1);
             Ok (mkFwState buf (fw_resptr s1 + n) 0));
        do (rest', s') <- fw_loop k rest s2;
        Ok (col' :: rest', s')
  end.

(** The appender.  [mbuf_.resize(new_alloc_size)] leaves a buffer of
    [new_alloc_size] bytes, that is of [new_alloc_size / sizeof(T)]
    elements, the old elements first.  The [xassert] that closes the
    function is a debug check and is not part of the embedding. *)
Definition SentinelFw_rbind_impl (k : FwKind) (mbuf_ : list Z)
    (columns : list Column) (new_nrows : Z) (col_empty : bool)
    (new_stype : SType) : res Appended :=
  let old_nrows := Z.of_nat (length mbuf_) in
  let old_alloc_size := size_mul (sizeof_T k) old_nrows in
  let new_alloc_size := size_mul (sizeof_T k) new_nrows in
  let buf := resize (Z.to_nat (new_alloc_size / sizeof_T k)) uninit mbuf_ in
  do _ <- set_nrows buf new_nrows;
  let s0 := if col_empty then mkFwState buf 0 old_nrows
            else mkFwState buf (Z.to_nat (old_alloc_size / sizeof_T k)) 0 in
  do (columns', s1) <- fw_loop k columns s0;
  do s2 <- fw_flush k s1;
  Ok (mkAppended (SentinelFw_ColumnImpl k (fw_buf s2)) columns' new_stype).

(** The column the loop copies from: the column itself when it is void or
    has the type of the target, its materialized cast otherwise. *)
Definition fw_prepared (k : FwKind) (col : Column) : Column :=
  if decide (col_stype col = VOID) then col
  else if decide (col_stype col = fw_stype k) then col
  else materialize (cast (fw_stype k) col).

(** The elements a column contributes to a fixed-width column: its data,
    or one missing value per row of a void column. *)
Definition fw_values (k : FwKind) (c : Column) : list Z :=
  match c with
  | ConstNa_ColumnImpl n _ => replicate (Z.to_nat n) (GETNA_fw k)
  | SentinelFw_ColumnImpl _ d => d
  | _ => []
  end.

(** A column the loop can take: a void column, or a column that is, once
    cast, a buffer of elements. *)
Definition fw_source (k : FwKind) (col : Column) : Prop :=
  if decide (col_stype col = VOID) then 0 <= col_nrows col
  else exists k' d, fw_prepared k col = SentinelFw_ColumnImpl k' d.

(** *** [dt::SentinelObj_ColumnImpl::rbind_impl] *)

(** [col.get_element(i, dd); if (!isvalid) *dd = py::None()] on a column
    that has been cast to the object type: the boxed value of row [i], the
    null singleton for a row of a column without data. *)
Definition obj_element (c : Column) (i : nat) : res PyObj :=
  match c with
  | SentinelObj_ColumnImpl d => at_ d i
  | ConstNa_ColumnImpl _ _ => Ok Py_None
  | _ => Err Fault
  end.

(** [for (size_t i = 0; i < col.nrows(); ++i) { ...; dest_data++; }], by
    the number of iterations left. *)
Fixpoint obj_copy (col : Column) (count i : nat) (dest : nat)
    (buf : list PyObj) : res (nat * list PyObj) :=
  match count with
  | O => Ok (dest, buf)
  | S count' =>
      do x <- obj_element col i;
      do buf' <- write_at dest [x] buf;
      obj_copy col count' (S i) (S dest) buf'
  end.

Fixpoint obj_loop (columns : list Column) (dest : nat) (buf : list PyObj)
  : res (list Column * (nat * list PyObj)) :=
  match columns with
  | [] => Ok ([], (dest, buf))
  | col :: rest =>
      if decide (col_stype col = VOID) then
        do (rest', r) <-
          obj_loop rest (dest + Z.to_nat (col_nrows col)) buf;
        Ok (col :: rest', r)
      else
        let col' := cast OBJ col in
        do (dest', buf') <-
          obj_copy col' (Z.to_nat (col_nrows col')) 0 dest buf;
        do (rest', r) <- obj_loop rest dest' buf';
        Ok (col' :: rest', r)
  end.

(** The appender.  The buffer is resized to the size of a pointer times
    [new_nrows], in bytes, that is to [new_alloc_size / sizeof_ptr]
    pointers, the old ones first and the new ones [None].  The [xassert]
    that closes the function is a debug check and is not part of the
    embedding: on an "empty" column that has rows the write pointer ends
    before [dest_data0 + new_nrows], and a debug build throws there. *)
Definition SentinelObj_rbind_impl (mbuf_ : list PyObj)
    (columns : list Column) (nnrows : Z) (col_empty : bool)
    (new_stype : SType) : res Appended :=
  let old_nrows := length mbuf_ in
  let new_alloc_size := size_mul sizeof_ptr nnrows in
  let buf := resize (Z.to_nat (new_alloc_size / sizeof_ptr)) Py_None mbuf_ in
  do _ <- set_nrows buf nnrows;
  let dest := if col_empty then 0%nat else old_nrows in
  do (columns', (_, buf')) <- obj_loop columns dest buf;
  Ok (mkAppended (SentinelObj_ColumnImpl buf') columns' new_stype).

(** *** [dt::SentinelStr_ColumnImpl<T>::rbind_impl] *)

(** [col.get_data_size(1)]: the size of the string data of a string
    column. *)
Definition str_data_size (c : Column) : res Z :=
  match c with
  | SentinelStr_ColumnImpl _ _ sb => Ok (Z.of_nat (length sb))
  | _ => Err Fault
  end.

(** The first loop over [columns]: casts the columns that are not strings
    and adds up the sizes of the string data. *)
Fixpoint str_sizes (w : OffW) (columns : list Column) (new_strbuf_size : Z)
  : res (list Column * Z) :=
  match columns with
  | [] => Ok ([], new_strbuf_size)
  | col :: rest =>
      if decide (col_stype col = VOID) then
        do (rest', sz) <- str_sizes w rest new_strbuf_size;
        Ok (col :: rest', sz)
      else
        let col' := if decide (col_ltype col = LT_STRING) then col
                    else materialize (cast (str_stype w) col) in
        do n <- str_data_size col';
        do (rest', sz) <- str_sizes w rest (size_add new_strbuf_size n);
        Ok (col' :: rest', sz)
  end.

(** [static_cast<T>(GETNA<uint64_t>() - GETNA<uint32_t>())] *)
Definition delta_na (w : OffW) : Z := wrapT w (GETNA W64 - GETNA W32).

(** The value stored for the offset [offset] of a source column whose
    offsets have width [src], in a column whose offsets have width [w]:
    [static_cast<T>(offset) + curr_offset + (sizeof(T)==8 &&
    ISNA<uint32_t>(offset)? delta_na : 0)] for a 32-bit source and
    [static_cast<T>(offset) + curr_offset - (sizeof(T)==4 &&
    ISNA<uint64_t>(offset)? delta_na : 0)] for a 64-bit one. *)
Definition str_shift (w src : OffW) (curr_offset offset : Z) : Z :=
  match src with
  | W32 =>
      wrapT w (wrapT w offset + curr_offset +
               (if bool_decide (w = W64) && ISNA W32 offset
                then delta_na w else 0))
  | W64 =>
      wrapT w (wrapT w offset + curr_offset -
               (if bool_decide (w = W32) && ISNA W64 offset
                then delta_na w else 0))
  end.

(** The offset buffer, the write pointer [offs] (in entries after the
    leading one), [rows_to_fill], [curr_offset] and the string buffer. *)
Record StrState := mkStrState {
  st_offbuf : list Z;
  st_offs : nat;
  st_rows_to_fill : Z;
  st_curr_offset : Z;
  st_strbuf : list Byte.byte
}.

(** [if (rows_to_fill) { const T na = curr_offset ^ GETNA<T>();
    std::fill(offs, offs + rows_to_fill, na); offs += rows_to_fill;
    rows_to_fill = 0; }] *)
Definition str_flush (w : OffW) (s : StrState) : res StrState :=
  if decide (st_rows_to_fill s = 0) then Ok s
  else
    let k := Z.to_nat (st_rows_to_fill s) in
    let na := Z.lxor (st_curr_offset s) (GETNA w) in
    do buf <- write_at (st_offs s) (replicate k na) (st_offbuf s);
    Ok (mkStrState buf (st_offs s + k) 0 (st_curr_offset s) (st_strbuf s)).

(** The second loop over [columns]. *)
Fixpoint str_loop (w : OffW) (columns : list Column) (s : StrState)
  : res StrState :=
  match columns with
  | [] => Ok s
  | col :: rest =>
      if decide (col_stype col = VOID) then
        str_loop w rest
          (mkStrState (st_offbuf s) (st_offs s)
             (size_add (st_rows_to_fill s) (col_nrows col))
             (st_curr_offset s) (st_strbuf s))
      else
        do s1 <- str_flush w s;
        match col with
        | SentinelStr_ColumnImpl src col_offsets col_strdata =>
            let curr_offset := st_curr_offset s1 in
            do offbuf <-
              write_at (st_offs s1)
                (map (str_shift w src curr_offset) col_offsets)
                (st_offbuf s1);
            let offs := (st_offs s1 + length col_offsets)%nat in
            let col_strsize := Z.of_nat (length col_strdata) in
            do s2 <-
              (if decide (col_strsize = 0)
               then Ok (mkStrState offbuf offs 0 curr_offset (st_strbuf s1))
               else
                 do strbuf <- write_at (Z.to_nat curr_offset) col_strdata
                                (st_strbuf s1);
                 Ok (mkStrState offbuf offs 0
                       (wrapT w (curr_offset + wrapT w col_strsize))
                       strbuf));
            str_loop w rest s2
        | _ => Err Fault
        end
  end.

(** The appender.  [offbuf_.resize(new_mbuf_size)] leaves an offset
    buffer of [new_mbuf_size] bytes, that is of
    [new_mbuf_size / sizeof(T)] entries, of which the first is the
    leading entry and the others are the rows; [offs[-1] = 0] writes the
    leading entry, outside the buffer when the buffer has no entry. *)
Definition SentinelStr_rbind_impl (w : OffW) (offs_ : list Z)
    (strbuf_ : list Byte.byte) (columns : list Column) (new_nrows : Z)
    (col_empty : bool) (new_stype : SType) : res Appended :=
  let old_nrows := length offs_ in
  do (columns', new_strbuf_size) <-
    str_sizes w columns
      (if col_empty then 0 else size_add 0 (Z.of_nat (length strbuf_)));
  let new_mbuf_size := size_mul (sizeof_off w) (size_add new_nrows 1) in
  if bool_decide (w = W32) &&
     (bool_decide (new_strbuf_size > MAX_ARR32_SIZE) ||
      bool_decide (new_nrows > MAX_ARR32_SIZE))
  then Ok (mkAppended (SentinelStr_ColumnImpl w offs_ strbuf_) columns' STR64)
  else
    let entries := Z.to_nat (new_mbuf_size / sizeof_off w) in
    let offbuf := resize (entries - 1) uninit offs_ in
    let strbuf := resize (Z.to_nat new_strbuf_size) uninit_byte strbuf_ in
    do _ <- set_nrows offbuf new_nrows;
    do _ <- (if decide (entries = 0%nat) then Err Fault else Ok tt);
    do s0 <-
      (if col_empty
       then Ok (mkStrState offbuf 0 (size_add 0 (Z.of_nat old_nrows)) 0
                  strbuf)
       else
         do last <- (if decide (old_nrows = 0%nat) then Ok 0
                     else at_ offbuf (old_nrows - 1));
         Ok (mkStrState offbuf old_nrows 0 (clear_na w last) strbuf));
    do s1 <- str_loop w columns' s0;
    do s2 <- str_flush w s1;
    Ok (mkAppended (SentinelStr_ColumnImpl w (st_offbuf s2) (st_strbuf s2))
          columns' new_stype).

(** ** [Column::rbind] *)

(** The virtual call [impl->rbind_impl(columns, new_nrows, col_empty,
    new_stype)]. *)
Definition rbind_impl (self : Column) (columns : list Column)
    (new_nrows : Z) (col_empty : bool) (new_stype : SType) : res Appended :=
  match self with
  | ConstNa_ColumnImpl _ s => ConstNa_rbind_impl s columns new_nrows new_stype
  | SentinelFw_ColumnImpl k d =>
      SentinelFw_rbind_impl k d columns new_nrows col_empty new_stype
  | SentinelStr_ColumnImpl w o sb =>
      SentinelStr_rbind_impl w o sb columns new_nrows col_empty new_stype
  | SentinelObj_ColumnImpl d =>
      SentinelObj_rbind_impl d columns new_nrows col_empty new_stype
  end.

(** The loop that computes the final number of rows and the final type;
    it also materializes the columns. *)
Fixpoint rbind_types (columns : list Column) (new_nrows : Z)
    (new_type : SType) : res (list Column * (Z * SType)) :=
  match columns with
  | [] => Ok ([], (new_nrows, new_type))
  | col :: rest =>
      let col := materialize col in
      let new_nrows := size_add new_nrows (col_nrows col) in
      match common new_type (col_stype col) with
      | None => Err (TypeError_rbind (col_stype col) new_type)
      | Some next_type =>
          do (rest', r) <- rbind_types rest new_nrows next_type;
          Ok (col :: rest', r)
      end
  end.

(** The column [newcol] that [Column::rbind] creates, "an empty column
    filled with NAs; the current column; or a type-cast of the current
    column", after [newcol.materialize()]. *)
Definition rbind_newcol (self : Column) (new_stype : SType) : Column :=
  let col_empty := bool_decide (col_stype self = VOID) in
  materialize
    (if col_empty then new_na_column (col_nrows self) new_stype
     else if decide (col_stype self = new_stype) then self
     else cast new_stype self).

(** [Column::rbind]: the column that replaces [self]. *)
Definition Column_rbind (self : Column) (columns : list Column)
  : res Column :=
  let col_empty := bool_decide (col_stype self = VOID) in
  do (columns1, (new_nrows, new_type)) <-
    rbind_types columns (col_nrows self) (col_stype self);
  let new_stype := new_type in
  let newcol := rbind_newcol self new_stype in
  do a1 <- rbind_impl newcol columns1 new_nrows col_empty VOID;
  if decide (app_new_stype a1 = VOID) then Ok (app_self a1)
  else
    let newcol := materialize (cast (app_new_stype a1) (app_self a1)) in
    do a2 <- rbind_impl newcol (app_columns a1) new_nrows col_empty
               (app_new_stype a1);
    Ok (app_self a2).

(** ** [DataTable::rbind] *)

(** The inner loop that fills [cols_to_append] for one final column, whose
    row of [col_indices] is [row]. *)
Fixpoint cols_to_append (dts : list DataTable) (row : sztvec) (j : nat)
  : res (list Column) :=
  match dts with
  | [] => Ok []
  | dtj :: rest =>
      do k <- at_ row j;
      do col <- (if decide (k = INVALID_INDEX)
                 then Ok (new_na_column (nrows_ dtj) VOID)
                 else get_column dtj (Z.to_nat k));
      do cs <- cols_to_append rest row (S j);
      Ok (col :: cs)
  end.

(** The loop over the final columns.  An exception leaves the columns
    already rebuilt in place. *)
Fixpoint rbind_each (dts : list DataTable) (col_indices : list sztvec)
    (i : nat) (columns : list Column) : list Column * option Error :=
  match col_indices with
  | [] => (columns, None)
  | row :: rest =>
      match (do cs <- cols_to_append dts row 0;
             do c <- at_ columns i;
             do c' <- Column_rbind c cs;
             Ok (<[i := c']> columns)) with
      | Ok columns' => rbind_each dts rest (S i) columns'
      | Err e => (columns, Some e)
      end
  end.

(** The code takes the frames by pointer; here the frames of [dts] are
    values, read as they are when the call starts.  For a frame other
    than the target the two agree, the call changing the target only.
    For a frame that is the target itself they agree where the entry of
    row [i] for that frame is [INVALID_INDEX] (the row count changes
    last) or names a column that has not been rebuilt when column [i]
    is, one of index [i] or more: see [reads_unbuilt].  That is so for
    the matrix [Frame::rbind] builds for a target with distinct names,
    in which such a frame has the entry [i] in row [i]. *)
Definition DataTable_rbind (dt : DataTable) (dts : list DataTable)
    (col_indices : list sztvec) : DataTable * option Error :=
  let new_ncols := length col_indices in
  let columns0 :=
    columns_ dt ++
    replicate (new_ncols - ncols_ dt) (new_na_column (nrows_ dt) VOID) in
  let new_nrows :=
    fold_left (fun acc d => size_add acc (nrows_ d)) dts (nrows_ dt) in
  match rbind_each dts col_indices 0 columns0 with
  | (columns', Some e) =>
      (mkDataTable (nrows_ dt) (ncols_ dt) (nkeys_ dt) columns' (names_ dt),
       Some e)
  | (columns', None) =>
      (mkDataTable new_nrows new_ncols (nkeys_ dt) columns' (names_ dt),
       None)
  end.

(** ** [py::Frame::rbind] *)

(** [dt->set_names(final_names)] *)
Definition set_names (dt : DataTable) (names : list string) : DataTable :=
  mkDataTable (nrows_ dt) (ncols_ dt) (nkeys_ dt) (columns_ dt) names.

(** The method [Frame::rbind] on the frame that owns [dt]: the table it
    leaves and the exception it throws, if any.  [_clear_types()] resets
    a cache of the Python object, which the model does not carry. *)
Definition Frame_rbind (dt : DataTable) (varargs : list robj)
    (force bynames : bool) : DataTable * option Error :=
  match process_varargs varargs ([], 0%nat) with
  | Err e => (dt, Some e)
  | Ok (dts, _) =>
      match dts with
      | [] => (dt, None)
      | _ :: _ =>
          if decide (0 < nkeys_ dt)%nat then (dt, Some ValueError_keyed)
          else
            match plan_columns dt dts force bynames with
            | Err e => (dt, Some e)
            | Ok p =>
                match DataTable_rbind dt dts (cols p) with
                | (dt', Some e) => (dt', Some e)
                | (dt', None) => (set_names dt' (final_names p), None)
                end
            end
      end
  end.

(** The function [dt.rbind]: the method, called on a new empty frame. *)
Definition py_rbind (varargs : list robj) (force bynames : bool)
  : DataTable * option Error :=
  Frame_rbind (mkDataTable 0 0 0 [] []) varargs force bynames.

(** ** Tables of the data model *)

(** "Every column's row count equals the table's row count", a row count
    being a number of type [size_t]. *)
Definition rows_ok (df : DataTable) : Prop :=
  0 <= nrows_ df < 2 ^ 64 /\
  Forall (fun c => col_nrows c = nrows_ df) (columns_ df).

(** The table has [ncols_] columns and as many names. *)
Definition shape_ok (df : DataTable) : Prop :=
  length (columns_ df) = ncols_ df /\ length (names_ df) = ncols_ df.

(** The number of rows [Column::rbind] computes: the loop
    [new_nrows += col.nrows()] over the materialized columns. *)
Definition rbind_nrows (self : Column) (columns : list Column) : Z :=
  fold_left (fun acc col => size_add acc (col_nrows (materialize col)))
    columns (col_nrows self).

(** The number of rows [DataTable::rbind] computes. *)
Definition table_new_nrows (dt : DataTable) (dts : list DataTable) : Z :=
  fold_left (fun acc d => size_add acc (nrows_ d)) dts (nrows_ dt).

(** [final_names] and [cols] both have [n] entries. *)
Definition plan_sized (p : Plan) : Prop :=
  length (final_names p) = plan_n p /\ length (cols p) = plan_n p.

(** ** Reading the plan *)

(** [cols[k][i]]: the entry of final column [k] for frame [i]. *)
Definition cell (cs : list sztvec) (k i : nat) : option Z :=
  cs !! k ≫= (.!! i).

(** The entry the branch by position leaves for final column [k] of a
    frame [df] it has been through, and of a frame it has not. *)
Definition bypos_entry (k : nat) (df : option DataTable) : Z :=
  match df with
  | Some df => if decide (k < ncols_ df)%nat then Z.of_nat k
               else INVALID_INDEX
  | None => INVALID_INDEX
  end.

(** [j] is the last position of [l] that holds [name]. *)
Definition last_at (l : list string) (name : string) (j : nat) : Prop :=
  l !! j = Some name /\ forall j', (j < j')%nat -> l !! j' <> Some name.

(** [v] is the entry the branch by names leaves for a final column named
    [name] and a frame whose columns are named [l]: the last position of
    [name] in [l], or [INVALID_INDEX] when [l] has no such name. *)
Definition names_entry (l : list string) (name : string) (v : option Z)
  : Prop :=
  (forall j, last_at l name j -> v = Some (Z.of_nat j)) /\
  (name ∉ l -> v = Some INVALID_INDEX).

(** ** The sources of the object appender *)

(** The column the loop of the object appender copies from: the column
    itself when it is void, its cast to the object type otherwise. *)
Definition obj_prepared (col : Column) : Column :=
  if decide (col_stype col = VOID) then col else cast OBJ col.

(** The elements a column contributes to an object column: its objects,
    or one [None] per row of a void column. *)
Definition obj_values (c : Column) : list PyObj :=
  match c with
  | SentinelObj_ColumnImpl d => d
  | _ => replicate (Z.to_nat (col_nrows c)) Py_None
  end.

(** A column the loop can take: a void column, or a column whose cast
    to the object type is a buffer of objects or a column without
    data. *)
Definition obj_source (col : Column) : Prop :=
  if decide (col_stype col = VOID) then 0 <= col_nrows col
  else match cast OBJ col with
       | SentinelObj_ColumnImpl _ => True
       | ConstNa_ColumnImpl m _ => 0 <= m
       | _ => False
       end.

(** ** The arguments [process_arg] takes *)

(** An argument at nesting level [level] is a frame, or an iterable
    other than a string, at a level below two, of arguments it takes at
    the next level. *)
Fixpoint accepted (arg : robj) (level : nat) : bool :=
  match arg with
  | PyFrame _ => true
  | PyIter items =>
      bool_decide (level < 2)%nat
      && forallb (fun item => accepted item (S level)) items
  | _ => false
  end.

(** The exceptions [Frame::rbind] is left with when [force] is on. *)
Definition forced_error (e : Error) : Prop :=
  match e with
  | TypeError_not_frame _ | ValueError_keyed | TypeError_rbind _ _
  | Fault => True
  | ValueError_ncols _ _ | ValueError_not_found _ => False
  end.

(** ** Columns that need no cast *)

(** A column a fixed-width column of kind [k] takes as it is: a buffer
    of the same kind, or a void column. *)
Definition fw_like (k : FwKind) (c : Column) : Prop :=
  match c with
  | SentinelFw_ColumnImpl k' _ => k' = k
  | ConstNa_ColumnImpl n VOID => 0 <= n
  | _ => False
  end.

Definition is_fw (c : Column) : Prop :=
  match c with SentinelFw_ColumnImpl _ _ => True | _ => False end.

Definition void_col (c : Column) : Prop :=
  match c with ConstNa_ColumnImpl n VOID => 0 <= n | _ => False end.

(** ** What a final column is made of *)

(** The column [DataTable::rbind] takes from frame [dtj] for the entry
    [k] of [col_indices]: a void column of the frame's rows for
    [INVALID_INDEX], the frame's column [k] otherwise. *)
Definition picked (dtj : DataTable) (k : Z) (col : Column) : Prop :=
  if decide (k = INVALID_INDEX)
  then col = new_na_column (nrows_ dtj) VOID
  else columns_ dtj !! Z.to_nat k = Some col.

(** Column [i] of the target as [DataTable::rbind] starts from it: the
    column the target has, or a void column of the target's rows. *)
Definition old_column (dt : DataTable) (i : nat) : Column :=
  default (new_na_column (nrows_ dt) VOID) (columns_ dt !! i).

(** The column a frame gives to a final column called [name] when the
    columns are matched by names: its last column of that name, or a
    void column of its rows when it has none. *)
Definition named_column (name : string) (col : Column) (df : DataTable)
  : Prop :=
  (forall j, last_at (names_ df) name j -> columns_ df !! j = Some col) /\
  (name ∉ names_ df -> col = new_na_column (nrows_ df) VOID).

(** The column a frame gives to final column [k] when the columns are
    matched by position: its column [k], or a void column of its rows
    when it has fewer columns. *)
Definition placed_column (k : nat) (col : Column) (df : DataTable) : Prop :=
  if decide (k < ncols_ df)%nat then columns_ df !! k = Some col
  else col = new_na_column (nrows_ df) VOID.

(** ** Object columns that need no cast *)

(** A column an object column takes as it is: a buffer of objects, or
    a void column. *)
Definition obj_like (c : Column) : Prop :=
  match c with
  | SentinelObj_ColumnImpl _ => True
  | ConstNa_ColumnImpl n VOID => 0 <= n
  | _ => False
  end.

Definition is_obj (c : Column) : Prop :=
  match c with SentinelObj_ColumnImpl _ => True | _ => False end.

(** A cast to the object type leaves an object column as it is. *)
Definition cast_obj_same : Prop :=
  forall d, cast OBJ (SentinelObj_ColumnImpl d) = SentinelObj_ColumnImpl d.

(** ** Columns of the data model and their casts *)

(** A cast keeps the number of rows. *)
Definition cast_keeps_nrows : Prop :=
  forall s c, col_nrows (cast s c) = col_nrows c.

(** A column of the data model: its number of rows is one, and a string
    column is as [str_wf] says. *)
Definition col_ok (c : Column) : Prop :=
  0 <= col_nrows c /\
  match c with
  | SentinelStr_ColumnImpl w offs strbuf => str_wf w offs strbuf
  | _ => True
  end.

(** A cast of a string column of the data model to a string type returns
    a column of the data model that has no more string data. *)
Definition cast_str_ok : Prop :=
  forall w c,
    col_ok c -> col_ltype c = LT_STRING ->
    col_ok (cast (str_stype w) c) /\
    col_bytes (cast (str_stype w) c) <= col_bytes c.

(** The types that lead to a string type. *)
Definition str_or_void (s : SType) : Prop :=
  s = VOID \/ s = STR32 \/ s = STR64.

(** ** Frames that are the target itself *)

(** A frame of [dts] that is equal to the target may be the target
    itself.  The condition under which reading it as a value is reading
    it as the code does: its entry in row [i] of [col_indices] is
    [INVALID_INDEX] or a column of the target that is rebuilt no earlier
    than column [i]. *)
Definition reads_unbuilt (dt : DataTable) (dts : list DataTable)
    (col_indices : list sztvec) : Prop :=
  forall i row j k,
    col_indices !! i = Some row -> row !! j = Some k ->
    dts !! j = Some dt ->
    k = INVALID_INDEX \/ (i <= Z.to_nat k < ncols_ dt)%nat.

(** * Properties *)

(** ** Collecting the frames *)

Lemma robj_nested_ind (P : robj -> Prop) :
  (forall df, P (PyFrame df)) ->
  (forall items, Forall P items -> P (PyIter items)) ->
  (forall s, P (PyString s)) ->
  P PyOther ->
  forall arg, P arg.
Proof.
  intros Hf Hi Hs Ho. fix IH 1. intros [df|items|s|].
  - apply Hf.
  - apply Hi. induction items as [|x xs IHxs]; constructor.
    + apply IH.
    + apply IHxs.
  - apply Hs.
  - apply Ho.
Qed.

Lemma process_arg_frames arg :
  forall level dts j dts' j',
    process_arg arg level (dts, j) = Ok (dts', j') ->
    dts' = dts ++ filter has_rows (frames_of arg) /\
    j' = (j + length (frames_of arg))%nat.
Proof.
  induction arg as [df|items IH|s|] using robj_nested_ind;
    intros level dts j dts' j' H; simpl in H; try discriminate.
  - injection H as <- <-. simpl. split; [|lia].
    unfold filter, list_filter, has_rows at 1.
    destruct (decide (nrows_ df = 0)) as [E|E];
      destruct (decide (nrows_ df <> 0)); try contradiction; simpl.
    + now rewrite app_nil_r.
    + reflexivity.
  - destruct (decide (level < 2)%nat); [|discriminate].
    simpl. revert dts j H.
    induction IH as [|x xs Hx _ IHxs]; intros dts j H.
    + injection H as <- <-. simpl. rewrite app_nil_r. split; [done|lia].
    + destruct (process_arg x (S level) (dts, j)) as [[d1 j1]|] eqn:E;
        simpl in H; [|discriminate].
      apply Hx in E as [-> ->]. apply IHxs in H as [-> ->].
      rewrite filter_app, length_app, <- app_assoc. split; [done|lia].
Qed.

Lemma process_varargs_frames varargs :
  forall dts j dts' j',
    process_varargs varargs (dts, j) = Ok (dts', j') ->
    dts' = dts ++ filter has_rows (all_frames varargs) /\
    j' = (j + length (all_frames varargs))%nat.
Proof.
  unfold all_frames.
  induction varargs as [|a rest IH]; intros dts j dts' j' H; simpl in H.
  - injection H as <- <-. simpl. rewrite app_nil_r. split; [done|lia].
  - destruct (process_arg a 0 (dts, j)) as [[d1 j1]|] eqn:E;
      simpl in H; [|discriminate].
    apply process_arg_frames in E as [-> ->]. apply IH in H as [-> ->].
    simpl. rewrite filter_app, length_app, <- app_assoc. split; [done|lia].
Qed.

Lemma process_varargs_flat (frames : list DataTable) :
  forall dts j,
    Forall has_rows frames ->
    process_varargs (PyFrame <$> frames) (dts, j) =
      Ok (dts ++ frames, (j + length frames)%nat).
Proof.
  induction frames as [|df rest IH]; intros dts j Hall; simpl.
  - rewrite app_nil_r. do 2 f_equal. lia.
  - inversion Hall as [|? ? Hdf Hrest]; subst.
    destruct (decide (nrows_ df = 0)); [contradiction|].
    rewrite IH by assumption. rewrite <- app_assoc. simpl.
    do 2 f_equal. lia.
Qed.

(** [C8] Frames without rows are skipped: the frames that take part are
    the arguments' frames that have rows, in their order; the call does
    what the call on these frames alone does; and when no frame is left
    the call returns the target as it was, without an error. *)
Theorem zero_row_sources_skipped (dt : DataTable) (varargs : list robj)
    (force bynames : bool) (dts : list DataTable) (j : nat) :
  process_varargs varargs ([], 0%nat) = Ok (dts, j) ->
  dts = filter has_rows (all_frames varargs) /\
  Frame_rbind dt varargs force bynames =
    Frame_rbind dt (PyFrame <$> dts) force bynames /\
  (dts = [] -> Frame_rbind dt varargs force bynames = (dt, None)).
Proof.
  intros H. pose proof (process_varargs_frames _ _ _ _ _ H) as [Hd _].
  simpl in Hd. split; [exact Hd|]. split.
  - unfold Frame_rbind. rewrite H.
    rewrite (process_varargs_flat dts [] 0%nat).
    + reflexivity.
    + rewrite Hd. apply Forall_forall. intros x Hx.
      apply list_elem_of_filter in Hx. tauto.
  - intros ->. unfold Frame_rbind. now rewrite H.
Qed.

(** [C7], as amended.  On a target with a key column the call never
    changes the target; and when the arguments are frames or sequences of
    frames of which at least one has rows, it throws "Cannot rbind to a
    keyed frame", whatever the frames' columns and the options are. *)
Theorem keyed_target_rejected (dt : DataTable) (varargs : list robj)
    (force bynames : bool) :
  (0 < nkeys_ dt)%nat ->
  fst (Frame_rbind dt varargs force bynames) = dt /\
  forall dts j,
    process_varargs varargs ([], 0%nat) = Ok (dts, j) ->
    dts <> [] ->
    Frame_rbind dt varargs force bynames = (dt, Some ValueError_keyed).
Proof.
  intros Hk. unfold Frame_rbind.
  destruct (process_varargs varargs ([], 0%nat)) as [[dts j]|e]; simpl.
  - destruct dts as [|d ds]; simpl.
    + split; [done|]. intros ? ? [= <- <-]. congruence.
    + destruct (decide (0 < nkeys_ dt)%nat); [|lia]. split; [done|].
      intros ? ? _ _. reflexivity.
  - split; [done|]. intros ? ? [=].
Qed.

(** ** The planner *)

Lemma set_cell_shape ndts n cs r c v :
  cols_shape ndts n cs -> (r < n)%nat -> (c < ndts)%nat ->
  exists cs', set_cell cs r c v = Ok cs' /\ cols_shape ndts n cs'.
Proof.
  intros [Hlen Hrows] Hr Hc. unfold set_cell.
  destruct (cs !! r) as [row|] eqn:E.
  - assert (length row = ndts) as Hrow.
    { eapply (proj1 (Forall_lookup _ _) Hrows); eauto. }
    destruct (decide (c < length row)%nat); [|lia].
    eexists; split; [reflexivity|]. split.
    + now rewrite length_insert.
    + apply Forall_insert; [assumption|]. now rewrite length_insert.
  - apply lookup_ge_None in E. lia.
Qed.

Lemma empty_cols_shape n ndts : cols_shape ndts n (empty_cols n ndts).
Proof.
  split.
  - apply length_replicate.
  - apply Forall_replicate. apply length_replicate.
Qed.

Lemma index_names_spec names :
  forall i m x,
    (is_Some (index_names names i m !! x) <->
       x ∈ names \/ is_Some (m !! x)) /\
    (forall k, index_names names i m !! x = Some k ->
       (i <= k < i + length names)%nat \/ m !! x = Some k).
Proof.
  induction names as [|a rest IH]; intros i m x; simpl.
  - split; [|auto]. split; [auto|]. intros [H|H]; [|done].
    now apply elem_of_nil in H.
  - destruct (IH (S i) (<[a:=i]> m) x) as [IH1 IH2]. split.
    + rewrite IH1, elem_of_cons.
      destruct (decide (a = x)) as [->|Hne].
      * rewrite lookup_insert_eq. split; [auto|]. intros _. right. eauto.
      * rewrite lookup_insert_ne by done. split; intros [H|H]; auto.
        destruct H as [H|H]; [congruence|auto].
    + intros k Hk. apply IH2 in Hk as [Hk|Hk]; [left; lia|].
      destruct (decide (a = x)) as [->|Hne].
      * rewrite lookup_insert_eq in Hk. injection Hk as <-. left. lia.
      * rewrite lookup_insert_ne in Hk by done. now right.
Qed.

Lemma index_names_inv names cs :
  names_inv (mkPlan names cs (index_names names 0 ∅) (length names)).
Proof.
  split; [reflexivity|]. split; simpl.
  - intros name k Hk.
    apply (proj2 (index_names_spec names 0%nat ∅ name)) in Hk as [Hk|Hk].
    + lia.
    + now rewrite lookup_empty in Hk.
  - intros name.
    rewrite (proj1 (index_names_spec names 0%nat ∅ name)).
    rewrite lookup_empty. split; [auto|]. intros [H|H]; [done|].
    now destruct H.
Qed.

(** One name, [force] off: the name is known and only [cols] changes, or
    the name is unknown and the step throws. *)
Lemma bynames_name_noforce ndts i j name p :
  names_inv p -> cols_shape ndts (plan_n p) (cols p) -> (i < ndts)%nat ->
  match bynames_name false ndts i j name p with
  | Ok p' =>
      name ∈ final_names p /\ final_names p' = final_names p /\
      inames p' = inames p /\ plan_n p' = plan_n p /\
      cols_shape ndts (plan_n p) (cols p')
  | Err e => e = ValueError_not_found name /\ name ∉ final_names p
  end.
Proof.
  intros (Hlen & Hrange & Hdom) Hshape Hi. unfold bynames_name.
  destruct (decide (j < plan_n p)%nat) as [Hj|Hj]; simpl.
  - unfold at_. destruct (final_names p !! j) as [f|] eqn:Ef; simpl.
    2:{ apply lookup_ge_None in Ef. lia. }
    case_bool_decide as Hname.
    + subst f.
      destruct (set_cell_shape ndts _ _ j i (Z.of_nat j) Hshape Hj Hi)
        as (cs' & -> & Hs'). simpl.
      split_and!; try done. eapply list_elem_of_lookup_2; eauto.
    + destruct (inames p !! name) as [k|] eqn:Ek.
      * destruct (set_cell_shape ndts _ _ k i (Z.of_nat j) Hshape
                    (Hrange _ _ Ek) Hi) as (cs' & -> & Hs'). simpl.
        split_and!; try done. apply Hdom. eauto.
      * split; [done|]. intros Hin. apply Hdom in Hin.
        rewrite Ek in Hin. now destruct Hin.
  - destruct (inames p !! name) as [k|] eqn:Ek.
    + destruct (set_cell_shape ndts _ _ k i (Z.of_nat j) Hshape
                  (Hrange _ _ Ek) Hi) as (cs' & -> & Hs'). simpl.
      split_and!; try done. apply Hdom. eauto.
    + split; [done|]. intros Hin. apply Hdom in Hin.
      rewrite Ek in Hin. now destruct Hin.
Qed.

Lemma names_inv_cols p p' :
  names_inv p -> final_names p' = final_names p ->
  inames p' = inames p -> plan_n p' = plan_n p -> names_inv p'.
Proof. unfold names_inv. intros H -> -> ->. exact H. Qed.

Lemma bynames_names_noforce ndts i dfnames :
  forall j p,
    names_inv p -> cols_shape ndts (plan_n p) (cols p) -> (i < ndts)%nat ->
    match bynames_names false ndts i dfnames j p with
    | Ok p' =>
        (forall name, name ∈ dfnames -> name ∈ final_names p) /\
        final_names p' = final_names p /\
        inames p' = inames p /\ plan_n p' = plan_n p /\
        cols_shape ndts (plan_n p) (cols p')
    | Err e =>
        exists name, name ∈ dfnames /\ (name ∉ final_names p) /\
                     e = ValueError_not_found name
    end.
Proof.
  induction dfnames as [|name rest IH]; intros j p Hinv Hshape Hi; simpl.
  - split_and!; try done. intros name H. now apply elem_of_nil in H.
  - pose proof (bynames_name_noforce ndts i j name p Hinv Hshape Hi) as H1.
    destruct (bynames_name false ndts i j name p) as [p1|e]; simpl.
    + destruct H1 as (Hin & Hf & Hm & Hn & Hs).
      assert (names_inv p1) as Hinv1 by (eapply names_inv_cols; eauto).
      rewrite <- Hn in Hs.
      pose proof (IH (S j) p1 Hinv1 Hs Hi) as H2.
      destruct (bynames_names false ndts i rest (S j) p1) as [p2|e].
      * destruct H2 as (Hall & Hf2 & Hm2 & Hn2 & Hs2).
        split_and!; try congruence.
        intros x Hx. apply elem_of_cons in Hx as [->|Hx]; [done|].
        rewrite <- Hf. now apply Hall.
      * destruct H2 as (x & Hx & Hnx & ->). exists x.
        rewrite <- Hf. split_and!; try done. now apply elem_of_cons; right.
    + destruct H1 as (-> & Hnot). exists name.
      split_and!; try done. apply elem_of_cons; now left.
Qed.

Lemma bynames_frames_noforce ndts dts :
  forall i p,
    names_inv p -> cols_shape ndts (plan_n p) (cols p) ->
    (i + length dts <= ndts)%nat ->
    match bynames_frames false ndts dts i p with
    | Ok p' =>
        Forall (fun df => ncols_ df = plan_n p /\
                          forall name, name ∈ names_ df ->
                                       name ∈ final_names p) dts /\
        final_names p' = final_names p /\ plan_n p' = plan_n p
    | Err e => schema_error (plan_n p) (final_names p) dts e
    end.
Proof.
  induction dts as [|df rest IH]; intros i p Hinv Hshape Hi; simpl.
  - split_and!; done.
  - simpl in Hi. unfold _check_ncols.
    destruct (decide (plan_n p = ncols_ df)) as [En|En]; simpl.
    2:{ left. exists df.
        split_and!; [apply elem_of_cons; now left|congruence|done]. }
    assert (i < ndts)%nat as Hi' by lia.
    pose proof (bynames_names_noforce ndts i (names_ df) 0%nat p
                  Hinv Hshape Hi') as H1.
    destruct (bynames_names false ndts i (names_ df) 0 p) as [p1|e]; simpl.
    + destruct H1 as (Hall & Hf & Hm & Hn & Hs).
      assert (names_inv p1) as Hinv1 by (eapply names_inv_cols; eauto).
      rewrite <- Hn in Hs.
      assert (S i + length rest <= ndts)%nat as Hi2 by lia.
      pose proof (IH (S i) p1 Hinv1 Hs Hi2) as H2.
      destruct (bynames_frames false ndts rest (S i) p1) as [p2|e].
      * destruct H2 as (Hrest & Hf2 & Hn2).
        split_and!; try congruence.
        constructor; [split; [congruence|done]|].
        rewrite <- Hf, <- Hn. exact Hrest.
      * rewrite Hn, Hf in H2.
        destruct H2 as [(d & Hd & Hne & ->)|(d & x & Hd & Hx & Hnx & ->)].
        -- left. exists d. split_and!; try done.
           apply elem_of_cons; now right.
        -- right. exists d, x. split_and!; try done.
           apply elem_of_cons; now right.
    + destruct H1 as (x & Hx & Hnx & ->). right. exists df, x.
      split_and!; try done. apply elem_of_cons; now left.
Qed.

Lemma bypos_fill_shape ndts n i count :
  forall j cs,
    cols_shape ndts n cs -> (i < ndts)%nat -> (j + count <= n)%nat ->
    exists cs', bypos_fill i count j cs = Ok cs' /\ cols_shape ndts n cs'.
Proof.
  induction count as [|count IH]; intros j cs Hshape Hi Hj; simpl.
  - eauto.
  - destruct (set_cell_shape ndts n cs j i (Z.of_nat j) Hshape)
      as (cs1 & -> & Hs1); [lia|lia|]. simpl.
    apply IH; [assumption|lia|lia].
Qed.

Lemma bypos_frames_noforce ndts dts :
  forall i p,
    cols_shape ndts (plan_n p) (cols p) ->
    (i + length dts <= ndts)%nat ->
    match bypos_frames false ndts dts i p with
    | Ok p' =>
        Forall (fun df => ncols_ df = plan_n p) dts /\
        final_names p' = final_names p /\ plan_n p' = plan_n p
    | Err e =>
        exists df, df ∈ dts /\ ncols_ df <> plan_n p /\
                   e = ValueError_ncols (plan_n p) (ncols_ df)
    end.
Proof.
  induction dts as [|df rest IH]; intros i p Hshape Hi; simpl.
  - split_and!; done.
  - simpl in Hi. unfold _check_ncols.
    destruct (decide (plan_n p = ncols_ df)) as [En|En]; simpl.
    2:{ exists df.
        split_and!; [apply elem_of_cons; now left|congruence|done]. }
    destruct (bypos_fill_shape ndts (plan_n p) i (ncols_ df) 0%nat (cols p)
                Hshape) as (cs & -> & Hs); [lia|lia|]. simpl.
    pose proof (IH (S i) (mkPlan (final_names p) cs (inames p) (plan_n p)) Hs)
      as H2. simpl in H2.
    destruct (bypos_frames false ndts rest (S i) _) as [p2|e].
    + destruct H2 as (Hrest & Hf2 & Hn2); [lia|].
      split_and!; try done. constructor; [congruence|done].
    + destruct H2 as (d & Hd & Hne & ->); [lia|]. exists d.
      split_and!; try done. apply elem_of_cons; now right.
Qed.

Lemma seed_names_length dt dts :
  length (names_ dt) = ncols_ dt ->
  snd (seed_names dt dts) = length (fst (seed_names dt dts)).
Proof.
  intros H. unfold seed_names.
  destruct (decide (ncols_ dt = 0%nat)); [destruct dts|]; simpl; congruence.
Qed.

(** With [force] off the planner returns a plan only when every frame has
    the schema's number of columns, and, by names, only names of the
    schema; otherwise it throws one of the two schema errors. *)
Lemma plan_columns_noforce dt dts bynames :
  length (names_ dt) = ncols_ dt ->
  match plan_columns dt dts false bynames with
  | Ok p =>
      Forall (fun df =>
                ncols_ df = snd (seed_names dt dts) /\
                (bynames = true ->
                 forall name, name ∈ names_ df ->
                              name ∈ fst (seed_names dt dts))) dts /\
      final_names p = fst (seed_names dt dts) /\
      plan_n p = snd (seed_names dt dts)
  | Err e =>
      schema_error (snd (seed_names dt dts)) (fst (seed_names dt dts)) dts e
      /\ (bynames = false -> exists n1,
            e = ValueError_ncols (snd (seed_names dt dts)) n1)
  end.
Proof.
  intros Hwf. pose proof (seed_names_length dt dts Hwf) as Hlen.
  unfold plan_columns. destruct (seed_names dt dts) as [fnames n0].
  simpl in *. subst n0. destruct bynames.
  - pose proof (bynames_frames_noforce (length dts) dts 0%nat
      (mkPlan fnames (empty_cols (length fnames) (length dts))
              (index_names fnames 0 ∅) (length fnames))
      (index_names_inv _ _) (empty_cols_shape _ _)) as H.
    simpl in H. specialize (H (le_n _)).
    destruct (bynames_frames false _ _ _ _) as [p|e].
    + destruct H as (Hall & Hf & Hn). split_and!; try done.
      eapply Forall_impl; [exact Hall|]. simpl. intros df [? ?]. auto.
    + split; [exact H|discriminate].
  - pose proof (bypos_frames_noforce (length dts) dts 0%nat
      (mkPlan fnames (empty_cols (length fnames) (length dts))
              ∅ (length fnames)) (empty_cols_shape _ _)) as H.
    simpl in H. specialize (H (le_n _)).
    destruct (bypos_frames false _ _ _ _) as [p|e].
    + destruct H as (Hall & Hf & Hn). split_and!; try done.
      eapply Forall_impl; [exact Hall|]. simpl. intros df ?.
      split; [done|discriminate].
    + destruct H as (df & Hin & Hne & ->). split; [|eauto].
      left. exists df. auto.
Qed.

(** [C6] With [force] off, a target without keys whose name list matches
    its columns, and at least one frame with rows that has another number
    of columns than the schema or, by names, a column whose name is not in
    the schema: the call throws the column-count error or the
    column-not-found error (by position always the former), naming a frame
    or column that is at fault, and returns the target as it was. *)
Theorem schema_errors_leave_target (dt : DataTable) (varargs : list robj)
    (bynames : bool) (dts : list DataTable) (j : nat) :
  process_varargs varargs ([], 0%nat) = Ok (dts, j) ->
  nkeys_ dt = 0%nat ->
  length (names_ dt) = ncols_ dt ->
  (exists df, df ∈ dts /\ ncols_ df <> snd (seed_names dt dts)) \/
  (bynames = true /\
   exists df name, df ∈ dts /\ name ∈ names_ df /\
                   name ∉ fst (seed_names dt dts)) ->
  exists e,
    Frame_rbind dt varargs false bynames = (dt, Some e) /\
    schema_error (snd (seed_names dt dts)) (fst (seed_names dt dts)) dts e /\
    (bynames = false ->
     exists n1, e = ValueError_ncols (snd (seed_names dt dts)) n1).
Proof.
  intros Hargs Hkeys Hwf Hbad. unfold Frame_rbind. rewrite Hargs.
  destruct dts as [|d0 rest].
  { destruct Hbad as [(df & Hin & _)|(_ & df & ? & Hin & _)];
      now apply elem_of_nil in Hin. }
  destruct (decide (0 < nkeys_ dt)%nat); [lia|].
  pose proof (plan_columns_noforce dt (d0 :: rest) bynames Hwf) as H.
  destruct (plan_columns dt (d0 :: rest) false bynames) as [p|e].
  - exfalso. destruct H as (Hall & _ & _).
    rewrite Forall_forall in Hall.
    destruct Hbad as [(df & Hin & Hne)|(Hb & df & name & Hin & Hname & Hnot)].
    + apply Hall in Hin as [? _]. contradiction.
    + apply Hall in Hin as [_ Hin]. apply Hnot. now apply Hin.
  - exists e. destruct H as [H1 H2]. auto.
Qed.

(** [C10] A target without columns takes its schema from the first frame
    that has rows.  With [force] off and that frame's name list matching
    its columns, in both modes: the schema is that frame's names and
    column count; the plan for that frame alone is made without an
    exception; and a column-count error, if one is thrown, reports the
    first frame's count as the expected one and is caused by a later
    frame. *)
Theorem zero_column_target_seeded (dt df0 : DataTable) (bynames : bool) :
  ncols_ dt = 0%nat ->
  length (names_ df0) = ncols_ df0 ->
  (forall rest, seed_names dt (df0 :: rest) = (names_ df0, ncols_ df0)) /\
  (exists p, plan_columns dt [df0] false bynames = Ok p /\
             final_names p = names_ df0 /\ plan_n p = ncols_ df0) /\
  (forall rest n0 n1,
     plan_columns dt (df0 :: rest) false bynames
       = Err (ValueError_ncols n0 n1) ->
     n0 = ncols_ df0 /\ n1 <> n0 /\
     exists df, df ∈ rest /\ ncols_ df = n1).
Proof.
  intros Hz Hwf0.
  assert (forall rest,
            seed_names dt (df0 :: rest) = (names_ df0, ncols_ df0)) as Hseed.
  { intros rest. unfold seed_names.
    destruct (decide (ncols_ dt = 0%nat)); [|contradiction].
    now rewrite Hwf0. }
  assert (forall dts b,
    match plan_columns dt (df0 :: dts) false b with
    | Ok p => final_names p = names_ df0 /\ plan_n p = ncols_ df0
    | Err e => schema_error (ncols_ df0) (names_ df0) (df0 :: dts) e
    end) as Hplan.
  { intros dts b. unfold plan_columns. rewrite Hseed. rewrite <- Hwf0.
    destruct b.
    - pose proof (bynames_frames_noforce (length (df0 :: dts)) (df0 :: dts)
        0%nat
        (mkPlan (names_ df0)
           (empty_cols (length (names_ df0)) (length (df0 :: dts)))
           (index_names (names_ df0) 0 ∅) (length (names_ df0)))
        (index_names_inv _ _) (empty_cols_shape _ _) (le_n _)) as H.
      simpl plan_n in H. simpl final_names in H.
      destruct (bynames_frames false _ _ _ _) as [p|e]; [|exact H].
      tauto.
    - pose proof (bypos_frames_noforce (length (df0 :: dts)) (df0 :: dts)
        0%nat
        (mkPlan (names_ df0)
           (empty_cols (length (names_ df0)) (length (df0 :: dts)))
           ∅ (length (names_ df0))) (empty_cols_shape _ _) (le_n _)) as H.
      simpl plan_n in H. simpl final_names in H.
      destruct (bypos_frames false _ _ _ _) as [p|e]; [tauto|].
      destruct H as (df & Hin & Hne & ->). left. exists df. auto. }
  split; [exact Hseed|]. split.
  - specialize (Hplan [] bynames).
    destruct (plan_columns dt [df0] false bynames) as [p|e]; [eauto|].
    exfalso.
    destruct Hplan as [(df & Hin & Hne & _)|(df & x & Hin & Hx & Hnx & _)];
      apply list_elem_of_singleton in Hin; subst df; contradiction.
  - intros rest n0 n1 Herr. specialize (Hplan rest bynames).
    rewrite Herr in Hplan.
    destruct Hplan as [(df & Hin & Hne & He)|(df & x & _ & _ & _ & He)];
      [|discriminate].
    injection He as -> ->. split; [done|]. split; [done|].
    exists df. split; [|done].
    apply elem_of_cons in Hin as [->|Hin]; [contradiction|done].
Qed.

(** *** The same-position shortcut *)

Lemma index_names_lookup names :
  forall i m x k,
    NoDup names ->
    index_names names i m !! x = Some k <->
    (exists pos, names !! pos = Some x /\ k = (i + pos)%nat) \/
    ((x ∉ names) /\ m !! x = Some k).
Proof.
  induction names as [|a rest IH]; intros i m x k Hnd; simpl.
  - split.
    + intros H. right. split; [apply not_elem_of_nil|done].
    + intros [(pos & H & _)|[_ H]]; [discriminate|done].
  - apply NoDup_cons in Hnd as [Ha Hnd]. rewrite (IH _ _ _ _ Hnd).
    destruct (decide (a = x)) as [->|Hne].
    + rewrite lookup_insert_eq. split.
      * intros [(pos & H & _)|[_ [= <-]]].
        -- exfalso. apply Ha. eapply list_elem_of_lookup_2; eauto.
        -- left. exists 0%nat. split; [done|lia].
      * intros [(pos & H & ->)|[H _]].
        -- destruct pos as [|pos]; simpl in H.
           ++ right. split; [done|]. f_equal. lia.
           ++ exfalso. apply Ha. eapply list_elem_of_lookup_2; eauto.
        -- exfalso. apply H. apply elem_of_cons. now left.
    + rewrite lookup_insert_ne by done. split.
      * intros [(pos & H & ->)|[Hx H]].
        -- left. exists (S pos). split; [done|lia].
        -- right. split; [|done]. intros Hin.
           apply elem_of_cons in Hin as [->|Hin]; [congruence|contradiction].
      * intros [(pos & H & ->)|[Hx H]].
        -- destruct pos as [|pos]; simpl in H; [congruence|].
           left. exists pos. split; [done|lia].
        -- right. split; [|done]. intros Hin. apply Hx.
           apply elem_of_cons. now right.
Qed.

Lemma index_names_bij names cs :
  NoDup names ->
  names_bij (mkPlan names cs (index_names names 0 ∅) (length names)).
Proof.
  intros Hnd. split; [reflexivity|]. simpl. intros name k.
  rewrite (index_names_lookup names 0%nat ∅ name k Hnd). split.
  - intros [(pos & H & ->)|[_ H]]; [done|]. now rewrite lookup_empty in H.
  - intros H. left. eauto.
Qed.

(** Where the shortcut applies, the lookup finds the same position. *)
Lemma bynames_name_lookup force ndts i j name p :
  names_bij p ->
  bynames_name force ndts i j name p = lookup_name force ndts i j name p.
Proof.
  intros [Hlen Hbij]. unfold bynames_name, lookup_name.
  destruct (decide (j < plan_n p)%nat) as [Hj|Hj]; simpl; [|reflexivity].
  unfold at_. destruct (final_names p !! j) as [f|] eqn:Ef; simpl.
  - case_bool_decide as Hname; [|reflexivity]. subst f.
    apply Hbij in Ef. now rewrite Ef.
  - apply lookup_ge_None in Ef. lia.
Qed.

Lemma lookup_name_bij force ndts i j name p p' :
  names_bij p -> lookup_name force ndts i j name p = Ok p' -> names_bij p'.
Proof.
  intros [Hlen Hbij] H. unfold lookup_name in H.
  destruct (inames p !! name) as [k|] eqn:Ek.
  - destruct (set_cell (cols p) k i (Z.of_nat j)); [|discriminate].
    injection H as <-. split; assumption.
  - destruct force; [|discriminate].
    destruct (set_cell _ _ _ _); [|discriminate].
    injection H as <-. split; simpl.
    + rewrite length_app. simpl. lia.
    + intros x k. destruct (decide (name = x)) as [->|Hne].
      * rewrite lookup_insert_eq. split.
        -- intros [= <-]. rewrite lookup_app_r by lia.
           now replace (plan_n p - length (final_names p))%nat with 0%nat
             by lia.
        -- intros H. f_equal.
           destruct (decide (k < length (final_names p))%nat) as [Hk|Hk].
           ++ rewrite lookup_app_l in H by done. apply Hbij in H. congruence.
           ++ apply lookup_lt_Some in H. rewrite length_app in H.
              simpl in H. lia.
      * rewrite lookup_insert_ne by done. rewrite Hbij. split.
        -- intros H. rewrite lookup_app_l; [done|].
           now apply lookup_lt_Some in H.
        -- intros H.
           destruct (decide (k < length (final_names p))%nat) as [Hk|Hk].
           ++ now rewrite lookup_app_l in H.
           ++ rewrite lookup_app_r in H by lia.
              destruct (k - length (final_names p))%nat; simpl in H;
                [congruence|discriminate].
Qed.

Lemma bynames_names_lookup force ndts i dfnames :
  forall j p,
    names_bij p ->
    bynames_names force ndts i dfnames j p
      = lookup_names force ndts i dfnames j p /\
    forall p', lookup_names force ndts i dfnames j p = Ok p' ->
               names_bij p' /\
               (force = false -> plan_n p' = plan_n p).
Proof.
  induction dfnames as [|name rest IH]; intros j p Hbij; simpl.
  - split; [reflexivity|]. intros p' [= <-]. auto.
  - rewrite (bynames_name_lookup _ _ _ _ _ _ Hbij).
    destruct (lookup_name force ndts i j name p) as [p1|e] eqn:E; simpl.
    + pose proof (lookup_name_bij _ _ _ _ _ _ _ Hbij E) as Hbij1.
      destruct (IH (S j) p1 Hbij1) as [-> Hrest]. split; [reflexivity|].
      intros p' Hp'. apply Hrest in Hp' as [? Hn]. split; [done|].
      intros ->. rewrite Hn by done. unfold lookup_name in E.
      destruct (inames p !! name); [|discriminate].
      destruct (set_cell _ _ _ _); [|discriminate]. now injection E as <-.
    + split; [reflexivity|]. intros ? [=].
Qed.

Lemma bynames_frames_lookup force ndts dts :
  forall i p,
    names_bij p ->
    bynames_frames force ndts dts i p = lookup_frames force ndts dts i p.
Proof.
  induction dts as [|df rest IH]; intros i p Hbij; simpl; [reflexivity|].
  destruct (if force then Ok () else _check_ncols (plan_n p) (ncols_ df));
    simpl; [|reflexivity].
  destruct (bynames_names_lookup force ndts i (names_ df) 0%nat p Hbij)
    as [-> Hp'].
  destruct (lookup_names force ndts i (names_ df) 0 p) as [p1|e]; simpl;
    [|reflexivity].
  apply IH. now apply Hp'.
Qed.

(** [C9] By names, for a schema without repeated names whose name list
    matches the target's columns: the planner with the same-position test
    and the planner that looks every name up return the same result, that
    is the same names, the same matrix, the same map and count, or the
    same exception. *)
Theorem same_position_shortcut_invisible (dt : DataTable)
    (dts : list DataTable) (force : bool) :
  length (names_ dt) = ncols_ dt ->
  NoDup (fst (seed_names dt dts)) ->
  plan_columns dt dts force true = plan_columns_lookup dt dts force.
Proof.
  intros Hwf Hnd. pose proof (seed_names_length dt dts Hwf) as Hlen.
  unfold plan_columns, plan_columns_lookup.
  destruct (seed_names dt dts) as [fnames n0]. simpl in *. subst n0.
  apply bynames_frames_lookup. now apply index_names_bij.
Qed.

(** ** Errors of the appenders *)

Lemma bind_Ok {A B} (m : res A) (k : A -> res B) (b : B) :
  bind m k = Ok b -> exists a, m = Ok a /\ k a = Ok b.
Proof. destruct m as [a|e]; simpl; [eauto|discriminate]. Qed.

Lemma only_fault_Ok {A} (a : A) : only_fault (Ok a).
Proof. intros e H. discriminate. Qed.

Lemma only_fault_Fault {A} : only_fault (@Err A Fault).
Proof. intros e H. now injection H as <-. Qed.

Lemma only_fault_bind {A B} (m : res A) (k : A -> res B) :
  only_fault m -> (forall a, only_fault (k a)) -> only_fault (bind m k).
Proof.
  intros Hm Hk e H. destruct m as [a|e']; simpl in H.
  - eapply Hk; eauto.
  - apply Hm. congruence.
Qed.

Lemma only_fault_write_at {A} pos (vals buf : list A) :
  only_fault (write_at pos vals buf).
Proof.
  unfold write_at. destruct (decide _);
    [apply only_fault_Ok|apply only_fault_Fault].
Qed.

Lemma only_fault_at {A} (v : list A) i : only_fault (at_ v i).
Proof.
  unfold at_. destruct (v !! i);
    [apply only_fault_Ok|apply only_fault_Fault].
Qed.

Lemma only_fault_set_nrows {A} (buf : list A) n :
  only_fault (set_nrows buf n).
Proof.
  unfold set_nrows. destruct (decide _);
    [apply only_fault_Ok|apply only_fault_Fault].
Qed.

Ltac only_fault_step :=
  first
    [ assumption
    | apply only_fault_Ok
    | apply only_fault_Fault
    | apply only_fault_write_at
    | apply only_fault_at
    | apply only_fault_set_nrows
    | apply only_fault_bind; [|intros ?]
    | match goal with
      | |- only_fault (match ?x with _ => _ end) => destruct x
      end ].

Ltac only_fault_tac := repeat only_fault_step.

Lemma only_fault_fw_flush k s : only_fault (fw_flush k s).
Proof. unfold fw_flush. only_fault_tac. Qed.

Lemma only_fault_fw_loop k columns :
  forall s, only_fault (fw_loop k columns s).
Proof.
  induction columns as [|col rest IH]; intros s; cbn [fw_loop].
  - only_fault_tac.
  - destruct (decide (col_stype col = VOID)).
    + apply only_fault_bind; [apply IH|]. intros [? ?]. only_fault_tac.
    + apply only_fault_bind; [apply only_fault_fw_flush|]. intros s1.
      cbn zeta.
      apply only_fault_bind; [unfold fw_data; only_fault_tac|]. intros s2.
      apply only_fault_bind; [apply IH|]. intros [? ?]. only_fault_tac.
Qed.

Lemma only_fault_obj_copy col count :
  forall i dest buf, only_fault (obj_copy col count i dest buf).
Proof.
  induction count as [|count IH]; intros i dest buf; simpl.
  - only_fault_tac.
  - apply only_fault_bind; [unfold obj_element; only_fault_tac|]. intros x.
    apply only_fault_bind; [only_fault_tac|]. intros b. apply IH.
Qed.

Lemma only_fault_obj_loop columns :
  forall dest buf, only_fault (obj_loop columns dest buf).
Proof.
  induction columns as [|col rest IH]; intros dest buf; simpl.
  - only_fault_tac.
  - destruct (decide (col_stype col = VOID)).
    + apply only_fault_bind; [apply IH|]. intros [? ?]. only_fault_tac.
    + apply only_fault_bind; [apply only_fault_obj_copy|]. intros [? ?].
      apply only_fault_bind; [apply IH|]. intros [? ?]. only_fault_tac.
Qed.

Lemma only_fault_str_sizes w columns :
  forall sz, only_fault (str_sizes w columns sz).
Proof.
  induction columns as [|col rest IH]; intros sz; simpl.
  - only_fault_tac.
  - destruct (decide (col_stype col = VOID)).
    + apply only_fault_bind; [apply IH|]. intros [? ?]. only_fault_tac.
    + apply only_fault_bind; [unfold str_data_size; only_fault_tac|].
      intros n0.
      apply only_fault_bind; [apply IH|]. intros [? ?]. only_fault_tac.
Qed.

Lemma only_fault_str_flush w s : only_fault (str_flush w s).
Proof. unfold str_flush. only_fault_tac. Qed.

Lemma only_fault_str_loop w columns :
  forall s, only_fault (str_loop w columns s).
Proof.
  induction columns as [|col rest IH]; intros s; simpl.
  - only_fault_tac.
  - destruct (decide (col_stype col = VOID)); [apply IH|].
    apply only_fault_bind; [apply only_fault_str_flush|]. intros s1.
    destruct col; try apply only_fault_Fault.
    apply only_fault_bind; [only_fault_tac|]. intros ob.
    apply only_fault_bind; [only_fault_tac|]. intros s2. apply IH.
Qed.

Lemma only_fault_rbind_impl self columns new_nrows col_empty new_stype :
  only_fault (rbind_impl self columns new_nrows col_empty new_stype).
Proof.
  destruct self as [n s|k d|w o sb|d]; simpl.
  - unfold ConstNa_rbind_impl. only_fault_tac.
  - unfold SentinelFw_rbind_impl. cbn zeta.
    apply only_fault_bind; [apply only_fault_set_nrows|]. intros _.
    apply only_fault_bind; [apply only_fault_fw_loop|]. intros [? ?].
    apply only_fault_bind; [apply only_fault_fw_flush|]. intros ?.
    only_fault_tac.
  - unfold SentinelStr_rbind_impl.
    apply only_fault_bind; [apply only_fault_str_sizes|]. intros [? ?].
    cbn zeta. destruct (_ && _); [only_fault_tac|].
    apply only_fault_bind; [apply only_fault_set_nrows|]. intros _.
    apply only_fault_bind; [only_fault_tac|]. intros _.
    apply only_fault_bind; [only_fault_tac|]. intros ?.
    apply only_fault_bind; [apply only_fault_str_loop|]. intros ?.
    apply only_fault_bind; [apply only_fault_str_flush|]. intros ?.
    only_fault_tac.
  - unfold SentinelObj_rbind_impl. cbn zeta.
    apply only_fault_bind; [apply only_fault_set_nrows|]. intros _.
    apply only_fault_bind; [apply only_fault_obj_loop|]. intros [? [? ?]].
    only_fault_tac.
Qed.

(** ** The result type *)

Lemma col_stype_materialize c : col_stype (materialize c) = col_stype c.
Proof. destruct c as [n []| | |]; reflexivity. Qed.

Lemma materialize_str c w :
  col_stype c = str_stype w ->
  exists offs sb, materialize c = SentinelStr_ColumnImpl w offs sb.
Proof.
  destruct c as [n s|k d|w' o sb|d]; simpl; intros H.
  - subst s. destruct w; simpl; eauto.
  - destruct k, w; discriminate.
  - destruct w, w'; try discriminate; eauto.
  - destruct w; discriminate.
Qed.

(** The loop over the types is the fold [common_type_of]. *)
Lemma rbind_types_common columns :
  forall new_nrows new_type,
    match common_type_of new_type (col_stype <$> columns) with
    | inl t =>
        exists n, rbind_types columns new_nrows new_type
                    = Ok (materialize <$> columns, (n, t))
    | inr (col_type, acc_type) =>
        rbind_types columns new_nrows new_type
          = Err (TypeError_rbind col_type acc_type)
    end.
Proof.
  induction columns as [|col rest IH]; intros n t.
  - simpl. eauto.
  - rewrite !fmap_cons. cbn [common_type_of rbind_types].
    rewrite col_stype_materialize.
    destruct (common t (col_stype col)) as [next|]; [|reflexivity].
    specialize (IH (size_add n (col_nrows (materialize col))) next).
    destruct (common_type_of next (col_stype <$> rest)) as [t'|[ct at_]].
    + destruct IH as [n' ->]. cbn [bind]. eauto.
    + now rewrite IH.
Qed.

(** An appender keeps the column's type; it changes [new_stype] only in
    the 32-bit string appender, which then leaves the column as it was
    and asks for [STR64]. *)
Lemma rbind_impl_stype self columns new_nrows col_empty new_stype a :
  rbind_impl self columns new_nrows col_empty new_stype = Ok a ->
  col_stype (app_self a) = col_stype self /\
  (app_new_stype a = new_stype \/
   col_stype self = STR32 /\ app_self a = self /\ app_new_stype a = STR64).
Proof.
  destruct self as [n s|k d|w o sb|d]; simpl; intros H.
  - injection H as <-. simpl. auto.
  - unfold SentinelFw_rbind_impl in H. cbn zeta in H.
    apply bind_Ok in H as (u & _ & H).
    apply bind_Ok in H as ([cs s1] & _ & H).
    apply bind_Ok in H as (s2 & _ & H). injection H as <-. simpl. auto.
  - unfold SentinelStr_rbind_impl in H.
    apply bind_Ok in H as ([cs sz] & _ & H). cbn zeta in H.
    destruct (bool_decide (w = W32) && _) eqn:E.
    + injection H as <-. simpl. split; [done|]. right.
      apply andb_true_iff in E as [E _]. apply bool_decide_eq_true in E.
      subst w. auto.
    + apply bind_Ok in H as (u & _ & H).
      apply bind_Ok in H as (u' & _ & H).
      apply bind_Ok in H as (s0 & _ & H).
      apply bind_Ok in H as (s1 & _ & H).
      apply bind_Ok in H as (s2 & _ & H). injection H as <-. simpl. auto.
  - unfold SentinelObj_rbind_impl in H. cbn zeta in H.
    apply bind_Ok in H as (u & _ & H).
    apply bind_Ok in H as ([cs [dst buf]] & _ & H).
    injection H as <-. simpl. auto.
Qed.

Lemma rbind_newcol_stype self new_stype :
  cast_keeps_stype -> col_stype (rbind_newcol self new_stype) = new_stype.
Proof.
  intros Hcast. unfold rbind_newcol. rewrite col_stype_materialize.
  case_bool_decide; [reflexivity|]. destruct (decide _); [done|apply Hcast].
Qed.

(** ** The row count of the table *)

Lemma sum_nrows_filter frames :
  sum_nrows (filter has_rows frames) = sum_nrows frames.
Proof.
  unfold sum_nrows. induction frames as [|d rest IH]; [reflexivity|].
  rewrite filter_cons. destruct (decide (has_rows d)) as [H|H];
    rewrite !fmap_cons; cbn [foldr].
  - now rewrite IH.
  - rewrite IH. unfold has_rows in H.
    destruct (decide (nrows_ d = 0)); [lia|contradiction].
Qed.

Lemma DataTable_rbind_nrows dt dts col_indices dt' :
  DataTable_rbind dt dts col_indices = (dt', None) ->
  nrows_ dt' = fold_left (fun acc d => size_add acc (nrows_ d)) dts (nrows_ dt)
  /\ ncols_ dt' = length col_indices.
Proof.
  unfold DataTable_rbind.
  destruct (rbind_each dts col_indices 0 _) as [cs [e|]]; intros H;
    [discriminate|].
  injection H as <-. simpl. auto.
Qed.

Lemma fold_size_add_mod dts :
  forall acc,
    0 <= acc < 2 ^ 64 ->
    fold_left (fun acc d => size_add acc (nrows_ d)) dts acc
      = (acc + sum_nrows dts) mod 2 ^ 64.
Proof.
  unfold sum_nrows.
  induction dts as [|d rest IH]; intros acc Hacc.
  - simpl. rewrite Z.add_0_r. symmetry. now apply Z.mod_small.
  - rewrite fmap_cons. cbn [foldr fold_left].
    rewrite IH by (unfold size_add, wrap64; apply Z.mod_pos_bound; lia).
    unfold size_add, wrap64. rewrite Zplus_mod_idemp_l.
    f_equal. lia.
Qed.

Lemma sum_nrows_nonneg dts :
  Forall (fun d => 0 <= nrows_ d) dts -> 0 <= sum_nrows dts.
Proof.
  unfold sum_nrows.
  induction 1; rewrite ?fmap_cons; cbn [foldr]; [reflexivity|lia].
Qed.

(** [C1] A call that returns without an exception leaves a target whose
    row count is the target's row count plus the sum of the row counts of
    the frames that have rows, reduced modulo [2^64]: the row counts are
    numbers of type [size_t] and the code adds them in that type.  Where
    the sum is below [2^64] the row count is the sum itself.  The sum
    over the frames that have rows is also the sum over all the frames
    of the arguments. *)
Theorem row_count_adds_up (dt dt' : DataTable) (varargs : list robj)
    (force bynames : bool) (dts : list DataTable) (j : nat) :
  process_varargs varargs ([], 0%nat) = Ok (dts, j) ->
  Frame_rbind dt varargs force bynames = (dt', None) ->
  0 <= nrows_ dt < 2 ^ 64 ->
  Forall (fun d => 0 <= nrows_ d) dts ->
  nrows_ dt' = (nrows_ dt + sum_nrows dts) mod 2 ^ 64 /\
  (nrows_ dt + sum_nrows dts < 2 ^ 64 ->
   nrows_ dt' = nrows_ dt + sum_nrows dts) /\
  sum_nrows dts = sum_nrows (all_frames varargs).
Proof.
  intros Hargs Hcall Hdt Hdts.
  pose proof (process_varargs_frames _ _ _ _ _ Hargs) as [Hd _].
  simpl in Hd.
  pose proof (sum_nrows_nonneg dts Hdts) as Hnn.
  assert (nrows_ dt' = (nrows_ dt + sum_nrows dts) mod 2 ^ 64) as Hmod.
  { unfold Frame_rbind in Hcall. rewrite Hargs in Hcall.
    destruct dts as [|d0 rest].
    { injection Hcall as <-. unfold sum_nrows. simpl.
      rewrite Z.add_0_r. symmetry. now apply Z.mod_small. }
    destruct (decide (0 < nkeys_ dt)%nat); [discriminate|].
    destruct (plan_columns dt (d0 :: rest) force bynames) as [p|e];
      [|discriminate].
    destruct (DataTable_rbind dt (d0 :: rest) (cols p)) as [dt1 [e|]] eqn:E;
      [discriminate|].
    injection Hcall as <-. simpl.
    apply DataTable_rbind_nrows in E as [-> _].
    now apply fold_size_add_mod. }
  split_and!.
  - exact Hmod.
  - intros Hsum. rewrite Hmod. apply Z.mod_small. lia.
  - rewrite Hd. apply sum_nrows_filter.
Qed.

(** ** The retry at 64-bit offsets *)


(** ** The high bit of an offset *)

Lemma testbit_high_true e n :
  0 <= n -> 2 ^ n <= e < 2 ^ (n + 1) -> Z.testbit e n = true.
Proof.
  intros Hn He. assert (0 < 2 ^ n) by (apply Z.pow_pos_nonneg; lia).
  assert (Z.log2 e = n) as <-; [|apply Z.bit_log2; lia].
  apply Z.log2_unique; [lia|]. now replace (Z.succ n) with (n + 1) by lia.
Qed.

Lemma testbit_high_false e n :
  0 <= n -> 0 <= e < 2 ^ n -> Z.testbit e n = false.
Proof.
  intros Hn He. destruct (decide (e = 0)) as [->|Hne].
  - apply Z.bits_0.
  - apply Z.bits_above_log2; [lia|]. apply Z.log2_lt_pow2; lia.
Qed.

Lemma ldiff_pow2 e n :
  0 <= n ->
  Z.ldiff e (2 ^ n) = e - (if Z.testbit e n then 2 ^ n else 0).
Proof.
  intros Hn. destruct (Z.testbit e n) eqn:E.
  - symmetry. apply Z.sub_nocarry_ldiff. apply Z.bits_inj'. intros i Hi.
    rewrite Z.ldiff_spec, Z.bits_0, Z.pow2_bits_eqb by lia.
    destruct (Z.eqb_spec n i) as [->|]; [now rewrite E|reflexivity].
  - rewrite Z.sub_0_r. apply Z.bits_inj'. intros i Hi.
    rewrite Z.ldiff_spec, Z.pow2_bits_eqb by lia.
    destruct (Z.eqb_spec n i) as [->|]; simpl.
    + now rewrite E.
    + now rewrite andb_true_r.
Qed.

Lemma lxor_pow2 c n :
  0 <= n -> Z.testbit c n = false -> Z.lxor c (2 ^ n) = c + 2 ^ n.
Proof.
  intros Hn E. symmetry. apply Z.add_nocarry_lxor. apply Z.bits_inj'.
  intros i Hi. rewrite Z.land_spec, Z.bits_0, Z.pow2_bits_eqb by lia.
  destruct (Z.eqb_spec n i) as [->|]; [now rewrite E|apply andb_false_r].
Qed.

Lemma bits_pos w : 0 <= bits w - 1.
Proof. destruct w; simpl; lia. Qed.

Lemma pow_bits w : 2 ^ bits w = 2 * GETNA w.
Proof. destruct w; reflexivity. Qed.

Lemma GETNA_pos w : 0 < GETNA w.
Proof. destruct w; reflexivity. Qed.

(** An entry is its offset plus the high bit when it is tagged. *)
Lemma entry_split w e :
  0 <= e < 2 ^ bits w ->
  0 <= clear_na w e < GETNA w /\
  e = clear_na w e + (if ISNA w e then GETNA w else 0).
Proof.
  intros He. rewrite pow_bits in He. unfold clear_na, ISNA, GETNA in *.
  pose proof (bits_pos w) as Hb. rewrite ldiff_pow2 by done.
  destruct (Z.testbit e (bits w - 1)) eqn:E.
  - destruct (Z_lt_le_dec e (2 ^ (bits w - 1))) as [Hlt|Hge].
    + rewrite testbit_high_false in E by lia. discriminate.
    + lia.
  - destruct (Z_lt_le_dec e (2 ^ (bits w - 1))) as [Hlt|Hge].
    + lia.
    + rewrite testbit_high_true in E; [discriminate|lia|].
      replace (bits w - 1 + 1) with (bits w) by lia.
      rewrite pow_bits. unfold GETNA. lia.
Qed.

Lemma ISNA_plain w m : 0 <= m < GETNA w -> ISNA w m = false.
Proof. intros H. apply testbit_high_false; [apply bits_pos|exact H]. Qed.

Lemma ISNA_tagged w m : 0 <= m < GETNA w -> ISNA w (m + GETNA w) = true.
Proof.
  intros H. apply testbit_high_true; [apply bits_pos|].
  replace (bits w - 1 + 1) with (bits w) by lia. rewrite pow_bits.
  unfold GETNA in *. lia.
Qed.

Lemma clear_na_plain w m : 0 <= m < GETNA w -> clear_na w m = m.
Proof.
  intros H. unfold clear_na, GETNA. rewrite ldiff_pow2 by apply bits_pos.
  fold (ISNA w m). rewrite ISNA_plain by done. lia.
Qed.

Lemma clear_na_tagged w m :
  0 <= m < GETNA w -> clear_na w (m + GETNA w) = m.
Proof.
  intros H. unfold clear_na, GETNA. rewrite ldiff_pow2 by apply bits_pos.
  fold (ISNA w (m + 2 ^ (bits w - 1))). fold (GETNA w).
  rewrite ISNA_tagged by done. lia.
Qed.

(** [curr_offset ^ GETNA<T>()] *)
Lemma na_entry w c : 0 <= c < GETNA w -> Z.lxor c (GETNA w) = c + GETNA w.
Proof.
  intros H. unfold GETNA. apply lxor_pow2; [apply bits_pos|].
  now apply (ISNA_plain w).
Qed.

(** The entry stored for a source entry: the source offset moved by
    [curr_offset], tagged when the source entry is. *)
Lemma str_shift_value w src curr e :
  0 <= e < 2 ^ bits src ->
  0 <= curr ->
  curr + clear_na src e < GETNA w ->
  str_shift w src curr e
    = curr + clear_na src e + (if ISNA src e then GETNA w else 0).
Proof.
  intros He Hc Hfit. destruct (entry_split src e He) as [Hm Heq].
  set (m := clear_na src e) in *. clearbody m.
  unfold str_shift, delta_na, wrapT, GETNA in *.
  destruct w, src; cbn [bits] in *;
    repeat match goal with
           | |- context [bool_decide ?P] =>
               (rewrite (bool_decide_eq_true_2 P) by done) ||
               (rewrite (bool_decide_eq_false_2 P) by done)
           end; cbn [andb];
    destruct (ISNA _ e); rewrite Heq; clear Heq;
    change (2 ^ (32 - 1)) with 2147483648 in *;
    change (2 ^ (64 - 1)) with 9223372036854775808 in *;
    change (2 ^ 32) with 4294967296 in *;
    change (2 ^ 64) with 18446744073709551616 in *;
    Z.div_mod_to_equations; lia.
Qed.

(** ** Reading a string column back *)

Lemma last_off_cons prev a l : last_off prev (a :: l) = last_off a l.
Proof. unfold last_off. rewrite last_cons. now destruct (last l). Qed.

Lemma last_off_app prev l1 l2 :
  last_off prev (l1 ++ l2) = last_off (last_off prev l1) l2.
Proof.
  revert prev. induction l1 as [|a l1 IH]; intros prev; simpl.
  - reflexivity.
  - rewrite !last_off_cons. apply IH.
Qed.

Lemma str_decode_app w l1 :
  forall prev l2 buf,
    str_decode w prev (l1 ++ l2) buf
      = str_decode w prev l1 buf ++ str_decode w (last_off prev l1) l2 buf.
Proof.
  induction l1 as [|a l1 IH]; intros prev l2 buf; simpl.
  - reflexivity.
  - rewrite last_off_cons. f_equal. apply IH.
Qed.

(** A run of tagged entries reads as missing values and leaves the offset
    where it was. *)
Lemma str_decode_na_run w c k :
  0 <= c < GETNA w ->
  forall prev buf,
    str_decode w prev (replicate k (c + GETNA w)) buf = replicate k None.
Proof.
  intros Hc. induction k as [|k IH]; intros prev buf; simpl.
  - reflexivity.
  - rewrite ISNA_tagged by done. f_equal. apply IH.
Qed.

Lemma last_off_na_run w c k :
  0 <= c < GETNA w ->
  forall prev,
    clear_na w prev = c ->
    clear_na w (last_off prev (replicate k (c + GETNA w))) = c.
Proof.
  intros Hc. induction k as [|k IH]; intros prev Hprev; simpl.
  - exact Hprev.
  - rewrite last_off_cons. apply IH. now apply clear_na_tagged.
Qed.

Lemma str_slice_prefix p e (sb post : list Byte.byte) :
  0 <= p -> e <= Z.of_nat (length sb) ->
  str_slice p e (sb ++ post) = str_slice p e sb.
Proof.
  intros Hp He. unfold str_slice. rewrite drop_app. apply take_app_le.
  rewrite length_drop. lia.
Qed.

Lemma str_slice_shift curr p e (pre rest : list Byte.byte) :
  0 <= p -> Z.of_nat (length pre) = curr ->
  str_slice (curr + p) (curr + e) (pre ++ rest) = str_slice p e rest.
Proof.
  intros Hp Hpre. unfold str_slice.
  replace (curr + e - (curr + p)) with (e - p) by lia. f_equal.
  rewrite drop_app_ge by lia. f_equal. lia.
Qed.

(** Bytes appended to the string data do not change what the entries
    read. *)
Lemma str_decode_prefix w offs (sb post : list Byte.byte) :
  forall prev,
    0 <= clear_na w prev ->
    Forall (fun e => 0 <= e < 2 ^ bits w /\
                     clear_na w e <= Z.of_nat (length sb)) offs ->
    str_decode w prev offs (sb ++ post) = str_decode w prev offs sb.
Proof.
  induction offs as [|e offs IH]; intros prev Hprev Hall; simpl.
  - reflexivity.
  - inversion Hall as [|? ? [He Hm] Hrest]; subst.
    destruct (entry_split w e He) as [Hm0 Heq].
    f_equal; [|apply IH; [lia|done]].
    destruct (ISNA w e) eqn:E; [reflexivity|]. f_equal.
    apply str_slice_prefix; lia.
Qed.

(** The entries stored for a source column read, in the merged buffers,
    as the source column reads. *)
Lemma str_decode_shift w src curr (pre sb post : list Byte.byte) offs :
  forall prev prev',
    Forall (fun e => 0 <= e < 2 ^ bits src /\
                     clear_na src e <= Z.of_nat (length sb)) offs ->
    0 <= curr -> Z.of_nat (length pre) = curr ->
    curr + Z.of_nat (length sb) < GETNA w ->
    0 <= clear_na src prev ->
    clear_na w prev' = curr + clear_na src prev ->
    str_decode w prev' (map (str_shift w src curr) offs) (pre ++ sb ++ post)
      = str_decode src prev offs sb.
Proof.
  induction offs as [|e offs IH];
    intros prev prev' Hall Hc Hpre Hfit Hp Hp'; simpl.
  - reflexivity.
  - inversion Hall as [|? ? [He Hm] Hrest]; subst.
    destruct (entry_split src e He) as [Hm0 Heq].
    rewrite (str_shift_value w src (Z.of_nat (length pre)) e) by lia.
    destruct (ISNA src e) eqn:E.
    + rewrite ISNA_tagged by lia. f_equal.
      apply IH; try done; [lia|]. now rewrite clear_na_tagged by lia.
    + rewrite Z.add_0_r in *. rewrite ISNA_plain by lia. f_equal.
      * f_equal. rewrite Hp', <- Heq.
        rewrite str_slice_shift by done. apply str_slice_prefix; lia.
      * apply IH; try done; [lia|]. now rewrite clear_na_plain by lia.
Qed.

(** ** Writing a buffer front to back *)

Lemma write_at_app {A} (done_ vals rest : list A) :
  (length vals <= length rest)%nat ->
  write_at (length done_) vals (done_ ++ rest)
    = Ok (done_ ++ vals ++ drop (length vals) rest).
Proof.
  intros H. unfold write_at. rewrite length_app.
  destruct (decide _); [|lia]. rewrite take_app_length.
  do 3 f_equal. rewrite drop_app_ge by lia. f_equal. lia.
Qed.

Lemma str_flush_run w (done_ rest : list Z) pend curr sbuf :
  0 <= pend <= Z.of_nat (length rest) ->
  0 <= curr < GETNA w ->
  let nas := replicate (Z.to_nat pend) (curr + GETNA w) in
  str_flush w (mkStrState (done_ ++ rest) (length done_) pend curr sbuf)
    = Ok (mkStrState ((done_ ++ nas) ++ drop (Z.to_nat pend) rest)
            (length (done_ ++ nas)) 0 curr sbuf).
Proof.
  intros Hp Hc nas. subst nas. unfold str_flush. simpl.
  destruct (decide (pend = 0)) as [->|Hne].
  - simpl. now rewrite !app_nil_r.
  - rewrite na_entry by done.
    rewrite write_at_app by (rewrite length_replicate; lia). simpl.
    rewrite !length_app, !length_replicate, <- app_assoc. reflexivity.
Qed.

(** ** The second loop of the string appender *)

Lemma total_rows_cons c cs : total_rows (c :: cs) = col_nrows c + total_rows cs.
Proof. reflexivity. Qed.

Lemma total_bytes_cons c cs :
  total_bytes (c :: cs) = col_bytes c + total_bytes cs.
Proof. reflexivity. Qed.

Lemma str_source_nonneg c :
  str_source c -> 0 <= col_nrows c /\ 0 <= col_bytes c.
Proof. destruct c; simpl; intros H; try done; [|lia]. destruct H. lia. Qed.

Lemma totals_nonneg cs :
  Forall str_source cs -> 0 <= total_rows cs /\ 0 <= total_bytes cs.
Proof.
  induction 1 as [|c cs Hc _ IH].
  - unfold total_rows, total_bytes. simpl. lia.
  - rewrite total_rows_cons, total_bytes_cons.
    apply str_source_nonneg in Hc. lia.
Qed.

Lemma last_off_shift w src curr offs :
  forall prev prev',
    Forall (fun e => 0 <= e < 2 ^ bits src /\
                     curr + clear_na src e < GETNA w) offs ->
    0 <= curr ->
    clear_na w prev' = curr + clear_na src prev ->
    clear_na w (last_off prev' (map (str_shift w src curr) offs))
      = curr + clear_na src (last_off prev offs).
Proof.
  induction offs as [|e offs IH]; intros prev prev' Hall Hc Hp; simpl.
  - exact Hp.
  - inversion Hall as [|? ? [He Hm] Hrest]; subst.
    rewrite !last_off_cons. apply IH; try done.
    destruct (entry_split src e He) as [Hm0 Heq].
    rewrite str_shift_value by lia.
    destruct (ISNA src e).
    + now rewrite clear_na_tagged by lia.
    + rewrite Z.add_0_r. now rewrite clear_na_plain by lia.
Qed.

(** Copying the string data of a column behind the data copied so far. *)
Lemma str_copy_data w offbuf offs (sdone sb srest : list Byte.byte) :
  (length sb <= length srest)%nat ->
  Z.of_nat (length sdone) + Z.of_nat (length sb) < GETNA w ->
  (if decide (Z.of_nat (length sb) = 0)
   then Ok (mkStrState offbuf offs 0 (Z.of_nat (length sdone))
              (sdone ++ srest))
   else
     do strbuf <- write_at (Z.to_nat (Z.of_nat (length sdone))) sb
                    (sdone ++ srest);
     Ok (mkStrState offbuf offs 0
           (wrapT w (Z.of_nat (length sdone)
                     + wrapT w (Z.of_nat (length sb))))
           strbuf))
  = Ok (mkStrState offbuf offs 0 (Z.of_nat (length (sdone ++ sb)))
          ((sdone ++ sb) ++ drop (length sb) srest)).
Proof.
  intros Hlen Hfit. destruct (decide _) as [E|E].
  - destruct sb; [|simpl in E; lia]. simpl. now rewrite !app_nil_r.
  - rewrite Nat2Z.id, write_at_app by done. cbn [bind].
    rewrite <- app_assoc, length_app. do 2 f_equal.
    pose proof (pow_bits w) as Hb. pose proof (GETNA_pos w).
    unfold wrapT. rewrite (Z.mod_small (Z.of_nat (length sb))) by lia.
    rewrite Z.mod_small by lia. lia.
Qed.

Lemma str_loop_correct w cs :
  forall (done_ rest : list Z) (sdone srest : list Byte.byte) pend,
    Forall str_source cs ->
    0 <= pend ->
    Z.of_nat (length rest) = pend + total_rows cs ->
    Z.of_nat (length srest) = total_bytes cs ->
    clear_na w (last_off 0 done_) = Z.of_nat (length sdone) ->
    Z.of_nat (length sdone) + total_bytes cs < GETNA w ->
    pend + total_rows cs < 2 ^ 64 ->
    exists s1 s2 offs' sb',
      str_loop w cs
        (mkStrState (done_ ++ rest) (length done_) pend
           (Z.of_nat (length sdone)) (sdone ++ srest)) = Ok s1 /\
      str_flush w s1 = Ok s2 /\
      st_offbuf s2 = done_ ++ offs' /\
      st_strbuf s2 = sdone ++ sb' /\
      length offs' = length rest /\ length sb' = length srest /\
      str_decode w (last_off 0 done_) offs' (sdone ++ sb')
        = replicate (Z.to_nat pend) None ++ concat (col_values <$> cs).
Proof.
  induction cs as [|c cs IH];
    intros done_ rest sdone srest pend Hsrc Hpend Hrest Hsrest Hlast Hfit
      Hrows.
  - unfold total_rows, total_bytes in *. simpl in *.
    eexists _, _, (replicate (Z.to_nat pend)
                     (Z.of_nat (length sdone) + GETNA w)), [].
    split; [reflexivity|]. rewrite str_flush_run by lia. cbn zeta.
    split; [reflexivity|]. simpl.
    destruct srest; [|simpl in Hsrest; lia].
    rewrite drop_ge by lia. rewrite !app_nil_r.
    split; [reflexivity|]. split; [reflexivity|].
    split; [rewrite length_replicate; lia|]. split; [reflexivity|].
    apply str_decode_na_run. lia.
  - inversion Hsrc as [|? ? Hc Hcs]; subst.
    pose proof (totals_nonneg cs Hcs) as [Hr0 Hb0].
    pose proof (str_source_nonneg c Hc) as [Hcr Hcb].
    rewrite total_rows_cons in *. rewrite total_bytes_cons in *.
    destruct c as [n s|k d|src o sb|d]; simpl in Hc; try done.
    + destruct Hc as [-> Hn]. simpl in *.
      destruct (decide (VOID = VOID)); [|done].
      assert (size_add pend n = pend + n) as ->.
      { unfold size_add, wrap64. apply Z.mod_small. lia. }
      destruct (IH done_ rest sdone srest (pend + n))
        as (s1 & s2 & offs' & sb' & H1 & H2 & H3 & H4 & L1 & L2 & H5);
        try done; try lia.
      exists s1, s2, offs', sb'. split_and!; try done.
      rewrite H5, Z2Nat.inj_add, replicate_add, <- app_assoc by lia.
      reflexivity.
    + destruct Hc as [Hall Hend].
      simpl in Hcr, Hcb, Hrest, Hsrest, Hfit, Hrows.
      cbn [str_loop col_stype col_nrows].
      destruct (decide (str_stype src = VOID)) as [E|_];
        [destruct src; discriminate|].
      set (curr := Z.of_nat (length sdone)) in *.
      set (nas := replicate (Z.to_nat pend) (curr + GETNA w)).
      rewrite str_flush_run by lia. cbn [bind]. fold nas.
      cbn [st_offs st_offbuf st_curr_offset st_strbuf].
      rewrite write_at_app
        by (rewrite length_map, length_drop; lia).
      cbn [bind]. rewrite length_map.
      set (shifted := map (str_shift w src curr) o).
      replace (length (done_ ++ nas) + length o)%nat
        with (length ((done_ ++ nas) ++ shifted))
        by (unfold shifted; rewrite !length_app, length_map; lia).
      rewrite app_assoc.
      subst curr.
      rewrite (str_copy_data w _ _ sdone sb srest) by lia. cbn [bind].
      assert (clear_na w (last_off (last_off 0 done_) nas)
              = Z.of_nat (length sdone)) as Hl1.
      { apply last_off_na_run; [lia|done]. }
      assert (clear_na src 0 = 0) as Hz.
      { apply clear_na_plain. pose proof (GETNA_pos src). lia. }
      destruct (IH ((done_ ++ nas) ++ shifted)
                  (drop (length o) (drop (Z.to_nat pend) rest))
                  (sdone ++ sb) (drop (length sb) srest) 0)
        as (s1 & s2 & offs' & sb' & H1 & H2 & H3 & H4 & L1 & L2 & H5);
        try done.
      * rewrite !length_drop. lia.
      * rewrite length_drop. lia.
      * rewrite !last_off_app.
        unfold shifted.
        rewrite (last_off_shift w src (Z.of_nat (length sdone)) o 0
                   (last_off (last_off 0 done_) nas)).
        -- rewrite Hend, length_app. lia.
        -- eapply Forall_impl; [exact Hall|]. simpl. intros e [? ?].
           split; [done|]. lia.
        -- lia.
        -- rewrite Hl1, Hz. lia.
      * rewrite length_app. lia.
      * lia.
      * exists s1, s2, (nas ++ shifted ++ offs'), (sb ++ sb').
        split; [exact H1|]. split; [exact H2|].
        split; [now rewrite H3, <- !app_assoc|].
        split; [now rewrite H4, <- app_assoc|].
        split.
        { unfold nas, shifted.
          rewrite !length_app, length_replicate, length_map, L1,
            !length_drop. lia. }
        split; [rewrite length_app, L2, length_drop; lia|].
        rewrite !str_decode_app.
        unfold nas at 1. rewrite str_decode_na_run by lia.
        f_equal. rewrite fmap_cons, concat_cons. f_equal.
        -- unfold shifted. simpl col_values.
           apply str_decode_shift; try done; lia.
        -- rewrite !last_off_app, <- app_assoc in H5. exact H5.
Qed.

(** ** The string appender *)

Lemma str_sizes_total w cs :
  forall init cs' sz,
    str_sizes w cs init = Ok (cs', sz) ->
    Forall str_source cs' ->
    0 <= init -> init + total_bytes cs' < 2 ^ 64 ->
    sz = init + total_bytes cs'.
Proof.
  induction cs as [|c cs IH]; intros init cs' sz H Hsrc Hinit Hfit;
    simpl in H.
  - injection H as <- <-. unfold total_bytes. simpl. lia.
  - destruct (decide (col_stype c = VOID)) as [Hv|Hv].
    + apply bind_Ok in H as ([rest' sz'] & Hrest & H).
      injection H as <- <-. inversion Hsrc as [|? ? Hc Hcs]; subst.
      rewrite total_bytes_cons in *.
      assert (col_bytes c = 0) as Hb.
      { destruct c as [| |src ? ?|]; try done. destruct src; discriminate. }
      rewrite Hb in *. rewrite (IH _ _ _ Hrest); [lia|done|lia|lia].
    + apply bind_Ok in H as (n & Hn & H).
      apply bind_Ok in H as ([rest' sz'] & Hrest & H).
      injection H as <- <-. inversion Hsrc as [|? ? Hc Hcs]; subst.
      rewrite total_bytes_cons in *.
      pose proof (totals_nonneg _ Hcs) as [_ Hb0].
      pose proof (str_source_nonneg _ Hc) as [_ Hcb].
      assert (n = col_bytes
                    (if decide (col_ltype c = LT_STRING) then c
                     else materialize (cast (str_stype w) c))) as ->.
      { destruct (if decide (col_ltype c = LT_STRING) then c else _);
          simpl in Hn; try discriminate. now injection Hn as <-. }
      assert (size_add init (col_bytes
                    (if decide (col_ltype c = LT_STRING) then c
                     else materialize (cast (str_stype w) c)))
              = init + col_bytes
                    (if decide (col_ltype c = LT_STRING) then c
                     else materialize (cast (str_stype w) c))) as Hadd.
      { unfold size_add, wrap64. apply Z.mod_small. lia. }
      rewrite Hadd in Hrest.
      rewrite (IH _ _ _ Hrest); [lia|done|lia|lia].
Qed.

Lemma size_mul_div sz n :
  0 < sz -> 0 <= n -> sz * n < 2 ^ 64 -> size_mul sz n / sz = n.
Proof.
  intros Hsz Hn Hb. unfold size_mul, wrap64.
  rewrite Z.mod_small by nia. rewrite Z.mul_comm. apply Z.div_mul. lia.
Qed.

Lemma set_nrows_resize {A} n (x : A) l :
  0 <= n -> set_nrows (resize (Z.to_nat n) x l) n = Ok tt.
Proof.
  intros Hn. unfold set_nrows. rewrite length_resize.
  now rewrite decide_True by lia.
Qed.

Lemma sizeof_off_pos w : 0 < sizeof_off w.
Proof. now destruct w. Qed.

(** The offset buffer of [new_nrows] rows holds one entry more. *)
Lemma str_entries w new_nrows :
  0 <= new_nrows -> sizeof_off w * (new_nrows + 1) < 2 ^ 64 ->
  Z.to_nat (size_mul (sizeof_off w) (size_add new_nrows 1) / sizeof_off w)
  = S (Z.to_nat new_nrows).
Proof.
  intros Hn Hb. pose proof (sizeof_off_pos w) as Hs.
  assert (size_add new_nrows 1 = new_nrows + 1) as ->.
  { unfold size_add, wrap64. apply Z.mod_small. nia. }
  rewrite size_mul_div by lia. lia.
Qed.

(** The size check of the string appender passes, and the size the first
    loop arrives at is the size of the data. *)
Lemma str_check_passes w (strbuf_ : list Byte.byte) columns columns'
    new_nrows (col_empty : bool) sz :
  str_sizes w columns
    (if col_empty then 0 else size_add 0 (Z.of_nat (length strbuf_)))
    = Ok (columns', sz) ->
  Forall str_source columns' ->
  (if col_empty then 0 else Z.of_nat (length strbuf_))
    + total_bytes columns' < 2 ^ 63 ->
  (w = W32 -> sz <= MAX_ARR32_SIZE /\ new_nrows <= MAX_ARR32_SIZE) ->
  sz = (if col_empty then 0 else Z.of_nat (length strbuf_))
       + total_bytes columns' /\
  sz < GETNA w /\
  bool_decide (w = W32) &&
    (bool_decide (sz > MAX_ARR32_SIZE)
     || bool_decide (new_nrows > MAX_ARR32_SIZE)) = false.
Proof.
  intros Hsz Hsrc Hb63 Hcheck.
  pose proof (totals_nonneg _ Hsrc) as [Hr0 Hb0].
  assert (sz = (if col_empty then 0 else Z.of_nat (length strbuf_))
               + total_bytes columns') as Hsz'.
  { destruct col_empty.
    - apply (str_sizes_total _ _ _ _ _ Hsz Hsrc); lia.
    - assert (size_add 0 (Z.of_nat (length strbuf_))
              = Z.of_nat (length strbuf_)) as Hadd0.
      { unfold size_add, wrap64. apply Z.mod_small. lia. }
      rewrite Hadd0 in Hsz.
      apply (str_sizes_total _ _ _ _ _ Hsz Hsrc); lia. }
  split; [exact Hsz'|]. split.
  - destruct w; unfold GETNA; simpl.
    + destruct Hcheck as [H _]; [done|]. unfold MAX_ARR32_SIZE in H. lia.
    + lia.
  - destruct w.
    + destruct Hcheck as [H1 H2]; [done|].
      rewrite (bool_decide_eq_false_2 (sz > MAX_ARR32_SIZE)) by lia.
      rewrite (bool_decide_eq_false_2 (new_nrows > MAX_ARR32_SIZE)) by lia.
      apply andb_false_r.
    + rewrite (bool_decide_eq_false_2 (W64 = W32)) by done. reflexivity.
Qed.

(** The string appender on an "empty" column: the old rows are left to
    the first fill. *)
Lemma str_append_empty w (offs_ : list Z) (strbuf_ : list Byte.byte)
    columns columns' new_nrows new_stype sz :
  str_sizes w columns 0 = Ok (columns', sz) ->
  Forall str_source columns' ->
  new_nrows = Z.of_nat (length offs_) + total_rows columns' ->
  sizeof_off w * (new_nrows + 1) < 2 ^ 64 ->
  total_bytes columns' < 2 ^ 63 ->
  (w = W32 -> sz <= MAX_ARR32_SIZE /\ new_nrows <= MAX_ARR32_SIZE) ->
  exists offs' sb',
    SentinelStr_rbind_impl w offs_ strbuf_ columns new_nrows true new_stype
      = Ok (mkAppended (SentinelStr_ColumnImpl w offs' sb') columns'
              new_stype) /\
    length offs' = Z.to_nat new_nrows /\
    length sb' = Z.to_nat sz /\
    str_decode w 0 offs' sb'
      = replicate (length offs_) None ++ concat (col_values <$> columns').
Proof.
  intros Hsz Hsrc Hrows Hr64 Hb63 Hcheck.
  pose proof (totals_nonneg _ Hsrc) as [Hr0 Hb0].
  pose proof (sizeof_off_pos w) as Hsw.
  destruct (str_check_passes w strbuf_ columns columns' new_nrows true sz
              Hsz Hsrc) as (Hsz' & Hfit & Hpass); [lia|done|].
  unfold SentinelStr_rbind_impl. rewrite Hsz. cbn [bind]. cbn zeta.
  rewrite Hpass. rewrite str_entries by lia.
  rewrite Nat.sub_succ, Nat.sub_0_r, set_nrows_resize by lia.
  cbn [bind]. rewrite decide_False by done. cbn [bind].
  assert (clear_na w 0 = 0) as Hz.
  { apply clear_na_plain. pose proof (GETNA_pos w). lia. }
  assert (size_add 0 (Z.of_nat (length offs_))
          = Z.of_nat (length offs_)) as ->.
  { unfold size_add, wrap64. apply Z.mod_small. nia. }
  destruct (str_loop_correct w columns' []
              (resize (Z.to_nat new_nrows) uninit offs_) []
              (resize (Z.to_nat sz) uninit_byte strbuf_)
              (Z.of_nat (length offs_)))
    as (s1 & s2 & offs' & sb' & H1 & H2 & H3 & H4 & L1 & L2 & H5);
    [done|lia|rewrite length_resize; lia|rewrite length_resize; lia
    |exact Hz|simpl; lia|nia|].
  simpl in H1. change (Z.of_nat 0) with 0 in H1. rewrite H1. cbn [bind].
  rewrite H2. cbn [bind].
  simpl in H3, H4. rewrite H3, H4. exists offs', sb'.
  split; [reflexivity|].
  rewrite length_resize in L1. rewrite length_resize in L2.
  split; [done|]. split; [done|].
  change (last_off 0 []) with 0 in H5. simpl in H5.
  rewrite H5, Nat2Z.id. reflexivity.
Qed.

(** The string appender on a string column of the data model: the write
    pointers start past the old offsets and the old data. *)
Lemma str_append_data w (offs_ : list Z) (strbuf_ : list Byte.byte)
    columns columns' new_nrows new_stype sz :
  str_sizes w columns (size_add 0 (Z.of_nat (length strbuf_)))
    = Ok (columns', sz) ->
  Forall str_source columns' ->
  str_wf w offs_ strbuf_ ->
  new_nrows = Z.of_nat (length offs_) + total_rows columns' ->
  sizeof_off w * (new_nrows + 1) < 2 ^ 64 ->
  Z.of_nat (length strbuf_) + total_bytes columns' < 2 ^ 63 ->
  (w = W32 -> sz <= MAX_ARR32_SIZE /\ new_nrows <= MAX_ARR32_SIZE) ->
  exists offs' sb',
    SentinelStr_rbind_impl w offs_ strbuf_ columns new_nrows false new_stype
      = Ok (mkAppended (SentinelStr_ColumnImpl w offs' sb') columns'
              new_stype) /\
    length offs' = Z.to_nat new_nrows /\
    length sb' = Z.to_nat sz /\
    str_decode w 0 offs' sb'
      = str_decode w 0 offs_ strbuf_ ++ concat (col_values <$> columns').
Proof.
  intros Hsz Hsrc Hwf Hrows Hr64 Hb63 Hcheck.
  pose proof (totals_nonneg _ Hsrc) as [Hr0 Hb0].
  pose proof (sizeof_off_pos w) as Hsw.
  destruct (str_check_passes w strbuf_ columns columns' new_nrows false sz
              Hsz Hsrc) as (Hsz' & Hfit & Hpass); [lia|done|].
  unfold SentinelStr_rbind_impl. rewrite Hsz. cbn [bind]. cbn zeta.
  rewrite Hpass. rewrite str_entries by lia.
  rewrite Nat.sub_succ, Nat.sub_0_r, set_nrows_resize by lia.
  cbn [bind]. rewrite decide_False by done. cbn [bind].
  assert (clear_na w 0 = 0) as Hz.
  { apply clear_na_plain. pose proof (GETNA_pos w). lia. }
  destruct Hwf as [Hall Hend].
  assert (Z.to_nat new_nrows
          = length offs_ + Z.to_nat (total_rows columns'))%nat
    as Hn by lia.
  assert (Z.to_nat sz
          = length strbuf_ + Z.to_nat (total_bytes columns'))%nat
    as Hs by lia.
  rewrite Hn, Hs, !resize_ge by lia.
  replace (length offs_ + Z.to_nat (total_rows columns') - length offs_)%nat
    with (Z.to_nat (total_rows columns')) by lia.
  replace (length strbuf_ + Z.to_nat (total_bytes columns')
           - length strbuf_)%nat
    with (Z.to_nat (total_bytes columns')) by lia.
  assert ((if decide (length offs_ = 0%nat) then Ok 0
           else at_ (offs_ ++ replicate (Z.to_nat (total_rows columns'))
                                uninit) (length offs_ - 1))
          = Ok (last_off 0 offs_)) as ->.
  { destruct (decide (length offs_ = 0%nat)) as [E|E].
    - destruct offs_; [reflexivity|discriminate].
    - unfold at_, last_off.
      rewrite lookup_app_l by lia. rewrite last_lookup.
      replace (pred (length offs_)) with (length offs_ - 1)%nat by lia.
      destruct (offs_ !! (length offs_ - 1)%nat) eqn:El; [reflexivity|].
      apply lookup_ge_None in El. lia. }
  cbn [bind]. rewrite Hend.
  destruct (str_loop_correct w columns' offs_
              (replicate (Z.to_nat (total_rows columns')) uninit)
              strbuf_
              (replicate (Z.to_nat (total_bytes columns')) uninit_byte) 0)
    as (s1 & s2 & offs' & sb' & H1 & H2 & H3 & H4 & L1 & L2 & H5);
    [done|lia|rewrite length_replicate; lia|rewrite length_replicate; lia
    |exact Hend|lia|nia|].
  rewrite H1. cbn [bind]. rewrite H2. cbn [bind]. rewrite H3, H4.
  exists (offs_ ++ offs'), (strbuf_ ++ sb').
  split; [reflexivity|].
  rewrite length_replicate in L1. rewrite length_replicate in L2.
  split; [rewrite length_app; lia|].
  split; [rewrite length_app; lia|].
  rewrite str_decode_app, H5. simpl. f_equal.
  apply str_decode_prefix; [lia|done].
Qed.

(** [C2] The string appender, for either offset width and for sources of
    either width or void.  The columns are those the first loop leaves:
    void columns and string columns of the data model.  When the column
    is not "empty" it is a string column of the data model, [new_nrows]
    is the number of rows of the column and the sources together, the
    offset buffer of that many rows and one entry more fits [size_t] in
    bytes, and the string data amounts to less than [2^63] bytes.  If, at
    32-bit width, the size check passes, the appender returns a string
    column of the same width with [new_nrows] entries whose rows read, in
    order: the rows of the old column (missing values in their place when
    the column was "empty"), then the rows of each source as the source
    reads them at its own width, a void source reading as missing
    values. *)
Theorem string_round_trip (w : OffW) (offs_ : list Z)
    (strbuf_ : list Byte.byte) (columns columns' : list Column)
    (new_nrows : Z) (col_empty : bool) (new_stype : SType) (sz : Z) :
  str_sizes w columns
    (if col_empty then 0 else size_add 0 (Z.of_nat (length strbuf_)))
    = Ok (columns', sz) ->
  Forall str_source columns' ->
  (col_empty = false -> str_wf w offs_ strbuf_) ->
  new_nrows = Z.of_nat (length offs_) + total_rows columns' ->
  sizeof_off w * (new_nrows + 1) < 2 ^ 64 ->
  (if col_empty then 0 else Z.of_nat (length strbuf_))
    + total_bytes columns' < 2 ^ 63 ->
  (w = W32 -> sz <= MAX_ARR32_SIZE /\ new_nrows <= MAX_ARR32_SIZE) ->
  exists offs' sb',
    SentinelStr_rbind_impl w offs_ strbuf_ columns new_nrows col_empty
      new_stype
      = Ok (mkAppended (SentinelStr_ColumnImpl w offs' sb') columns'
              new_stype) /\
    length offs' = Z.to_nat new_nrows /\
    length sb' = Z.to_nat sz /\
    str_decode w 0 offs' sb'
      = (if col_empty then replicate (length offs_) None
         else str_decode w 0 offs_ strbuf_)
        ++ concat (col_values <$> columns').
Proof.
  intros Hsz Hsrc Hwf Hrows Hr64 Hb63 Hcheck. destruct col_empty.
  - now apply str_append_empty.
  - apply str_append_data; try done. now apply Hwf.
Qed.

(** ** The fixed-width appender *)

Lemma sizeof_T_pos k : 0 < sizeof_T k.
Proof. now destruct k. Qed.

Lemma size_mul_div_r n sz :
  0 < sz -> 0 <= n -> n * sz < 2 ^ 64 -> size_mul n sz / sz = n.
Proof.
  intros Hsz Hn Hb. unfold size_mul, wrap64.
  rewrite Z.mod_small by nia. apply Z.div_mul. lia.
Qed.

Lemma fw_flush_run k (done_ rest : list Z) pend :
  0 <= pend <= Z.of_nat (length rest) ->
  pend * sizeof_T k < 2 ^ 64 ->
  let nas := replicate (Z.to_nat pend) (GETNA_fw k) in
  fw_flush k (mkFwState (done_ ++ rest) (length done_) pend)
    = Ok (mkFwState ((done_ ++ nas) ++ drop (Z.to_nat pend) rest)
            (length (done_ ++ nas)) 0).
Proof.
  intros Hp Hb nas. subst nas. unfold fw_flush.
  cbn [fw_rows_to_fill fw_resptr fw_buf].
  destruct (decide (pend = 0)) as [->|Hne].
  - simpl. now rewrite !app_nil_r.
  - rewrite write_at_app by (rewrite length_replicate; lia). cbn [bind].
    rewrite size_mul_div_r by (try apply sizeof_T_pos; lia).
    rewrite !length_app, !length_replicate, <- app_assoc. reflexivity.
Qed.

Lemma fw_prepared_void k c : col_stype c = VOID -> fw_prepared k c = c.
Proof. intros H. unfold fw_prepared. now destruct (decide _). Qed.

Lemma fw_prepared_nonvoid k c :
  col_stype c <> VOID ->
  fw_prepared k c
    = (if decide (col_stype c = fw_stype k) then c
       else materialize (cast (fw_stype k) c)).
Proof. intros H. unfold fw_prepared. now destruct (decide _). Qed.

Lemma fw_source_rows k columns :
  Forall (fw_source k) columns -> 0 <= total_rows (fw_prepared k <$> columns).
Proof.
  intros Hsrc. unfold total_rows.
  induction Hsrc as [|c cs Hc _ IH]; [simpl; lia|].
  rewrite !fmap_cons. cbn [foldr].
  unfold fw_source, fw_prepared in *.
  destruct (decide (col_stype c = VOID)); [lia|].
  destruct Hc as (k' & d & ->). simpl. lia.
Qed.

(** The copy of the data [d] of a column, to the position after
    [done_]. *)
Lemma fw_copy_run k (done_ rest d : list Z) :
  (length d <= length rest)%nat ->
  sizeof_T k * Z.of_nat (length d) < 2 ^ 64 ->
  (if decide (size_mul (sizeof_T k) (Z.of_nat (length d)) = 0)
   then Ok (mkFwState (done_ ++ rest) (length done_) 0)
   else
     do data <- Ok d;
     do buf <-
       write_at (length done_)
         (take (Z.to_nat (size_mul (sizeof_T k) (Z.of_nat (length d))
                          / sizeof_T k)) data)
         (done_ ++ rest);
     Ok (mkFwState buf
           (length done_
            + Z.to_nat (size_mul (sizeof_T k) (Z.of_nat (length d))
                        / sizeof_T k)) 0))
  = Ok (mkFwState ((done_ ++ d) ++ drop (length d) rest)
          (length (done_ ++ d)) 0).
Proof.
  intros Hlen Hb. pose proof (sizeof_T_pos k) as Hs.
  assert (size_mul (sizeof_T k) (Z.of_nat (length d))
          = sizeof_T k * Z.of_nat (length d)) as E.
  { unfold size_mul, wrap64. apply Z.mod_small. nia. }
  destruct (decide _) as [E0|E0].
  - rewrite E in E0. assert (length d = 0%nat) as Hd by nia.
    destruct d; [|discriminate]. simpl. now rewrite !app_nil_r.
  - cbn [bind]. rewrite size_mul_div by lia. rewrite Nat2Z.id.
    rewrite firstn_all. rewrite write_at_app by lia. cbn [bind].
    rewrite app_assoc, (length_app done_ d). reflexivity.
Qed.

Lemma fw_loop_correct k cs :
  forall (done_ rest : list Z) pend,
    Forall (fw_source k) cs ->
    0 <= pend ->
    Z.of_nat (length rest) = pend + total_rows (fw_prepared k <$> cs) ->
    sizeof_T k * (pend + total_rows (fw_prepared k <$> cs)) < 2 ^ 64 ->
    exists s1 s2,
      fw_loop k cs (mkFwState (done_ ++ rest) (length done_) pend)
        = Ok (fw_prepared k <$> cs, s1) /\
      fw_flush k s1 = Ok s2 /\
      fw_buf s2
        = done_ ++ replicate (Z.to_nat pend) (GETNA_fw k)
          ++ concat (fw_values k <$> (fw_prepared k <$> cs)).
Proof.
  pose proof (sizeof_T_pos k) as Hs.
  induction cs as [|c cs IH]; intros done_ rest pend Hsrc Hpend Hrest Hrows.
  - unfold total_rows in *. simpl in *.
    eexists _, _. split; [reflexivity|].
    rewrite fw_flush_run by lia. cbn zeta. split; [reflexivity|]. simpl.
    rewrite drop_ge by lia. now rewrite !app_nil_r.
  - inversion Hsrc as [|? ? Hc Hcs]; subst.
    pose proof (fw_source_rows k cs Hcs) as Hr0.
    rewrite !fmap_cons in *. rewrite total_rows_cons in *.
    cbn [fw_loop fw_buf fw_resptr fw_rows_to_fill]. unfold fw_source in Hc.
    destruct (decide (col_stype c = VOID)) as [Hv|Hv].
    + rewrite (fw_prepared_void k c Hv) in *.
      assert (size_add pend (col_nrows c) = pend + col_nrows c) as ->.
      { unfold size_add, wrap64. apply Z.mod_small. nia. }
      destruct (IH done_ rest (pend + col_nrows c))
        as (s1 & s2 & H1 & H2 & H3); [done|lia|lia| |].
      { rewrite <- Z.add_assoc. exact Hrows. }
      rewrite H1. cbn [bind].
      exists s1, s2. split; [reflexivity|]. split; [exact H2|].
      rewrite H3, Z2Nat.inj_add, replicate_add, concat_cons by lia.
      rewrite <- !app_assoc. do 2 f_equal.
      destruct c as [n s|kind ?|w ? ?|]; simpl in Hv; try discriminate;
        [reflexivity|destruct kind; discriminate|destruct w; discriminate].
    + rewrite <- (fw_prepared_nonvoid k c Hv).
      destruct Hc as (k' & d & Hprep).
      rewrite Hprep in *. simpl in Hrest, Hrows.
      set (nas := replicate (Z.to_nat pend) (GETNA_fw k)).
      rewrite fw_flush_run by nia. cbn [bind]. fold nas.
      cbn [fw_resptr fw_buf col_nrows fw_data].
      rewrite (fw_copy_run k (done_ ++ nas) (drop (Z.to_nat pend) rest) d)
        by (rewrite ?length_drop; nia).
      cbn [bind].
      destruct (IH ((done_ ++ nas) ++ d)
                  (drop (length d) (drop (Z.to_nat pend) rest)) 0)
        as (s1 & s2 & H1 & H2 & H3); [done|lia| |nia|].
      { rewrite !length_drop. lia. }
      rewrite H1. cbn [bind]. exists s1, s2.
      split; [reflexivity|]. split; [exact H2|].
      rewrite H3, concat_cons. simpl. now rewrite <- !app_assoc.
Qed.

(** The buffer of [new_nrows] elements, where its size in bytes fits
    [size_t]. *)
Lemma fw_resize_rows k new_nrows :
  0 <= new_nrows -> sizeof_T k * new_nrows < 2 ^ 64 ->
  Z.to_nat (size_mul (sizeof_T k) new_nrows / sizeof_T k)
  = Z.to_nat new_nrows.
Proof.
  intros Hn Hb. now rewrite size_mul_div by (try apply sizeof_T_pos; lia).
Qed.

(** The appender on an "empty" column: the old rows are left to the
    first fill. *)
Lemma fw_append_empty k mbuf_ columns new_nrows new_stype :
  Forall (fw_source k) columns ->
  new_nrows
    = Z.of_nat (length mbuf_) + total_rows (fw_prepared k <$> columns) ->
  sizeof_T k * new_nrows < 2 ^ 64 ->
  SentinelFw_rbind_impl k mbuf_ columns new_nrows true new_stype
  = Ok (mkAppended
          (SentinelFw_ColumnImpl k
             (replicate (length mbuf_) (GETNA_fw k)
              ++ concat (fw_values k <$> (fw_prepared k <$> columns))))
          (fw_prepared k <$> columns) new_stype).
Proof.
  intros Hsrc Hrows H64. unfold SentinelFw_rbind_impl. cbn zeta.
  pose proof (fw_source_rows k columns Hsrc) as Hr0.
  rewrite fw_resize_rows, set_nrows_resize by lia. cbn [bind].
  destruct (fw_loop_correct k columns []
              (resize (Z.to_nat new_nrows) uninit mbuf_)
              (Z.of_nat (length mbuf_)))
    as (s1 & s2 & H1 & H2 & H3); [done|lia| | |].
  { rewrite length_resize. lia. }
  { now rewrite <- Hrows. }
  simpl in H1. rewrite H1. cbn [bind]. rewrite H2. cbn [bind].
  rewrite H3, Nat2Z.id. reflexivity.
Qed.

(** The appender on a column with data: the write pointer starts past
    the old rows. *)
Lemma fw_append_data k mbuf_ columns new_nrows new_stype :
  Forall (fw_source k) columns ->
  new_nrows
    = Z.of_nat (length mbuf_) + total_rows (fw_prepared k <$> columns) ->
  sizeof_T k * new_nrows < 2 ^ 64 ->
  SentinelFw_rbind_impl k mbuf_ columns new_nrows false new_stype
  = Ok (mkAppended
          (SentinelFw_ColumnImpl k
             (mbuf_
              ++ concat (fw_values k <$> (fw_prepared k <$> columns))))
          (fw_prepared k <$> columns) new_stype).
Proof.
  intros Hsrc Hrows H64. unfold SentinelFw_rbind_impl. cbn zeta.
  pose proof (fw_source_rows k columns Hsrc) as Hr0.
  pose proof (sizeof_T_pos k) as Hs.
  rewrite fw_resize_rows, set_nrows_resize by lia. cbn [bind].
  rewrite size_mul_div by nia. rewrite Nat2Z.id.
  assert (Z.to_nat new_nrows
          = length mbuf_
            + Z.to_nat (total_rows (fw_prepared k <$> columns)))%nat
    as -> by lia.
  rewrite resize_ge by lia.
  destruct (fw_loop_correct k columns mbuf_
              (replicate
                 (length mbuf_
                  + Z.to_nat (total_rows (fw_prepared k <$> columns))
                  - length mbuf_) uninit) 0)
    as (s1 & s2 & H1 & H2 & H3); [done|lia| |nia|].
  { rewrite length_replicate. lia. }
  rewrite H1. cbn [bind]. rewrite H2. cbn [bind]. rewrite H3.
  reflexivity.
Qed.

(** The fixed-width appender, where the buffer of [new_nrows] elements
    fits [size_t] in bytes: it returns the old elements (missing values
    in their place when the column was "empty") followed by what each
    column contributes: its elements, or one missing value per row of a
    void column. *)
Theorem SentinelFw_rbind_impl_correct (k : FwKind) (mbuf_ : list Z)
    (columns : list Column) (new_nrows : Z) (col_empty : bool)
    (new_stype : SType) :
  Forall (fw_source k) columns ->
  new_nrows
    = Z.of_nat (length mbuf_) + total_rows (fw_prepared k <$> columns) ->
  sizeof_T k * new_nrows < 2 ^ 64 ->
  SentinelFw_rbind_impl k mbuf_ columns new_nrows col_empty new_stype
  = Ok (mkAppended
          (SentinelFw_ColumnImpl k
             ((if col_empty
               then replicate (length mbuf_) (GETNA_fw k) else mbuf_)
              ++ concat (fw_values k <$> (fw_prepared k <$> columns))))
          (fw_prepared k <$> columns) new_stype).
Proof.
  intros Hsrc Hrows H64. destruct col_empty.
  - now apply fw_append_empty.
  - now apply fw_append_data.
Qed.

(** ** Row counts of the rebuilt columns *)

Lemma write_at_length {A} pos (vals buf buf' : list A) :
  write_at pos vals buf = Ok buf' -> length buf' = length buf.
Proof.
  unfold write_at. destruct (decide _) as [H|H]; [|discriminate].
  intros [= <-]. rewrite !length_app, length_take, length_drop. lia.
Qed.

Lemma set_nrows_Ok {A} (buf : list A) n u :
  set_nrows buf n = Ok u -> Z.of_nat (length buf) = n.
Proof. unfold set_nrows. now destruct (decide _). Qed.

Lemma fw_flush_length k s s' :
  fw_flush k s = Ok s' -> length (fw_buf s') = length (fw_buf s).
Proof.
  unfold fw_flush. destruct (decide _).
  - now intros [= <-].
  - intros H. apply bind_Ok in H as (buf & Hw & H). injection H as <-.
    simpl. eapply write_at_length; eauto.
Qed.

Lemma fw_loop_length k cs :
  forall s cs' s',
    fw_loop k cs s = Ok (cs', s') -> length (fw_buf s') = length (fw_buf s).
Proof.
  induction cs as [|c cs IH]; intros s cs' s' H; cbn [fw_loop] in H.
  - now injection H as <- <-.
  - destruct (decide (col_stype c = VOID)).
    + apply bind_Ok in H as ([r s1] & H1 & H). injection H as <- <-.
      apply IH in H1. exact H1.
    + apply bind_Ok in H as (s1 & Hf & H). cbn zeta in H.
      apply bind_Ok in H as (s2 & H2 & H).
      apply bind_Ok in H as ([r s3] & H3 & H). injection H as <- <-.
      apply IH in H3. apply fw_flush_length in Hf. rewrite H3, <- Hf.
      destruct (decide _); [now injection H2 as <-|].
      apply bind_Ok in H2 as (d & _ & H2).
      apply bind_Ok in H2 as (b & Hw & H2). injection H2 as <-. simpl.
      eapply write_at_length; eauto.
Qed.

Lemma obj_copy_length col count :
  forall i dest buf dest' buf',
    obj_copy col count i dest buf = Ok (dest', buf') ->
    length buf' = length buf.
Proof.
  induction count as [|count IH]; intros i dest buf dest' buf' H;
    simpl in H.
  - now injection H as <- <-.
  - apply bind_Ok in H as (x & _ & H). apply bind_Ok in H as (b & Hw & H).
    apply IH in H. apply write_at_length in Hw. congruence.
Qed.

Lemma obj_loop_length cs :
  forall dest buf cs' dest' buf',
    obj_loop cs dest buf = Ok (cs', (dest', buf')) ->
    length buf' = length buf.
Proof.
  induction cs as [|c cs IH]; intros dest buf cs' dest' buf' H; simpl in H.
  - now injection H as <- <- <-.
  - destruct (decide (col_stype c = VOID)).
    + apply bind_Ok in H as ([r [d b]] & H1 & H). injection H as <- <- <-.
      now apply IH in H1.
    + apply bind_Ok in H as ([d1 b1] & Hc & H).
      apply bind_Ok in H as ([r [d b]] & H1 & H). injection H as <- <- <-.
      apply IH in H1. apply obj_copy_length in Hc. congruence.
Qed.

Lemma str_flush_length w s s' :
  str_flush w s = Ok s' -> length (st_offbuf s') = length (st_offbuf s).
Proof.
  unfold str_flush. destruct (decide _).
  - now intros [= <-].
  - intros H. apply bind_Ok in H as (buf & Hw & H). injection H as <-.
    simpl. eapply write_at_length; eauto.
Qed.

Lemma str_loop_length w cs :
  forall s s',
    str_loop w cs s = Ok s' -> length (st_offbuf s') = length (st_offbuf s).
Proof.
  induction cs as [|c cs IH]; intros s s' H; simpl in H.
  - now injection H as <-.
  - destruct (decide (col_stype c = VOID)).
    + apply IH in H. exact H.
    + apply bind_Ok in H as (s1 & Hf & H). apply str_flush_length in Hf.
      destruct c as [| |src o sb|]; try discriminate.
      apply bind_Ok in H as (ob & Hw & H). apply write_at_length in Hw.
      apply bind_Ok in H as (s2 & H2 & H). apply IH in H.
      rewrite H, <- Hf, <- Hw.
      destruct (decide _); [now injection H2 as <-|].
      apply bind_Ok in H2 as (b & _ & H2). now injection H2 as <-.
Qed.

(** An appender that does not ask for the retry returns a column of
    [new_nrows] rows. *)
Lemma rbind_impl_nrows self columns new_nrows col_empty new_stype a :
  0 <= new_nrows ->
  rbind_impl self columns new_nrows col_empty new_stype = Ok a ->
  col_nrows (app_self a) = new_nrows \/
  col_stype self = STR32 /\ app_self a = self /\ app_new_stype a = STR64.
Proof.
  intros Hn H. destruct self as [n s|k d|w o sb|d]; simpl in H.
  - injection H as <-. now left.
  - left. unfold SentinelFw_rbind_impl in H. cbn zeta in H.
    apply bind_Ok in H as (u & Hset & H). apply set_nrows_Ok in Hset.
    apply bind_Ok in H as ([cs s1] & Hl & H).
    apply bind_Ok in H as (s2 & Hf & H). injection H as <-.
    cbn [app_self col_nrows].
    apply fw_flush_length in Hf. apply fw_loop_length in Hl.
    rewrite Hf, Hl. now destruct col_empty.
  - unfold SentinelStr_rbind_impl in H.
    apply bind_Ok in H as ([cs sz] & _ & H). cbn zeta in H.
    destruct (bool_decide (w = W32) && _) eqn:E.
    + right. injection H as <-. simpl.
      apply andb_true_iff in E as [E _]. apply bool_decide_eq_true in E.
      now subst w.
    + left. apply bind_Ok in H as (u & Hset & H).
      apply set_nrows_Ok in Hset.
      apply bind_Ok in H as (u' & _ & H).
      apply bind_Ok in H as (s0 & H0 & H).
      apply bind_Ok in H as (s1 & Hl & H).
      apply bind_Ok in H as (s2 & Hf & H). injection H as <-.
      cbn [app_self col_nrows].
      apply str_flush_length in Hf. apply str_loop_length in Hl.
      rewrite Hf, Hl. destruct col_empty.
      * now injection H0 as <-.
      * apply bind_Ok in H0 as (l & _ & H0). now injection H0 as <-.
  - left. unfold SentinelObj_rbind_impl in H. cbn zeta in H.
    apply bind_Ok in H as (u & Hset & H). apply set_nrows_Ok in Hset.
    apply bind_Ok in H as ([cs [dst buf]] & Hl & H). injection H as <-.
    cbn [app_self col_nrows]. apply obj_loop_length in Hl. now rewrite Hl.
Qed.

Lemma rbind_types_nrows columns :
  forall n t cs n' t',
    rbind_types columns n t = Ok (cs, (n', t')) ->
    n' = fold_left (fun acc col => size_add acc (col_nrows (materialize col)))
           columns n.
Proof.
  induction columns as [|c cs0 IH]; intros n t cs n' t' H; simpl in H.
  - now injection H as <- <- <-.
  - destruct (common t _); [|discriminate].
    apply bind_Ok in H as ([r [n1 t1]] & H1 & H). injection H as <- <- <-.
    simpl. eapply IH; eauto.
Qed.

Lemma fold_size_add_nonneg {A} (f : A -> Z) l :
  forall acc, 0 <= acc ->
    0 <= fold_left (fun acc x => size_add acc (f x)) l acc.
Proof.
  induction l as [|x l IH]; intros acc H; simpl; [exact H|].
  apply IH. unfold size_add, wrap64. apply Z.mod_pos_bound. lia.
Qed.

Lemma Column_rbind_nrows (self c : Column) (columns : list Column) :
  cast_keeps_stype ->
  0 <= col_nrows self ->
  Column_rbind self columns = Ok c ->
  col_nrows c = rbind_nrows self columns.
Proof.
  intros Hcast Hself H. unfold Column_rbind in H.
  apply bind_Ok in H as ([cs [n t]] & Ht & H).
  apply rbind_types_nrows in Ht. fold (rbind_nrows self columns) in Ht.
  assert (0 <= n) as Hn.
  { subst n. unfold rbind_nrows. now apply fold_size_add_nonneg. }
  apply bind_Ok in H as (a1 & H1 & H).
  pose proof (rbind_impl_nrows _ _ _ _ _ _ Hn H1) as Hr1.
  destruct (decide (app_new_stype a1 = VOID)) as [Hv|Hv].
  - injection H as <-.
    destruct Hr1 as [Hr1|(_ & _ & H64)]; congruence.
  - apply bind_Ok in H as (a2 & H2 & H). injection H as <-.
    pose proof (rbind_impl_nrows _ _ _ _ _ _ Hn H2) as Hr2.
    destruct Hr2 as [Hr2|(H32 & _ & _)]; [congruence|].
    rewrite col_stype_materialize, Hcast in H32.
    apply rbind_impl_stype in H1 as [_ [Hs|(_ & _ & Hs)]];
      [contradiction|]. rewrite Hs in H32. discriminate.
Qed.

Lemma materialize_nrows c :
  0 <= col_nrows c -> col_nrows (materialize c) = col_nrows c.
Proof.
  destruct c as [n s| | |]; simpl; try done. intros H.
  destruct s; simpl; rewrite ?length_replicate; lia.
Qed.

Lemma rbind_nrows_sum columns :
  forall acc,
    0 <= acc -> Forall (fun col => 0 <= col_nrows col) columns ->
    acc + total_rows columns < 2 ^ 64 ->
    fold_left (fun acc col => size_add acc (col_nrows (materialize col)))
      columns acc = acc + total_rows columns.
Proof.
  unfold total_rows.
  induction columns as [|col rest IH]; intros acc Hacc Hall Hsum.
  - simpl. lia.
  - apply Forall_cons in Hall as [Hcol Hrest].
    rewrite fmap_cons in *. cbn [foldr fold_left] in *.
    assert (0 <= foldr Z.add 0 (col_nrows <$> rest)) as Hr.
    { clear -Hrest. induction Hrest as [|x l Hx _ IHl]; [simpl; lia|].
      rewrite fmap_cons. cbn [foldr]. lia. }
    rewrite materialize_nrows by done.
    unfold size_add at 2, wrap64. rewrite Z.mod_small by lia.
    rewrite IH; [lia|lia|done|lia].
Qed.

(** The column [Column::rbind] returns has the number of rows the call
    computed: the rows of the target and of the columns, added as
    [size_t]; where the sum fits [size_t], it is the sum. *)
Theorem Column_rbind_row_count (self c : Column) (columns : list Column) :
  cast_keeps_stype ->
  0 <= col_nrows self ->
  Column_rbind self columns = Ok c ->
  col_nrows c = rbind_nrows self columns /\
  (Forall (fun col => 0 <= col_nrows col) columns ->
   col_nrows self + total_rows columns < 2 ^ 64 ->
   col_nrows c = col_nrows self + total_rows columns).
Proof.
  intros Hcast Hself H.
  pose proof (Column_rbind_nrows self c columns Hcast Hself H) as Hn.
  split; [exact Hn|]. intros Hall Hsum. rewrite Hn. unfold rbind_nrows.
  now apply rbind_nrows_sum.
Qed.

(** ** The size of the plan *)

Lemma set_cell_length cs r c v cs' :
  set_cell cs r c v = Ok cs' -> length cs' = length cs.
Proof.
  unfold set_cell. destruct (cs !! r); [|discriminate].
  destruct (decide _); [|discriminate]. intros [= <-].
  apply length_insert.
Qed.

Lemma bynames_name_sized force ndts i j name p p' :
  plan_sized p ->
  bynames_name force ndts i j name p = Ok p' ->
  plan_sized p' /\ final_names p `prefix_of` final_names p'.
Proof.
  intros [Hf Hc] H. unfold bynames_name in H.
  apply bind_Ok in H as (same & _ & H).
  assert (forall k,
            (do cols' <- set_cell (cols p) k i (Z.of_nat j);
             Ok (mkPlan (final_names p) cols' (inames p) (plan_n p)))
            = Ok p' ->
            plan_sized p' /\ final_names p `prefix_of` final_names p')
    as Hset.
  { intros k Hk. apply bind_Ok in Hk as (cs & Hcs & Hk).
    injection Hk as <-. apply set_cell_length in Hcs.
    split; [split; simpl; congruence|reflexivity]. }
  destruct same; [now apply (Hset j)|].
  destruct (inames p !! name) as [k|]; [now apply (Hset k)|].
  destruct force; [|discriminate].
  apply bind_Ok in H as (cs & Hcs & H). injection H as <-.
  apply set_cell_length in Hcs. rewrite length_app in Hcs. simpl in *.
  split; [split; simpl|].
  - rewrite length_app. simpl. lia.
  - lia.
  - now apply prefix_app_r.
Qed.

Lemma bynames_names_sized force ndts i dfnames :
  forall j p p',
    plan_sized p ->
    bynames_names force ndts i dfnames j p = Ok p' ->
    plan_sized p' /\ final_names p `prefix_of` final_names p'.
Proof.
  induction dfnames as [|name rest IH]; intros j p p' Hp H; simpl in H.
  - injection H as <-. split; [done|reflexivity].
  - apply bind_Ok in H as (p1 & H1 & H).
    apply bynames_name_sized in H1 as [Hp1 Hpre1]; [|done].
    apply IH in H as [Hp' Hpre]; [|done].
    split; [done|]. now transitivity (final_names p1).
Qed.

Lemma bynames_frames_sized force ndts dts :
  forall i p p',
    plan_sized p ->
    bynames_frames force ndts dts i p = Ok p' ->
    plan_sized p' /\ final_names p `prefix_of` final_names p'.
Proof.
  induction dts as [|df rest IH]; intros i p p' Hp H; simpl in H.
  - injection H as <-. split; [done|reflexivity].
  - apply bind_Ok in H as (u & _ & H). apply bind_Ok in H as (p1 & H1 & H).
    apply bynames_names_sized in H1 as [Hp1 Hpre1]; [|done].
    apply IH in H as [Hp' Hpre]; [|done].
    split; [done|]. now transitivity (final_names p1).
Qed.

Lemma bypos_extend_sized ndts dfnames count :
  forall j p p',
    bypos_extend ndts dfnames count j p = Ok p' ->
    length (final_names p') = (length (final_names p) + count)%nat /\
    length (cols p') = (length (cols p) + count)%nat /\
    final_names p `prefix_of` final_names p'.
Proof.
  induction count as [|count IH]; intros j p p' H; simpl in H.
  - injection H as <-. split_and!; [lia|lia|reflexivity].
  - apply bind_Ok in H as (name & _ & H).
    apply IH in H as (H1 & H2 & H3). simpl in *.
    rewrite length_app in H1, H2. simpl in *. split_and!; [lia|lia|].
    etransitivity; [|exact H3]. now apply prefix_app_r.
Qed.

Lemma bypos_fill_length i count :
  forall j cs cs',
    bypos_fill i count j cs = Ok cs' -> length cs' = length cs.
Proof.
  induction count as [|count IH]; intros j cs cs' H; simpl in H.
  - now injection H as <-.
  - apply bind_Ok in H as (cs1 & H1 & H). apply set_cell_length in H1.
    apply IH in H. congruence.
Qed.

Lemma bypos_frames_sized force ndts dts :
  forall i p p',
    plan_sized p ->
    bypos_frames force ndts dts i p = Ok p' ->
    plan_sized p' /\ final_names p `prefix_of` final_names p'.
Proof.
  induction dts as [|df rest IH]; intros i p p' [Hf Hc] H; simpl in H.
  - injection H as <-. split; [done|reflexivity].
  - apply bind_Ok in H as (p1 & H1 & H).
    apply bind_Ok in H as (cs & Hcs & H). apply bypos_fill_length in Hcs.
    assert (plan_sized p1 /\ final_names p `prefix_of` final_names p1)
      as [[Hf1 Hc1] Hpre1].
    { destruct (decide (plan_n p = ncols_ df)).
      - injection H1 as <-. split; [done|reflexivity].
      - apply bind_Ok in H1 as (u & _ & H1).
        destruct (decide (plan_n p < ncols_ df)%nat).
        + apply bind_Ok in H1 as (p2 & H2 & H1). injection H1 as <-.
          apply bypos_extend_sized in H2 as (E1 & E2 & E3). simpl.
          split; [split; simpl; lia|done].
        + injection H1 as <-. split; [done|reflexivity]. }
    apply IH in H as [Hp' Hpre]; [|split; simpl; congruence].
    split; [done|]. now transitivity (final_names p1).
Qed.

(** A plan has as many names as rows of [cols], and the names it started
    from come first. *)
Lemma plan_columns_sized dt dts force bynames p :
  length (names_ dt) = ncols_ dt ->
  plan_columns dt dts force bynames = Ok p ->
  plan_sized p /\ fst (seed_names dt dts) `prefix_of` final_names p.
Proof.
  intros Hwf H. pose proof (seed_names_length dt dts Hwf) as Hlen.
  unfold plan_columns in H. destruct (seed_names dt dts) as [fnames n0].
  simpl in *. subst n0.
  assert (forall m, plan_sized
            (mkPlan fnames (empty_cols (length fnames) (length dts)) m
               (length fnames))) as Hinit.
  { intros m. split; simpl; [done|]. apply length_replicate. }
  destruct bynames.
  - apply bynames_frames_sized in H; [exact H|apply Hinit].
  - apply bypos_frames_sized in H; [exact H|apply Hinit].
Qed.

(** ** The invariants of the table *)

Lemma cols_to_append_rows dts :
  forall row j cs,
    Forall rows_ok dts ->
    cols_to_append dts row j = Ok cs ->
    Forall2 (fun c d => col_nrows c = nrows_ d) cs dts.
Proof.
  induction dts as [|d rest IH]; intros row j cs Hok H; simpl in H.
  - injection H as <-. constructor.
  - inversion Hok as [|? ? [_ Hd] Hrest]; subst.
    apply bind_Ok in H as (k & _ & H). apply bind_Ok in H as (col & Hcol & H).
    apply bind_Ok in H as (cs' & Hcs & H). injection H as <-.
    constructor; [|exact (IH _ _ _ Hrest Hcs)].
    destruct (decide (k = INVALID_INDEX)).
    + now injection Hcol as <-.
    + unfold get_column, at_ in Hcol.
      destruct (columns_ d !! Z.to_nat k) eqn:E; [|discriminate].
      injection Hcol as <-.
      exact (Forall_lookup_1 _ _ _ _ Hd E).
Qed.

Lemma rbind_nrows_frames cs dts :
  Forall2 (fun c d => col_nrows c = nrows_ d) cs dts ->
  Forall rows_ok dts ->
  forall acc,
    fold_left (fun acc col => size_add acc (col_nrows (materialize col)))
      cs acc
    = fold_left (fun acc d => size_add acc (nrows_ d)) dts acc.
Proof.
  induction 1 as [|c d cs dts Hcd _ IH]; intros Hok acc; [reflexivity|].
  inversion Hok as [|? ? [Hd _] Hrest]; subst. simpl.
  rewrite materialize_nrows by lia. rewrite Hcd. now apply IH.
Qed.

Lemma rbind_each_rows dts (n0 : Z) :
  cast_keeps_stype -> Forall rows_ok dts -> 0 <= n0 ->
  forall col_indices i columns columns',
    rbind_each dts col_indices i columns = (columns', None) ->
    (forall k c, columns !! k = Some c -> (i <= k)%nat ->
                 col_nrows c = n0) ->
    length columns' = length columns /\
    forall k c', columns' !! k = Some c' ->
      if decide (i <= k < i + length col_indices)%nat
      then col_nrows c'
           = fold_left (fun acc d => size_add acc (nrows_ d)) dts n0
      else columns !! k = Some c'.
Proof.
  intros Hcast Hok Hn0.
  induction col_indices as [|row rest IH];
    intros i columns columns' H Hold; simpl in H.
  - injection H as <-. split; [done|]. intros k c' Hk.
    destruct (decide _) as [D|D]; [simpl in D; lia|done].
  - destruct (do cs <- cols_to_append dts row 0; _) as [columns1|e] eqn:E;
      [|discriminate].
    apply bind_Ok in E as (cs & Hcs & E). apply bind_Ok in E as (c & Hc & E).
    apply bind_Ok in E as (c1 & Hc1 & E). injection E as <-.
    unfold at_ in Hc. destruct (columns !! i) as [c0|] eqn:Ei;
      [|discriminate]. injection Hc as ->.
    pose proof (lookup_lt_Some _ _ _ Ei) as Hi.
    assert (col_nrows c1
            = fold_left (fun acc d => size_add acc (nrows_ d)) dts n0)
      as Hrows.
    { rewrite (Column_rbind_nrows c c1 cs Hcast) at 1; try done.
      - unfold rbind_nrows. rewrite (Hold i c Ei) by lia.
        apply rbind_nrows_frames; [|done].
        eapply cols_to_append_rows; eauto.
      - rewrite (Hold i c Ei); lia. }
    apply IH in H as [Hlen Hall].
    + rewrite length_insert in Hlen. split; [done|].
      intros k c' Hk. specialize (Hall k c' Hk).
      destruct (decide (S i <= k < S i + length rest)%nat).
      * destruct (decide _); [done|simpl in *; lia].
      * destruct (decide (k = i)) as [->|Hne].
        -- rewrite list_lookup_insert_eq in Hall by done.
           injection Hall as <-.
           destruct (decide _); [done|simpl in *; lia].
        -- rewrite list_lookup_insert_ne in Hall by done.
           destruct (decide _); [simpl in *; lia|done].
    + intros k c' Hk Hik. rewrite list_lookup_insert_ne in Hk by lia.
      apply (Hold k c' Hk). lia.
Qed.

Lemma fold_size_add_range {A} (f : A -> Z) l :
  forall acc, 0 <= acc < 2 ^ 64 ->
    0 <= fold_left (fun acc x => size_add acc (f x)) l acc < 2 ^ 64.
Proof.
  induction l as [|x l IH]; intros acc H; simpl; [exact H|].
  apply IH. unfold size_add, wrap64. apply Z.mod_pos_bound. lia.
Qed.

(** [DataTable::rbind], when it returns: the table has the new number of
    rows and of columns, and every column has that number of rows. *)
Lemma DataTable_rbind_rows dt dts col_indices dt' :
  cast_keeps_stype ->
  rows_ok dt -> Forall rows_ok dts ->
  length (columns_ dt) = ncols_ dt ->
  (ncols_ dt <= length col_indices)%nat ->
  DataTable_rbind dt dts col_indices = (dt', None) ->
  rows_ok dt' /\ nrows_ dt' = table_new_nrows dt dts /\
  length (columns_ dt') = ncols_ dt' /\
  ncols_ dt' = length col_indices /\ names_ dt' = names_ dt.
Proof.
  intros Hcast [Hn Hcols] Hdts Hlen Hle H. unfold DataTable_rbind in H.
  destruct (rbind_each dts col_indices 0 _) as [cs [e|]] eqn:E;
    [discriminate|]. injection H as <-. simpl.
  apply (rbind_each_rows dts (nrows_ dt) Hcast Hdts) in E as [Hl Hall];
    [|lia|].
  - rewrite length_app, length_replicate in Hl.
    split_and!; try done; [|lia]. split; simpl.
    + exact (fold_size_add_range nrows_ dts (nrows_ dt) Hn).
    + apply Forall_lookup_2. intros k c' Hk. specialize (Hall k c' Hk).
      apply lookup_lt_Some in Hk.
      destruct (decide _); [done|lia].
  - intros k c Hk _. apply lookup_app_Some in Hk as [Hk|[_ Hk]].
    + exact (Forall_lookup_1 _ _ _ _ Hcols Hk).
    + apply lookup_replicate in Hk as [-> _]. reflexivity.
Qed.

(** A call that returns leaves a table of the data model: every column
    has the table's number of rows, that number is a [size_t], and the
    table has as many columns and names as its column count says. *)
Theorem rbind_keeps_table_invariants (dt dt' : DataTable)
    (varargs : list robj) (force bynames : bool) (dts : list DataTable)
    (j : nat) :
  cast_keeps_stype ->
  rows_ok dt -> shape_ok dt ->
  process_varargs varargs ([], 0%nat) = Ok (dts, j) ->
  Forall rows_ok dts ->
  Frame_rbind dt varargs force bynames = (dt', None) ->
  rows_ok dt' /\ shape_ok dt' /\
  nrows_ dt' = table_new_nrows dt dts /\
  (ncols_ dt <> 0%nat -> names_ dt `prefix_of` names_ dt').
Proof.
  intros Hcast Hrows [Hc Hn] Hargs Hdts H. unfold Frame_rbind in H.
  rewrite Hargs in H. destruct dts as [|d0 rest].
  { injection H as <-. split_and!; try done. }
  destruct (decide (0 < nkeys_ dt)%nat); [discriminate|].
  destruct (plan_columns dt (d0 :: rest) force bynames) as [p|e] eqn:Ep;
    [|discriminate].
  apply plan_columns_sized in Ep as [[Hpf Hpc] Hpre]; [|done].
  destruct (DataTable_rbind dt (d0 :: rest) (cols p)) as [dt1 [e|]] eqn:E;
    [discriminate|]. injection H as <-.
  assert (ncols_ dt <= length (cols p))%nat as Hle.
  { rewrite Hpc, <- Hpf. apply prefix_length in Hpre.
    unfold seed_names in Hpre.
    destruct (decide (ncols_ dt = 0%nat)); simpl in Hpre; lia. }
  apply DataTable_rbind_rows in E as (Hr1 & Hn1 & Hl1 & Hc1 & Hnm1);
    try done.
  split_and!; try done.
  - split; simpl; congruence.
  - intros Hnz. simpl. unfold seed_names in Hpre.
    destruct (decide (ncols_ dt = 0%nat)); [contradiction|]. exact Hpre.
Qed.

(** ** The planner with [force] *)

Lemma cols_shape_push ndts n cs :
  cols_shape ndts n cs ->
  cols_shape ndts (S n) (cs ++ [replicate ndts INVALID_INDEX]).
Proof.
  intros [Hl Hr]. split.
  - rewrite length_app. simpl. lia.
  - apply Forall_app. split; [done|]. repeat constructor.
    apply length_replicate.
Qed.

(** One name, [force] on: the step returns; afterwards the name is in
    [final_names], which is as before or has the name, which it did not
    have, added at its end. *)
Lemma bynames_name_force ndts i j name p :
  names_inv p -> cols_shape ndts (plan_n p) (cols p) -> (i < ndts)%nat ->
  exists p',
    bynames_name true ndts i j name p = Ok p' /\
    names_inv p' /\ cols_shape ndts (plan_n p') (cols p') /\
    (final_names p' = final_names p /\ name ∈ final_names p \/
     final_names p' = final_names p ++ [name] /\ name ∉ final_names p).
Proof.
  intros (Hlen & Hrange & Hdom) Hshape Hi. unfold bynames_name.
  assert (forall k, (k < plan_n p)%nat -> name ∈ final_names p ->
    exists p',
      (do cols' <- set_cell (cols p) k i (Z.of_nat j);
       Ok (mkPlan (final_names p) cols' (inames p) (plan_n p))) = Ok p' /\
      names_inv p' /\ cols_shape ndts (plan_n p') (cols p') /\
      (final_names p' = final_names p /\ name ∈ final_names p \/
       final_names p' = final_names p ++ [name] /\ name ∉ final_names p))
    as Hset.
  { intros k Hk Hin.
    destruct (set_cell_shape ndts _ _ k i (Z.of_nat j) Hshape Hk Hi)
      as (cs' & -> & Hs'). simpl. eexists. split; [reflexivity|].
    split_and!; [exact (conj Hlen (conj Hrange Hdom))|done|now left]. }
  assert (inames p !! name = None -> name ∉ final_names p) as Hnot.
  { intros E Hin. apply Hdom in Hin. rewrite E in Hin. now destruct Hin. }
  assert (forall k, inames p !! name = Some k -> name ∈ final_names p)
    as Hyes.
  { intros k E. apply Hdom. eauto. }
  assert (inames p !! name = None ->
    exists p',
      (let n := plan_n p in
       let cols1 := cols p ++ [replicate ndts INVALID_INDEX] in
       do cols' <- set_cell cols1 n i (Z.of_nat j);
       Ok (mkPlan (final_names p ++ [name]) cols'
             (<[name := n]> (inames p)) (S n))) = Ok p' /\
      names_inv p' /\ cols_shape ndts (plan_n p') (cols p') /\
      (final_names p' = final_names p /\ name ∈ final_names p \/
       final_names p' = final_names p ++ [name] /\ name ∉ final_names p))
    as Hpush.
  { intros E. cbn zeta.
    destruct (set_cell_shape ndts (S (plan_n p))
                (cols p ++ [replicate ndts INVALID_INDEX]) (plan_n p) i
                (Z.of_nat j) (cols_shape_push _ _ _ Hshape))
      as (cs' & -> & Hs'); [lia|done|]. simpl.
    eexists. split; [reflexivity|].
    split; [|split; [done|right; split; [done|now apply Hnot]]].
    unfold names_inv. simpl. split; [|split].
    - rewrite length_app. simpl. lia.
    - intros x k. destruct (decide (name = x)) as [->|Hne].
      + rewrite lookup_insert_eq. intros [= <-]. lia.
      + rewrite lookup_insert_ne by done. intros Hk.
        apply Hrange in Hk. lia.
    - intros x. rewrite elem_of_app, list_elem_of_singleton.
      destruct (decide (name = x)) as [->|Hne].
      + rewrite lookup_insert_eq. split; [eauto|auto].
      + rewrite lookup_insert_ne by done. rewrite Hdom.
        split; [intros [H|H]; [done|congruence]|auto]. }
  destruct (decide (j < plan_n p)%nat) as [Hj|Hj]; simpl.
  - unfold at_. destruct (final_names p !! j) as [f|] eqn:Ef; simpl.
    2:{ apply lookup_ge_None in Ef. lia. }
    case_bool_decide as Hname.
    + subst f. apply Hset; [done|]. eapply list_elem_of_lookup_2; eauto.
    + destruct (inames p !! name) as [k|] eqn:Ek; [|now apply Hpush].
      apply Hset; [eapply Hrange; eauto|eapply Hyes; eauto].
  - destruct (inames p !! name) as [k|] eqn:Ek; [|now apply Hpush].
    apply Hset; [eapply Hrange; eauto|eapply Hyes; eauto].
Qed.

Lemma bynames_names_force ndts i dfnames :
  forall j p,
    names_inv p -> cols_shape ndts (plan_n p) (cols p) -> (i < ndts)%nat ->
    exists p',
      bynames_names true ndts i dfnames j p = Ok p' /\
      names_inv p' /\ cols_shape ndts (plan_n p') (cols p') /\
      (forall x, x ∈ final_names p' <-> x ∈ final_names p \/ x ∈ dfnames) /\
      (NoDup (final_names p) -> NoDup (final_names p')).
Proof.
  induction dfnames as [|name rest IH]; intros j p Hinv Hshape Hi; simpl.
  - exists p. split_and!; try done. intros x. rewrite elem_of_nil. tauto.
  - destruct (bynames_name_force ndts i j name p Hinv Hshape Hi)
      as (p1 & -> & Hinv1 & Hs1 & Hnames). cbn [bind].
    destruct (IH (S j) p1 Hinv1 Hs1 Hi)
      as (p2 & -> & Hinv2 & Hs2 & Hin2 & Hnd2).
    exists p2. split_and!; try done.
    + intros x. rewrite Hin2, elem_of_cons.
      destruct Hnames as [[-> Hin]|[-> Hnot]].
      * split; [tauto|]. intros [H|[->|H]]; auto.
      * rewrite elem_of_app, list_elem_of_singleton. tauto.
    + intros Hnd. apply Hnd2.
      destruct Hnames as [[-> _]|[-> Hnot]]; [done|].
      apply NoDup_app. split_and!; [done| |apply NoDup_singleton].
      intros x Hx Hx'. apply list_elem_of_singleton in Hx'. now subst.
Qed.

Lemma bynames_frames_force ndts dts :
  forall i p,
    names_inv p -> cols_shape ndts (plan_n p) (cols p) ->
    (i + length dts <= ndts)%nat ->
    exists p',
      bynames_frames true ndts dts i p = Ok p' /\
      names_inv p' /\ cols_shape ndts (plan_n p') (cols p') /\
      (forall x, x ∈ final_names p' <->
                 x ∈ final_names p \/
                 exists df, df ∈ dts /\ x ∈ names_ df) /\
      (NoDup (final_names p) -> NoDup (final_names p')).
Proof.
  induction dts as [|df rest IH]; intros i p Hinv Hshape Hi; simpl.
  - exists p. split_and!; try done. intros x. split; [auto|].
    intros [H|(df & Hdf & _)]; [done|]. now apply elem_of_nil in Hdf.
  - simpl in Hi.
    destruct (bynames_names_force ndts i (names_ df) 0%nat p Hinv Hshape)
      as (p1 & -> & Hinv1 & Hs1 & Hin1 & Hnd1); [lia|]. cbn [bind].
    destruct (IH (S i) p1 Hinv1 Hs1) as (p2 & -> & Hinv2 & Hs2 & Hin2 & Hnd2);
      [lia|].
    exists p2. split_and!; try done; [|auto].
    intros x. rewrite Hin2, Hin1. split.
    + intros [[H|H]|(d & Hd & H)]; [auto| |].
      * right. exists df. split; [apply elem_of_cons; now left|done].
      * right. exists d. split; [apply elem_of_cons; now right|done].
    + intros [H|(d & Hd & H)]; [auto|].
      apply elem_of_cons in Hd as [->|Hd]; [auto|]. right. eauto.
Qed.

(** By names with [force], on a target whose name list matches its
    columns: the planner returns a plan.  The names it started from come
    first in the final names, the final names are these and the names of
    the frames' columns and no others, and no name is repeated unless one
    was at the start. *)
Theorem plan_bynames_force (dt : DataTable) (dts : list DataTable) :
  length (names_ dt) = ncols_ dt ->
  exists p,
    plan_columns dt dts true true = Ok p /\
    plan_sized p /\
    fst (seed_names dt dts) `prefix_of` final_names p /\
    (forall x, x ∈ final_names p <->
               x ∈ fst (seed_names dt dts) \/
               exists df, df ∈ dts /\ x ∈ names_ df) /\
    (NoDup (fst (seed_names dt dts)) -> NoDup (final_names p)).
Proof.
  intros Hwf. pose proof (seed_names_length dt dts Hwf) as Hlen.
  pose proof (plan_columns_sized dt dts true true) as Hsized.
  unfold plan_columns in *. destruct (seed_names dt dts) as [fnames n0].
  simpl in *. subst n0.
  destruct (bynames_frames_force (length dts) dts 0%nat
              (mkPlan fnames (empty_cols (length fnames) (length dts))
                 (index_names fnames 0 ∅) (length fnames))
              (index_names_inv _ _) (empty_cols_shape _ _) (le_n _))
    as (p & Hp & _ & _ & Hin & Hnd).
  exists p. destruct (Hsized p Hwf Hp) as [Hs Hpre].
  split_and!; done.
Qed.

(** ** The plan by position *)

Lemma set_cell_cell cs r c v cs' :
  set_cell cs r c v = Ok cs' ->
  forall k i, cell cs' k i =
              if decide (k = r /\ i = c) then Some v else cell cs k i.
Proof.
  unfold set_cell, cell. intros H k i.
  destruct (cs !! r) as [row|] eqn:Er; [|done].
  destruct (decide (c < length row)%nat) as [Hc|]; [|done].
  injection H as <-. apply lookup_lt_Some in Er as Hr.
  destruct (decide (k = r)) as [->|Hk].
  - rewrite list_lookup_insert_eq by done. rewrite Er. simpl.
    destruct (decide (i = c)) as [->|Hi].
    + rewrite list_lookup_insert_eq by done.
      now rewrite decide_True by done.
    + rewrite list_lookup_insert_ne by done.
      rewrite decide_False by tauto. done.
  - rewrite list_lookup_insert_ne by done.
    rewrite decide_False by tauto. done.
Qed.

Lemma cell_replicate n ndts k i :
  (k < n)%nat -> (i < ndts)%nat ->
  cell (replicate n (replicate ndts INVALID_INDEX)) k i = Some INVALID_INDEX.
Proof.
  intros Hk Hi. unfold cell. rewrite lookup_replicate_2 by done. simpl.
  now rewrite lookup_replicate_2.
Qed.

Lemma cell_app_l cs cs2 k i :
  (k < length cs)%nat -> cell (cs ++ cs2) k i = cell cs k i.
Proof. intros Hk. unfold cell. now rewrite lookup_app_l. Qed.

Lemma cell_app_r cs cs2 k i :
  (length cs <= k)%nat -> cell (cs ++ cs2) k i = cell cs2 (k - length cs) i.
Proof. intros Hk. unfold cell. now rewrite lookup_app_r. Qed.

Lemma bypos_fill_cell i count :
  forall j cs cs',
    bypos_fill i count j cs = Ok cs' ->
    forall k i', cell cs' k i' =
                 if decide (i' = i /\ j <= k < j + count)%nat
                 then Some (Z.of_nat k) else cell cs k i'.
Proof.
  induction count as [|count IH]; intros j cs cs' H k i'; simpl in H.
  - injection H as <-. rewrite decide_False by lia. done.
  - apply bind_Ok in H as (cs1 & H1 & H).
    rewrite (IH _ _ _ H), (set_cell_cell _ _ _ _ _ H1).
    destruct (decide (i' = i /\ S j <= k < S j + count)%nat) as [D|D].
    + now rewrite decide_True by lia.
    + destruct (decide (k = j /\ i' = i)) as [[-> ->]|D2].
      * now rewrite decide_True by lia.
      * now rewrite decide_False by lia.
Qed.

Lemma bypos_extend_spec ndts dfnames count :
  forall j p,
    (j + count <= length dfnames)%nat ->
    bypos_extend ndts dfnames count j p =
    Ok (mkPlan (final_names p ++ take count (drop j dfnames))
          (cols p ++ replicate count (replicate ndts INVALID_INDEX))
          (inames p) (plan_n p)).
Proof.
  induction count as [|count IH]; intros j p Hj; simpl.
  - rewrite !app_nil_r. now destruct p.
  - unfold at_. destruct (dfnames !! j) as [name|] eqn:E.
    2:{ apply lookup_ge_None in E. lia. }
    simpl. rewrite IH by lia. simpl.
    rewrite <- !app_assoc. simpl.
    rewrite (drop_S _ _ _ E). done.
Qed.

Lemma bypos_extend_bound ndts dfnames count :
  forall j p p',
    bypos_extend ndts dfnames count j p = Ok p' ->
    (0 < count)%nat -> (j + count <= length dfnames)%nat.
Proof.
  induction count as [|count IH]; intros j p p' H Hc; [lia|]. simpl in H.
  apply bind_Ok in H as (name & Hn & H). unfold at_ in Hn.
  destruct (dfnames !! j) eqn:E; [|done]. apply lookup_lt_Some in E.
  destruct count as [|count']; [lia|]. apply IH in H; lia.
Qed.

(** The step of the loop by position that brings [n] up to the frame's
    number of columns. *)
Lemma bypos_grow_spec (force : bool) ndts df p p1 :
  (if decide (plan_n p = ncols_ df) then Ok p
   else
     do _ <- (if force then Ok tt
              else _check_ncols (plan_n p) (ncols_ df));
     if decide (plan_n p < ncols_ df)%nat then
       do p' <- bypos_extend ndts (names_ df)
                  (ncols_ df - plan_n p) (plan_n p) p;
       Ok (mkPlan (final_names p') (cols p') (inames p') (ncols_ df))
     else Ok p) = Ok p1 ->
  let extra := take (ncols_ df - plan_n p) (drop (plan_n p) (names_ df)) in
  final_names p1 = final_names p ++ extra /\
  cols p1 = cols p ++
            replicate (length extra) (replicate ndts INVALID_INDEX) /\
  plan_n p1 = Nat.max (plan_n p) (ncols_ df) /\
  (plan_n p + length extra = plan_n p1)%nat.
Proof.
  intros H extra. subst extra.
  assert (forall l : list string, take 0 l = []) as T0 by done.
  destruct (decide (plan_n p = ncols_ df)) as [E|E].
  - injection H as <-. rewrite E, Nat.sub_diag, T0. simpl.
    rewrite !app_nil_r. split_and!; [done|done|lia|lia].
  - apply bind_Ok in H as (u & _ & H).
    destruct (decide (plan_n p < ncols_ df)%nat) as [L|L].
    + apply bind_Ok in H as (p2 & H2 & H). injection H as <-.
      pose proof (bypos_extend_bound _ _ _ _ _ _ H2) as Hb.
      rewrite bypos_extend_spec in H2 by lia. injection H2 as <-. simpl.
      rewrite length_take, length_drop.
      split_and!; [done|f_equal; f_equal; lia|lia|lia].
    + injection H as <-.
      replace (ncols_ df - plan_n p)%nat with 0%nat by lia.
      rewrite T0. simpl. rewrite !app_nil_r.
      split_and!; [done|done|lia|lia].
Qed.

Lemma bypos_frames_matrix force ndts todo :
  forall done_ p p',
    bypos_frames force ndts todo (length done_) p = Ok p' ->
    ndts = length (done_ ++ todo) ->
    cols_shape ndts (plan_n p) (cols p) ->
    Forall (fun df => (ncols_ df <= plan_n p)%nat) done_ ->
    (forall k i, (k < plan_n p)%nat -> (i < ndts)%nat ->
       cell (cols p) k i = Some (bypos_entry k (done_ !! i))) ->
    plan_n p' = fold_left Nat.max (ncols_ <$> todo) (plan_n p) /\
    forall k i, (k < plan_n p')%nat -> (i < ndts)%nat ->
      cell (cols p') k i = Some (bypos_entry k ((done_ ++ todo) !! i)).
Proof.
  induction todo as [|df rest IH]; intros done_ p p' H Hn Hshape Hdone Hcell.
  - simpl in H. injection H as <-. rewrite app_nil_r. done.
  - simpl in H. apply bind_Ok in H as (p1 & H1 & H).
    apply bind_Ok in H as (cs & Hcs & H).
    apply bypos_grow_spec in H1 as (_ & Hc1 & Hn1 & Hlen).
    set (extra := take (ncols_ df - plan_n p)
                    (drop (plan_n p) (names_ df))) in *.
    destruct Hshape as [Hl Hrows].
    assert (cols_shape ndts (plan_n p1) (cols p1)) as Hshape1.
    { rewrite Hc1. split.
      - rewrite length_app, length_replicate. lia.
      - apply Forall_app. split; [done|]. apply Forall_replicate.
        apply length_replicate. }
    rewrite length_app in Hn. simpl in Hn.
    destruct (bypos_fill_shape ndts (plan_n p1) (length done_) (ncols_ df)
                0%nat (cols p1) Hshape1) as (cs' & Hcs' & Hshape2);
      [lia|lia|].
    rewrite Hcs in Hcs'. injection Hcs' as <-.
    assert (length (done_ ++ [df]) = S (length done_)) as Hlen'.
    { rewrite length_app. simpl. lia. }
    rewrite <- Hlen' in H.
    apply IH in H; simpl.
    + rewrite <- app_assoc in H. simpl in H. rewrite Hn1 in H. exact H.
    + rewrite length_app, Hlen'. lia.
    + exact Hshape2.
    + apply Forall_app. split.
      * eapply Forall_impl; [exact Hdone|]. simpl. intros. lia.
      * repeat constructor. lia.
    + intros k i Hk Hi.
      rewrite (bypos_fill_cell _ _ _ _ _ Hcs). rewrite Hc1.
      assert (cell (cols p ++
                    replicate (length extra)
                      (replicate ndts INVALID_INDEX)) k i =
              Some (bypos_entry k (done_ !! i))) as Hold.
      { destruct (decide (k < plan_n p)%nat) as [Hkp|Hkp].
        - rewrite cell_app_l by lia. apply Hcell; [done|lia].
        - rewrite cell_app_r by lia.
          rewrite cell_replicate by lia. f_equal. unfold bypos_entry.
          destruct (done_ !! i) as [d|] eqn:Ed; [|done].
          assert (ncols_ d <= plan_n p)%nat as Hd.
          { exact (Forall_lookup_1 _ _ _ _ Hdone Ed). }
          now rewrite decide_False by lia. }
      destruct (decide (i = length done_)) as [->|Hi'].
      * rewrite lookup_app_r by lia. rewrite Nat.sub_diag. simpl.
        destruct (decide (k < ncols_ df)%nat) as [Hkd|Hkd].
        -- now rewrite decide_True by lia.
        -- rewrite decide_False by lia. rewrite Hold.
           now rewrite lookup_ge_None_2 by lia.
      * rewrite decide_False by lia. rewrite Hold. f_equal. f_equal.
        destruct (decide (i < length done_)%nat).
        -- now rewrite lookup_app_l by lia.
        -- rewrite !lookup_ge_None_2; [done|rewrite Hlen'; lia|lia].
Qed.

(** By position, on a target whose name list matches its columns, when
    the planner returns a plan: the plan has as many columns as the
    widest of the frames and the seed; a frame's entry for final column
    [k] is [k] where the frame has a column [k], and [INVALID_INDEX]
    where it has not. *)
Theorem plan_bypos_matrix (dt : DataTable) (dts : list DataTable)
    (force : bool) (p : Plan) :
  length (names_ dt) = ncols_ dt ->
  plan_columns dt dts force false = Ok p ->
  plan_n p = fold_left Nat.max (ncols_ <$> dts) (snd (seed_names dt dts)) /\
  forall k i df,
    (k < plan_n p)%nat -> dts !! i = Some df ->
    cell (cols p) k i =
    Some (if decide (k < ncols_ df)%nat then Z.of_nat k
          else INVALID_INDEX).
Proof.
  intros Hwf H. unfold plan_columns in H.
  destruct (seed_names dt dts) as [fnames n0]. simpl.
  apply (bypos_frames_matrix force (length dts) dts []) in H; simpl.
  - destruct H as [Hn Hc]. split; [exact Hn|].
    intros k i df Hk Hi. rewrite (Hc k i Hk); [|eapply lookup_lt_Some; eauto].
    change ([] ++ dts) with dts. now rewrite Hi.
  - done.
  - apply empty_cols_shape.
  - constructor.
  - intros k i Hk Hi. unfold empty_cols. now rewrite cell_replicate.
Qed.

Lemma bypos_frames_names force ndts todo :
  forall i0 p p',
    bypos_frames force ndts todo i0 p = Ok p' ->
    plan_sized p ->
    forall k i df,
      (plan_n p <= k)%nat -> todo !! i = Some df -> (k < ncols_ df)%nat ->
      (forall i' df', (i' < i)%nat -> todo !! i' = Some df' ->
                      (ncols_ df' <= k)%nat) ->
      final_names p' !! k = names_ df !! k /\ is_Some (names_ df !! k).
Proof.
  induction todo as [|df0 rest IH];
    intros i0 p p' H Hsized k i df Hk Hi Hkd Hfirst; [done|].
  simpl in H. apply bind_Ok in H as (p1 & H1 & H).
  apply bind_Ok in H as (cs & Hcs & H).
  assert (plan_sized
            (mkPlan (final_names p1) cs (inames p1) (plan_n p1))) as Hs1.
  { apply bypos_fill_length in Hcs.
    apply bypos_grow_spec in H1 as (Hf1 & Hc1 & Hn1 & Hlen).
    destruct Hsized as [Hf Hc]. split; simpl.
    - rewrite Hf1, length_app. lia.
    - rewrite Hcs, Hc1, length_app, length_replicate. lia. }
  destruct i as [|i].
  - simpl in Hi. injection Hi as ->.
    destruct (decide (plan_n p = ncols_ df)) as [E|E]; [lia|].
    apply bind_Ok in H1 as (u & _ & H1).
    destruct (decide (plan_n p < ncols_ df)%nat) as [L|L]; [|lia].
    apply bind_Ok in H1 as (p2 & H2 & H1). injection H1 as <-.
    pose proof (bypos_extend_bound _ _ _ _ _ _ H2) as Hb.
    rewrite bypos_extend_spec in H2 by lia. injection H2 as <-.
    simpl in *.
    destruct (lookup_lt_is_Some_2 (names_ df) k) as [x Hx]; [lia|].
    split; [|eauto]. rewrite Hx.
    apply (bypos_frames_sized _ _ _ _ _ _ Hs1) in H as [_ Hpre].
    simpl in Hpre. eapply prefix_lookup_Some; [|exact Hpre].
    destruct Hsized as [Hf _].
    rewrite lookup_app_r by lia. rewrite lookup_take_lt by lia.
    rewrite lookup_drop. rewrite <- Hx. f_equal. lia.
  - simpl in Hi.
    assert (ncols_ df0 <= k)%nat as H0.
    { apply (Hfirst 0%nat df0); [lia|done]. }
    apply bypos_grow_spec in H1 as (_ & _ & Hn1 & _).
    eapply (IH _ _ _ H Hs1 k i df); simpl; [lia|done|done|].
    intros i' df' Hi' Hd'. apply (Hfirst (S i') df'); [lia|done].
Qed.

(** By position, a final column past the seed takes its name from the
    first frame that has a column at that position. *)
Theorem plan_bypos_names (dt : DataTable) (dts : list DataTable)
    (force : bool) (p : Plan) (k i : nat) (df : DataTable) :
  length (names_ dt) = ncols_ dt ->
  plan_columns dt dts force false = Ok p ->
  (snd (seed_names dt dts) <= k)%nat ->
  dts !! i = Some df -> (k < ncols_ df)%nat ->
  (forall i' df', (i' < i)%nat -> dts !! i' = Some df' ->
                  (ncols_ df' <= k)%nat) ->
  final_names p !! k = names_ df !! k /\ is_Some (names_ df !! k).
Proof.
  intros Hwf H Hk Hi Hkd Hfirst.
  pose proof (seed_names_length dt dts Hwf) as Hlen.
  unfold plan_columns in H. destruct (seed_names dt dts) as [fnames n0].
  simpl in *. subst n0.
  eapply (bypos_frames_names _ _ _ _ _ _ H); simpl; eauto.
  split; simpl; [done|]. apply length_replicate.
Qed.

Lemma bypos_frames_force ndts dts :
  forall i p,
    cols_shape ndts (plan_n p) (cols p) ->
    (i + length dts <= ndts)%nat ->
    Forall (fun df => (ncols_ df <= length (names_ df))%nat) dts ->
    exists p', bypos_frames true ndts dts i p = Ok p'.
Proof.
  induction dts as [|df rest IH]; intros i p Hshape Hi Hnames.
  - simpl. eauto.
  - cbn [bypos_frames]. simpl in Hi.
    apply Forall_cons in Hnames as [Hdf Hrest].
    assert (exists p1,
      (if decide (plan_n p = ncols_ df) then Ok p
       else
         do _ <- Ok tt;
         if decide (plan_n p < ncols_ df)%nat then
           do p' <- bypos_extend ndts (names_ df)
                      (ncols_ df - plan_n p) (plan_n p) p;
           Ok (mkPlan (final_names p') (cols p') (inames p') (ncols_ df))
         else Ok p) = Ok p1) as [p1 H1].
    { destruct (decide (plan_n p = ncols_ df)); [eauto|]. cbn [bind].
      destruct (decide (plan_n p < ncols_ df)%nat); [|eauto].
      rewrite bypos_extend_spec by lia. cbn [bind]. eauto. }
    rewrite H1. cbn [bind].
    apply (bypos_grow_spec true) in H1 as (_ & Hc1 & Hn1 & Hlen).
    assert (cols_shape ndts (plan_n p1) (cols p1)) as Hshape1.
    { destruct Hshape as [Hl Hrows]. rewrite Hc1. split.
      - rewrite length_app, length_replicate. lia.
      - apply Forall_app. split; [done|]. apply Forall_replicate.
        apply length_replicate. }
    destruct (bypos_fill_shape ndts (plan_n p1) i (ncols_ df) 0%nat (cols p1)
                Hshape1) as (cs & -> & Hs); [lia|lia|]. cbn [bind].
    apply IH; [exact Hs|lia|exact Hrest].
Qed.

(** By position with [force], on frames whose name lists cover their
    columns, the planner returns a plan. *)
Theorem plan_bypos_force (dt : DataTable) (dts : list DataTable) :
  Forall (fun df => (ncols_ df <= length (names_ df))%nat) dts ->
  exists p, plan_columns dt dts true false = Ok p.
Proof.
  intros Hnames. unfold plan_columns.
  destruct (seed_names dt dts) as [fnames n0].
  apply bypos_frames_force; [apply empty_cols_shape|simpl; lia|done].
Qed.

(** ** The plan by names *)

Lemma names_entry_absent l name :
  name ∉ l -> names_entry l name (Some INVALID_INDEX).
Proof.
  intros H. split; [|done]. intros j [Hj _]. exfalso. apply H.
  eapply list_elem_of_lookup_2; eauto.
Qed.

Lemma names_entry_snoc_eq l name :
  names_entry (l ++ [name]) name (Some (Z.of_nat (length l))).
Proof.
  split.
  - intros j [Hj Hlast]. destruct (decide (j < length l)%nat) as [L|L].
    + exfalso. apply (Hlast (length l)); [done|].
      rewrite lookup_app_r by lia. now rewrite Nat.sub_diag.
    + apply lookup_lt_Some in Hj. rewrite length_app in Hj. simpl in Hj.
      do 2 f_equal. lia.
  - intros H. exfalso. apply H. apply elem_of_app. right.
    now apply list_elem_of_singleton.
Qed.

Lemma names_entry_snoc_ne l x name v :
  x <> name -> names_entry l name v -> names_entry (l ++ [x]) name v.
Proof.
  intros Hne [Ha Hb]. split.
  - intros j [Hj Hlast]. apply Ha.
    destruct (decide (j < length l)%nat) as [L|L].
    + split; [now rewrite lookup_app_l in Hj|].
      intros j' Hj' E. apply (Hlast j' Hj').
      apply lookup_lt_Some in E as L'. now rewrite lookup_app_l.
    + rewrite lookup_app_r in Hj by lia.
      destruct (j - length l)%nat; simpl in Hj; [congruence|discriminate].
  - intros H. apply Hb. intros Hin. apply H. apply elem_of_app. now left.
Qed.

Lemma set_cell_inv ndts n cs r c v cs' :
  cols_shape ndts n cs -> set_cell cs r c v = Ok cs' ->
  (r < n)%nat /\ (c < ndts)%nat /\ cols_shape ndts n cs'.
Proof.
  intros Hs H. assert ((r < n)%nat /\ (c < ndts)%nat) as [Hr Hc].
  { destruct Hs as [Hl Hrows]. unfold set_cell in H.
    destruct (cs !! r) as [row|] eqn:E; [|done].
    destruct (decide (c < length row)%nat) as [D|]; [|done].
    split; [apply lookup_lt_Some in E; lia|].
    now rewrite <- (Forall_lookup_1 _ _ _ _ Hrows E). }
  destruct (set_cell_shape ndts n cs r c v Hs Hr Hc) as (cs'' & E & Hs').
  rewrite H in E. injection E as <-. done.
Qed.

Lemma names_bij_inj p k k' name :
  names_bij p -> final_names p !! k = Some name ->
  final_names p !! k' = Some name -> k = k'.
Proof.
  intros [_ Hbij] H H'. apply Hbij in H, H'. congruence.
Qed.

Lemma prefix_lookup_inv {A} (l1 l2 : list A) k x :
  l1 `prefix_of` l2 -> l2 !! k = Some x -> (k < length l1)%nat ->
  l1 !! k = Some x.
Proof. intros [ext ->] H Hk. now rewrite lookup_app_l in H. Qed.

(** A name at a position the longer list added is not in the shorter. *)
Lemma names_bij_new p p1 k name :
  names_bij p1 -> final_names p `prefix_of` final_names p1 ->
  final_names p1 !! k = Some name -> (length (final_names p) <= k)%nat ->
  name ∉ final_names p.
Proof.
  intros Hbij Hpre Hk Hlen Hin.
  apply list_elem_of_lookup_1 in Hin as [k' Hk'].
  apply lookup_lt_Some in Hk' as L.
  pose proof (prefix_lookup_Some _ _ _ _ Hk' Hpre) as Hk1.
  pose proof (names_bij_inj _ _ _ _ Hbij Hk Hk1). lia.
Qed.

(** One name through the lookup: where it lands and what it writes. *)
Lemma lookup_name_step force ndts i j name p p' :
  names_bij p -> cols_shape ndts (plan_n p) (cols p) ->
  lookup_name force ndts i j name p = Ok p' ->
  cols_shape ndts (plan_n p') (cols p') /\
  final_names p `prefix_of` final_names p' /\
  (plan_n p <= plan_n p')%nat /\ (i < ndts)%nat /\
  exists k,
    final_names p' !! k = Some name /\
    forall k' i', (k' < plan_n p')%nat -> (i' < ndts)%nat ->
      cell (cols p') k' i' =
      if decide (k' = k /\ i' = i) then Some (Z.of_nat j)
      else if decide (k' < plan_n p)%nat then cell (cols p) k' i'
           else Some INVALID_INDEX.
Proof.
  intros [Hlen Hbij] Hshape H. unfold lookup_name in H.
  destruct (inames p !! name) as [k|] eqn:Ek.
  - apply bind_Ok in H as (cs' & Hset & H). injection H as <-. simpl.
    destruct (set_cell_inv _ _ _ _ _ _ _ Hshape Hset) as (Hk & Hi & Hs').
    split_and!; [done|reflexivity|lia|done|].
    exists k. split; [now apply Hbij|]. intros k' i' Hk' Hi'.
    rewrite (set_cell_cell _ _ _ _ _ Hset).
    now rewrite (decide_True (P := (k' < plan_n p)%nat)) by done.
  - destruct force; [|discriminate]. cbn zeta in H.
    apply bind_Ok in H as (cs' & Hset & H). injection H as <-. simpl.
    destruct (set_cell_inv _ _ _ _ _ _ _ (cols_shape_push _ _ _ Hshape) Hset)
      as (Hk & Hi & Hs').
    split_and!; [done|now apply prefix_app_r|lia|done|].
    exists (plan_n p). split.
    { rewrite lookup_app_r by lia. now rewrite Hlen, Nat.sub_diag. }
    intros k' i' Hk' Hi'. rewrite (set_cell_cell _ _ _ _ _ Hset).
    destruct (decide (k' = plan_n p /\ i' = i)); [done|].
    destruct Hshape as [Hl _].
    destruct (decide (k' < plan_n p)%nat).
    + now rewrite cell_app_l by lia.
    + rewrite cell_app_r by lia.
      replace (k' - length (cols p))%nat with 0%nat by lia.
      unfold cell. simpl. now rewrite lookup_replicate_2.
Qed.

Lemma lookup_names_col force ndts i dfnames :
  forall cur p p',
    names_bij p -> cols_shape ndts (plan_n p) (cols p) ->
    lookup_names force ndts i dfnames (length cur) p = Ok p' ->
    (forall k name, final_names p !! k = Some name ->
       names_entry cur name (cell (cols p) k i)) ->
    (forall x, x ∈ cur -> x ∈ final_names p) ->
    names_bij p' /\ cols_shape ndts (plan_n p') (cols p') /\
    final_names p `prefix_of` final_names p' /\
    (forall k name, final_names p' !! k = Some name ->
       names_entry (cur ++ dfnames) name (cell (cols p') k i)) /\
    (forall x, x ∈ cur ++ dfnames -> x ∈ final_names p') /\
    (forall k' i', (k' < plan_n p')%nat -> (i' < ndts)%nat -> i' <> i ->
       cell (cols p') k' i' =
       if decide (k' < plan_n p)%nat then cell (cols p) k' i'
       else Some INVALID_INDEX).
Proof.
  induction dfnames as [|x rest IH];
    intros cur p p' Hbij Hshape H Hcol Hcur; simpl in H.
  - injection H as <-. rewrite app_nil_r.
    split_and!; [done|done|reflexivity|done|done|].
    intros k' i' Hk' _ _. now rewrite decide_True by done.
  - apply bind_Ok in H as (p1 & H1 & H).
    pose proof (lookup_name_bij _ _ _ _ _ _ _ Hbij H1) as Hbij1.
    destruct (lookup_name_step _ _ _ _ _ _ _ Hbij Hshape H1)
      as (Hs1 & Hpre1 & Hn1 & Hi & k & Hk & Hcell1).
    assert (length (cur ++ [x]) = S (length cur)) as Hlen'.
    { rewrite length_app. simpl. lia. }
    rewrite <- Hlen' in H.
    apply IH in H as (Hbij' & Hs' & Hpre' & Hcol' & Hcur' & Hoth');
      [|done|done| |].
    + rewrite <- app_assoc in Hcol', Hcur'. simpl in Hcol', Hcur'.
      split_and!; [done|done|now transitivity (final_names p1)|done|done|].
      intros k' i' Hk' Hi' Hne. rewrite (Hoth' k' i' Hk' Hi' Hne).
      destruct (decide (k' < plan_n p1)%nat) as [L1|L1].
      * rewrite (Hcell1 k' i' L1 Hi'). now rewrite decide_False by tauto.
      * now rewrite decide_False by lia.
    + intros k' name' Hk'.
      assert (k' < plan_n p1)%nat as L1.
      { apply lookup_lt_Some in Hk'. destruct Hbij1 as [<- _]. done. }
      rewrite (Hcell1 k' i L1 Hi).
      destruct (decide (k' = k)) as [->|Hkk].
      * rewrite decide_True by done.
        assert (name' = x) as -> by congruence.
        apply names_entry_snoc_eq.
      * rewrite decide_False by tauto.
        assert (x <> name') as Hne.
        { intros ->. apply Hkk.
          exact (names_bij_inj _ _ _ _ Hbij1 Hk' Hk). }
        destruct Hbij as [Hlen Hb].
        destruct (decide (k' < plan_n p)%nat) as [L|L].
        -- apply names_entry_snoc_ne; [done|]. apply Hcol.
           apply (prefix_lookup_inv _ _ _ _ Hpre1 Hk'). lia.
        -- apply names_entry_absent. intros Hin.
           apply elem_of_app in Hin as [Hin|Hin].
           ++ apply Hcur in Hin. revert Hin.
              apply (names_bij_new p p1 k' name' Hbij1 Hpre1 Hk'). lia.
           ++ apply list_elem_of_singleton in Hin. congruence.
    + intros y Hy. apply elem_of_app in Hy as [Hy|Hy].
      * apply Hcur in Hy. destruct Hpre1 as [ext ->].
        apply elem_of_app. now left.
      * apply list_elem_of_singleton in Hy as ->.
        eapply list_elem_of_lookup_2; eauto.
Qed.

Lemma lookup_frames_matrix force ndts todo :
  forall done_ p p',
    lookup_frames force ndts todo (length done_) p = Ok p' ->
    ndts = length (done_ ++ todo) ->
    names_bij p -> cols_shape ndts (plan_n p) (cols p) ->
    (forall i df k name,
       done_ !! i = Some df -> final_names p !! k = Some name ->
       names_entry (names_ df) name (cell (cols p) k i)) ->
    (forall i k, (length done_ <= i < ndts)%nat -> (k < plan_n p)%nat ->
       cell (cols p) k i = Some INVALID_INDEX) ->
    (forall df x, df ∈ done_ -> x ∈ names_ df -> x ∈ final_names p) ->
    names_bij p' /\
    (forall i df k name,
       (done_ ++ todo) !! i = Some df -> final_names p' !! k = Some name ->
       names_entry (names_ df) name (cell (cols p') k i)) /\
    (forall df x, df ∈ done_ ++ todo -> x ∈ names_ df ->
                  x ∈ final_names p').
Proof.
  induction todo as [|df rest IH];
    intros done_ p p' H Hn Hbij Hshape Hdone Hnew Hcov; simpl in H.
  - injection H as <-. rewrite app_nil_r. done.
  - apply bind_Ok in H as (u & _ & H). apply bind_Ok in H as (p1 & H1 & H).
    rewrite length_app in Hn. simpl in Hn.
    assert (length (final_names p) = plan_n p) as Hlen by apply Hbij.
    apply (lookup_names_col force ndts (length done_) (names_ df) [])
      in H1 as (Hbij1 & Hs1 & Hpre1 & Hcol1 & Hcur1 & Hoth1);
      [|done|done| |].
    2:{ intros k name Hk. rewrite Hnew.
        - apply names_entry_absent, not_elem_of_nil.
        - lia.
        - apply lookup_lt_Some in Hk. lia. }
    2:{ intros x Hx. now apply elem_of_nil in Hx. }
    simpl in Hcol1, Hcur1.
    assert (length (done_ ++ [df]) = S (length done_)) as Hlen'.
    { rewrite length_app. simpl. lia. }
    rewrite <- Hlen' in H.
    apply IH in H as (Hbij' & Hcells' & Hcov'); [| | | | | |].
    + rewrite <- app_assoc in Hcells', Hcov'. done.
    + rewrite length_app, Hlen'. lia.
    + done.
    + done.
    + intros i d k name Hi Hk.
      assert (k < plan_n p1)%nat as L1.
      { apply lookup_lt_Some in Hk. destruct Hbij1 as [<- _]. done. }
      destruct (decide (i = length done_)) as [->|Hne].
      * rewrite lookup_app_r in Hi by lia. rewrite Nat.sub_diag in Hi.
        injection Hi as <-. now apply Hcol1.
      * apply lookup_lt_Some in Hi as Li. rewrite Hlen' in Li.
        rewrite lookup_app_l in Hi by lia.
        rewrite Hoth1; [|done|lia|done].
        destruct (decide (k < plan_n p)%nat) as [L|L].
        -- apply (Hdone i d k name Hi).
           apply (prefix_lookup_inv _ _ _ _ Hpre1 Hk). lia.
        -- apply names_entry_absent. intros Hin.
           assert (name ∈ final_names p) as Hin'.
           { apply (Hcov d); [|done]. eapply list_elem_of_lookup_2; eauto. }
           revert Hin'.
           apply (names_bij_new p p1 k name Hbij1 Hpre1 Hk). lia.
    + intros i k Hi Hk. rewrite Hlen' in Hi.
      rewrite Hoth1; [|done|lia|lia].
      destruct (decide (k < plan_n p)%nat); [|done]. apply Hnew; lia.
    + intros d x Hd Hx. apply elem_of_app in Hd as [Hd|Hd].
      * destruct Hpre1 as [ext ->]. apply elem_of_app. left. eauto.
      * apply list_elem_of_singleton in Hd as ->. now apply Hcur1.
Qed.

(** By names, on a target whose name list matches its columns and a seed
    without repeated names, when the planner returns a plan: no final name
    is repeated; every name of a frame's column is a final name; and the
    entry of a final column for a frame is the last position in the frame
    of a column of that name, or [INVALID_INDEX] when the frame has no
    column of that name. *)
Theorem plan_bynames_matrix (dt : DataTable) (dts : list DataTable)
    (force : bool) (p : Plan) :
  length (names_ dt) = ncols_ dt ->
  NoDup (fst (seed_names dt dts)) ->
  plan_columns dt dts force true = Ok p ->
  NoDup (final_names p) /\
  (forall df x, df ∈ dts -> x ∈ names_ df -> x ∈ final_names p) /\
  (forall i df k name,
     dts !! i = Some df -> final_names p !! k = Some name ->
     names_entry (names_ df) name (cell (cols p) k i)).
Proof.
  intros Hwf Hnd H. pose proof (seed_names_length dt dts Hwf) as Hlen.
  unfold plan_columns in H. destruct (seed_names dt dts) as [fnames n0].
  simpl in *. subst n0.
  rewrite bynames_frames_lookup in H by now apply index_names_bij.
  apply (lookup_frames_matrix force (length dts) dts []) in H; simpl.
  - destruct H as (Hbij & Hcells & Hcov). split_and!; [|done|done].
    apply NoDup_alt. intros k k' x Hk Hk'.
    exact (names_bij_inj _ _ _ _ Hbij Hk Hk').
  - done.
  - now apply index_names_bij.
  - apply empty_cols_shape.
  - intros i df k name Hi. done.
  - intros i k Hi Hk. unfold empty_cols. apply cell_replicate; lia.
  - intros df x Hdf. now apply elem_of_nil in Hdf.
Qed.

(** ** The object appender *)

Lemma obj_copy_correct d count :
  forall i done_ rest,
    (i + count = length d)%nat -> (count <= length rest)%nat ->
    obj_copy (SentinelObj_ColumnImpl d) count i (length done_)
      (done_ ++ rest)
    = Ok ((length done_ + count)%nat,
          done_ ++ drop i d ++ drop count rest).
Proof.
  induction count as [|count IH]; intros i done_ rest Hi Hrest; simpl.
  - rewrite drop_ge by lia. simpl. do 2 f_equal. lia.
  - unfold at_. destruct (d !! i) as [x|] eqn:E.
    2:{ apply lookup_ge_None in E. lia. }
    cbn [bind]. rewrite write_at_app by (simpl; lia). cbn [bind].
    replace (S (length done_)) with (length (done_ ++ [x]))
      by (rewrite length_app; simpl; lia).
    replace (done_ ++ [x] ++ drop (length [x]) rest)
      with ((done_ ++ [x]) ++ drop 1 rest) by now rewrite <- app_assoc.
    rewrite IH; [|lia|rewrite length_drop; lia].
    rewrite length_app. simpl. rewrite drop_drop.
    rewrite (drop_S _ _ _ E). rewrite <- !app_assoc. simpl.
    do 2 f_equal. lia.
Qed.

Lemma obj_prepared_void c : col_stype c = VOID -> obj_prepared c = c.
Proof. intros H. unfold obj_prepared. now rewrite decide_True. Qed.

Lemma obj_prepared_nonvoid c :
  col_stype c <> VOID -> obj_prepared c = cast OBJ c.
Proof. intros H. unfold obj_prepared. now rewrite decide_False. Qed.

Lemma obj_copy_na m s count :
  forall i done_ rest,
    (count <= length rest)%nat ->
    obj_copy (ConstNa_ColumnImpl m s) count i (length done_)
      (done_ ++ rest)
    = Ok ((length done_ + count)%nat,
          done_ ++ replicate count Py_None ++ drop count rest).
Proof.
  induction count as [|count IH]; intros i done_ rest Hrest; simpl.
  - do 2 f_equal. lia.
  - rewrite write_at_app by (simpl; lia). cbn [bind].
    replace (S (length done_)) with (length (done_ ++ [Py_None]))
      by (rewrite length_app; simpl; lia).
    replace (done_ ++ [Py_None] ++ drop (length [Py_None]) rest)
      with ((done_ ++ [Py_None]) ++ drop 1 rest)
      by now rewrite <- app_assoc.
    rewrite IH by (rewrite length_drop; lia).
    rewrite length_app. simpl. rewrite drop_drop.
    rewrite <- !app_assoc. simpl. do 2 f_equal. lia.
Qed.

Lemma obj_loop_correct cs :
  forall done_ m,
    Forall obj_source cs ->
    total_rows (obj_prepared <$> cs) <= Z.of_nat m ->
    0 <= total_rows (obj_prepared <$> cs) /\
    obj_loop cs (length done_) (done_ ++ replicate m Py_None)
    = Ok (obj_prepared <$> cs,
          ((length done_
            + Z.to_nat (total_rows (obj_prepared <$> cs)))%nat,
           done_ ++ concat (obj_values <$> (obj_prepared <$> cs))
             ++ replicate
                  (m - Z.to_nat (total_rows (obj_prepared <$> cs)))
                  Py_None)).
Proof.
  induction cs as [|col rest IH]; intros done_ m Hsrc Hm.
  - simpl. split; [unfold total_rows; simpl; lia|].
    change (total_rows []) with 0. change (Z.to_nat 0) with 0%nat.
    now rewrite Nat.add_0_r, Nat.sub_0_r.
  - apply Forall_cons in Hsrc as [Hcol Hrest].
    rewrite !fmap_cons in *. rewrite total_rows_cons in *.
    rewrite concat_cons. cbn [obj_loop].
    unfold obj_source in Hcol.
    assert (0 <= total_rows (obj_prepared <$> rest)) as Hr0.
    { destruct (IH [] (Z.to_nat (total_rows (obj_prepared <$> rest))
                       + 0)%nat Hrest) as [H0 _]; lia. }
    destruct (decide (col_stype col = VOID)) as [Hv|Hv].
    + rewrite (obj_prepared_void col Hv) in *.
      set (n := Z.to_nat (col_nrows col)).
      assert (obj_values col = replicate n Py_None) as ->.
      { destruct col; try discriminate; done. }
      replace (replicate m Py_None)
        with (replicate n Py_None ++ replicate (m - n) Py_None).
      2:{ rewrite <- replicate_add. f_equal. lia. }
      rewrite app_assoc.
      replace (length done_ + n)%nat
        with (length (done_ ++ replicate n Py_None))
        by (rewrite length_app, length_replicate; lia).
      destruct (IH (done_ ++ replicate n Py_None) (m - n)%nat Hrest)
        as [_ ->]; [lia|]. cbn [bind]. split; [lia|].
      rewrite length_app, length_replicate, <- !app_assoc. subst n.
      rewrite Z2Nat.inj_add by lia.
      now rewrite Nat.sub_add_distr, Nat.add_assoc.
    + rewrite (obj_prepared_nonvoid col Hv) in *.
      destruct (cast OBJ col) as [n s| | |d] eqn:Hd; try done.
      * simpl in Hm |- *. set (k := Z.to_nat n).
        rewrite obj_copy_na by (rewrite length_replicate; lia).
        cbn [bind]. rewrite drop_replicate, app_assoc.
        replace (length done_ + k)%nat
          with (length (done_ ++ replicate k Py_None))
          by (rewrite length_app, length_replicate; lia).
        destruct (IH (done_ ++ replicate k Py_None) (m - k)%nat Hrest)
          as [_ ->]; [lia|]. cbn [bind]. split; [lia|].
        rewrite length_app, length_replicate, <- !app_assoc. subst k.
        rewrite Z2Nat.inj_add by lia.
        now rewrite Nat.sub_add_distr, Nat.add_assoc.
      * simpl in Hm |- *. rewrite Nat2Z.id.
        rewrite obj_copy_correct; [|lia|rewrite length_replicate; lia].
        cbn [bind]. rewrite drop_0, drop_replicate.
        replace (length done_ + length d)%nat with (length (done_ ++ d))
          by now rewrite length_app.
        rewrite app_assoc.
        destruct (IH (done_ ++ d) (m - length d)%nat Hrest) as [_ ->];
          [lia|].
        cbn [bind]. split; [lia|].
        rewrite length_app, <- !app_assoc.
        rewrite Z2Nat.inj_add, Nat2Z.id by lia.
        now rewrite Nat.sub_add_distr, Nat.add_assoc.
Qed.

Lemma obj_source_rows columns :
  Forall obj_source columns ->
  0 <= total_rows (obj_prepared <$> columns).
Proof.
  intros Hsrc.
  destruct (obj_loop_correct columns []
              (Z.to_nat (total_rows (obj_prepared <$> columns)) + 0)%nat
              Hsrc) as [H0 _]; lia.
Qed.

(** The buffer of [nnrows] pointers, where its size in bytes fits
    [size_t]. *)
Lemma obj_resize_rows nnrows :
  0 <= nnrows -> sizeof_ptr * nnrows < 2 ^ 64 ->
  Z.to_nat (size_mul sizeof_ptr nnrows / sizeof_ptr) = Z.to_nat nnrows.
Proof.
  intros Hn Hb. now rewrite size_mul_div by (unfold sizeof_ptr in *; lia).
Qed.

(** The appender on an "empty" column, whose buffer holds [None] only:
    the write pointer starts at the first row. *)
Lemma obj_append_empty (n : nat) columns nnrows new_stype :
  Forall obj_source columns ->
  nnrows = Z.of_nat n + total_rows (obj_prepared <$> columns) ->
  sizeof_ptr * nnrows < 2 ^ 64 ->
  SentinelObj_rbind_impl (replicate n Py_None) columns nnrows true new_stype
  = Ok (mkAppended
          (SentinelObj_ColumnImpl
             (concat (obj_values <$> (obj_prepared <$> columns))
              ++ replicate n Py_None))
          (obj_prepared <$> columns) new_stype).
Proof.
  intros Hsrc Hrows Hb. unfold SentinelObj_rbind_impl. cbn zeta.
  pose proof (obj_source_rows columns Hsrc) as Ht.
  set (total := total_rows (obj_prepared <$> columns)) in *.
  rewrite obj_resize_rows, set_nrows_resize by lia. cbn [bind].
  rewrite resize_ge by (rewrite length_replicate; lia).
  rewrite length_replicate, <- replicate_add.
  destruct (obj_loop_correct columns []
              (n + (Z.to_nat nnrows - n))%nat Hsrc) as [_ H];
    [fold total; lia|].
  simpl in H. rewrite H. cbn [bind]. fold total.
  replace (n + (Z.to_nat nnrows - n) - Z.to_nat total)%nat with n by lia.
  reflexivity.
Qed.

(** The appender on a column with data: the write pointer starts past
    the old rows. *)
Lemma obj_append_data mbuf_ columns nnrows new_stype :
  Forall obj_source columns ->
  nnrows = Z.of_nat (length mbuf_) + total_rows (obj_prepared <$> columns) ->
  sizeof_ptr * nnrows < 2 ^ 64 ->
  SentinelObj_rbind_impl mbuf_ columns nnrows false new_stype
  = Ok (mkAppended
          (SentinelObj_ColumnImpl
             (mbuf_ ++ concat (obj_values <$> (obj_prepared <$> columns))))
          (obj_prepared <$> columns) new_stype).
Proof.
  intros Hsrc Hrows Hb. unfold SentinelObj_rbind_impl. cbn zeta.
  pose proof (obj_source_rows columns Hsrc) as Ht.
  set (total := total_rows (obj_prepared <$> columns)) in *.
  rewrite obj_resize_rows, set_nrows_resize by lia. cbn [bind].
  rewrite resize_ge by lia.
  destruct (obj_loop_correct columns mbuf_
              (Z.to_nat nnrows - length mbuf_)%nat Hsrc) as [_ ->];
    [fold total; lia|].
  cbn [bind]. fold total.
  replace (Z.to_nat nnrows - length mbuf_ - Z.to_nat total)%nat
    with 0%nat by lia.
  simpl. now rewrite app_nil_r.
Qed.

(** The object appender, where the buffer of [nnrows] pointers fits
    [size_t] in bytes and an "empty" column has no rows: it returns the
    old objects followed by what each column contributes: its objects,
    or one [None] per row of a void column or of a column without
    data. *)
Theorem SentinelObj_rbind_impl_correct (mbuf_ : list PyObj)
    (columns : list Column) (nnrows : Z) (col_empty : bool)
    (new_stype : SType) :
  Forall obj_source columns ->
  nnrows = Z.of_nat (length mbuf_) + total_rows (obj_prepared <$> columns) ->
  sizeof_ptr * nnrows < 2 ^ 64 ->
  (col_empty = true -> mbuf_ = []) ->
  SentinelObj_rbind_impl mbuf_ columns nnrows col_empty new_stype
  = Ok (mkAppended
          (SentinelObj_ColumnImpl
             (mbuf_ ++ concat (obj_values <$> (obj_prepared <$> columns))))
          (obj_prepared <$> columns) new_stype).
Proof.
  intros Hsrc Hrows Hb Hnone. destruct col_empty.
  - rewrite Hnone in * by done. simpl in Hrows.
    rewrite (obj_append_empty 0) by done. simpl. now rewrite app_nil_r.
  - now apply obj_append_data.
Qed.

(** ** The arguments the traversal takes *)

Lemma process_arg_accepts arg :
  forall level st,
    match process_arg arg level st with
    | Ok _ => accepted arg level = true
    | Err e =>
        accepted arg level = false /\
        exists j, e = TypeError_not_frame j /\
                  (snd st <= j <= snd st + length (frames_of arg))%nat
    end.
Proof.
  induction arg as [df|items IH|s|] using robj_nested_ind;
    intros level [dts j].
  - done.
  - cbn [process_arg accepted frames_of].
    destruct (decide (level < 2)%nat) as [L|L].
    2:{ rewrite bool_decide_false by done. simpl. split; [done|].
        exists j. split; [done|lia]. }
    rewrite bool_decide_true by done. rewrite andb_true_l.
    revert dts j. induction IH as [|x xs Hx _ IHxs]; intros dts j.
    + done.
    + specialize (Hx (S level) (dts, j)). cbn [forallb].
      destruct (process_arg x (S level) (dts, j)) as [[d1 j1]|e] eqn:E.
      * rewrite Hx, andb_true_l. cbn [bind].
        apply process_arg_frames in E as [_ ->].
        specialize (IHxs d1 (j + length (frames_of x))%nat).
        destruct ((fix each (items : list robj)
                     (st : list DataTable * nat) :=
                     match items with
                     | [] => Ok st
                     | item :: rest =>
                         do st' <- process_arg item (S level) st;
                         each rest st'
                     end) xs (d1, (j + length (frames_of x))%nat))
          as [r|e]; [done|].
        destruct IHxs as (Hacc & j' & -> & Hj'). split; [done|].
        exists j'. split; [done|]. rewrite length_app. simpl in *. lia.
      * cbn [bind]. destruct Hx as (-> & j' & -> & Hj'). split; [done|].
        exists j'. split; [done|]. rewrite length_app. simpl in *. lia.
  - simpl. split; [done|]. exists j. split; [done|lia].
  - simpl. split; [done|]. exists j. split; [done|lia].
Qed.

(** The traversal of the arguments returns when every argument is a
    frame, or an iterable other than a string of frames or of such
    iterables of frames; otherwise it throws the type error, whose item
    number lies between the count it started from and that count plus
    the number of frames in the arguments. *)
Theorem process_varargs_accepts (varargs : list robj)
    (st : list DataTable * nat) :
  match process_varargs varargs st with
  | Ok _ => forallb (fun a => accepted a 0) varargs = true
  | Err e =>
      forallb (fun a => accepted a 0) varargs = false /\
      exists j, e = TypeError_not_frame j /\
                (snd st <= j <= snd st + length (all_frames varargs))%nat
  end.
Proof.
  revert st. unfold all_frames.
  induction varargs as [|a rest IH]; intros [dts j]; [done|].
  cbn [process_varargs forallb flat_map].
  pose proof (process_arg_accepts a 0%nat (dts, j)) as Ha.
  destruct (process_arg a 0 (dts, j)) as [[d1 j1]|e] eqn:E.
  - rewrite Ha, andb_true_l. cbn [bind].
    apply process_arg_frames in E as [_ ->].
    specialize (IH (d1, (j + length (frames_of a))%nat)).
    destruct (process_varargs rest _) as [r|e]; [done|].
    destruct IH as (Hacc & j' & -> & Hj'). split; [done|].
    exists j'. split; [done|]. rewrite length_app. simpl in *. lia.
  - cbn [bind]. destruct Ha as (-> & j' & -> & Hj'). split; [done|].
    exists j'. split; [done|]. rewrite length_app. simpl in *. lia.
Qed.

(** ** The exceptions left with [force] *)

Lemma process_varargs_error varargs :
  forall st e,
    process_varargs varargs st = Err e -> exists j, e = TypeError_not_frame j.
Proof.
  induction varargs as [|a rest IH]; intros st e H; simpl in H;
    [discriminate|].
  pose proof (process_arg_accepts a 0%nat st) as Ha.
  destruct (process_arg a 0 st) as [st'|e'] eqn:E; simpl in H.
  - eapply IH; eauto.
  - injection H as <-. destruct Ha as (_ & j & -> & _). eauto.
Qed.

Lemma rbind_types_error columns :
  forall new_nrows new_type e,
    rbind_types columns new_nrows new_type = Err e -> forced_error e.
Proof.
  induction columns as [|col rest IH]; intros n t e H; simpl in H.
  - discriminate.
  - destruct (common t (col_stype (materialize col))) as [next|].
    + destruct (rbind_types rest _ next) as [[rest' r]|e'] eqn:E;
        simpl in H; [discriminate|].
      injection H as <-. eapply IH; eauto.
    + now injection H as <-.
Qed.

Lemma Column_rbind_error self columns e :
  Column_rbind self columns = Err e -> forced_error e.
Proof.
  unfold Column_rbind. intros H.
  destruct (rbind_types columns (col_nrows self) (col_stype self))
    as [[cs [n t]]|e'] eqn:Et; simpl in H.
  2:{ injection H as <-. eapply rbind_types_error; eauto. }
  destruct (rbind_impl _ cs n _ VOID) as [a1|e'] eqn:E1; simpl in H.
  2:{ injection H as <-. apply only_fault_rbind_impl in E1 as ->. done. }
  destruct (decide (app_new_stype a1 = VOID)); [discriminate|].
  destruct (rbind_impl _ (app_columns a1) n _ _) as [a2|e'] eqn:E2;
    simpl in H; [discriminate|].
  injection H as <-. apply only_fault_rbind_impl in E2 as ->. done.
Qed.

Lemma only_fault_cols_to_append dts :
  forall row j, only_fault (cols_to_append dts row j).
Proof.
  induction dts as [|d rest IH]; intros row j; simpl.
  - apply only_fault_Ok.
  - unfold get_column. only_fault_tac. apply IH.
Qed.

Lemma rbind_each_error dts col_indices :
  forall i columns columns' e,
    rbind_each dts col_indices i columns = (columns', Some e) ->
    forced_error e.
Proof.
  induction col_indices as [|row rest IH]; intros i columns columns' e H;
    simpl in H; [discriminate|].
  destruct (cols_to_append dts row 0) as [cs|e'] eqn:Ecs; simpl in H.
  2:{ injection H as _ <-.
      apply only_fault_cols_to_append in Ecs as ->. done. }
  unfold at_ in H. destruct (columns !! i) as [c|]; simpl in H.
  2:{ now injection H as _ <-. }
  destruct (Column_rbind c cs) as [c'|e'] eqn:Ec; simpl in H.
  - eapply IH; eauto.
  - injection H as _ <-. eapply Column_rbind_error; eauto.
Qed.

(** With [force], on a target and frames whose name lists match their
    columns, [Frame::rbind] throws neither of the two errors about the
    columns of the frames.  In a build without the debug assertions,
    what it can throw is the type error about an argument, the error
    about a keyed target, the type error of [Column::rbind], or, in the
    model, an access out of bounds. *)
Theorem force_raises_no_schema_error (dt : DataTable)
    (varargs : list robj) (bynames : bool) :
  length (names_ dt) = ncols_ dt ->
  Forall (fun df => length (names_ df) = ncols_ df) (all_frames varargs) ->
  forall dt' e,
    Frame_rbind dt varargs true bynames = (dt', Some e) -> forced_error e.
Proof.
  intros Hwf Hall dt' e H. unfold Frame_rbind in H.
  destruct (process_varargs varargs ([], 0%nat)) as [[dts j]|e'] eqn:Ep.
  2:{ injection H as _ <-.
      apply process_varargs_error in Ep as [j' ->]. done. }
  apply process_varargs_frames in Ep as [Hd _]. simpl in Hd.
  destruct dts as [|df0 dts0] eqn:Edts; [discriminate|]. rewrite <- Edts in *.
  destruct (decide (0 < nkeys_ dt)%nat); [now injection H as _ <-|].
  assert (Forall (fun df => (ncols_ df <= length (names_ df))%nat) dts)
    as Hdts.
  { rewrite Hd. apply Forall_forall. intros df Hdf.
    apply list_elem_of_filter in Hdf as [_ Hdf].
    rewrite Forall_forall in Hall. rewrite (Hall df Hdf). done. }
  assert (exists p, plan_columns dt dts true bynames = Ok p) as [p Hp].
  { destruct bynames.
    - pose proof (seed_names_length dt dts Hwf) as Hlen.
      unfold plan_columns. destruct (seed_names dt dts) as [fnames n0].
      simpl in Hlen. subst n0.
      destruct (bynames_frames_force (length dts) dts 0%nat
                  (mkPlan fnames (empty_cols (length fnames) (length dts))
                     (index_names fnames 0 ∅) (length fnames))
                  (index_names_inv _ _) (empty_cols_shape _ _) (le_n _))
        as (p & Hp & _). eauto.
    - unfold plan_columns. destruct (seed_names dt dts) as [fnames n0].
      apply bypos_frames_force; [apply empty_cols_shape|simpl; lia|done]. }
  rewrite Hp in H. unfold DataTable_rbind in H.
  destruct (rbind_each dts (cols p) 0 _) as [cs [e'|]] eqn:Er;
    [|discriminate].
  injection H as _ <-. eapply rbind_each_error; eauto.
Qed.

(** ** Appending without a cast *)

Lemma fmap_fixed {A} (f : A -> A) (l : list A) :
  Forall (fun x => f x = x) l -> f <$> l = l.
Proof.
  induction 1 as [|x l Hx _ IH]; [done|]. rewrite fmap_cons. congruence.
Qed.

Lemma total_rows_nonneg cs :
  Forall (fun c => 0 <= col_nrows c) cs -> 0 <= total_rows cs.
Proof.
  induction 1 as [|c cs Hc _ IH]; [unfold total_rows; simpl; lia|].
  rewrite total_rows_cons. lia.
Qed.

Lemma rbind_types_plain columns :
  forall n t t',
    0 <= n ->
    Forall (fun c => materialize c = c /\ 0 <= col_nrows c) columns ->
    n + total_rows columns < 2 ^ 64 ->
    common_type_of t (col_stype <$> columns) = inl t' ->
    rbind_types columns n t = Ok (columns, (n + total_rows columns, t')).
Proof.
  induction columns as [|c cs IH]; intros n t t' Hn Hall Hsum Ht.
  - simpl in *. injection Ht as <-. unfold total_rows. simpl.
    now rewrite Z.add_0_r.
  - apply Forall_cons in Hall as [[Hm Hc] Hall].
    assert (0 <= total_rows cs) as Hcs.
    { apply total_rows_nonneg. eapply Forall_impl; [exact Hall|].
      simpl. tauto. }
    rewrite fmap_cons in Ht. rewrite total_rows_cons in *.
    cbn [rbind_types common_type_of] in *. rewrite Hm.
    destruct (common t (col_stype c)) as [next|]; [|discriminate].
    unfold size_add, wrap64. rewrite Z.mod_small by lia.
    rewrite (IH _ _ t'); [|lia|done|lia|done]. cbn [bind].
    do 3 f_equal. lia.
Qed.

Lemma fw_stype_not_void k : fw_stype k <> VOID.
Proof. now destruct k. Qed.

Lemma fw_like_plain k c :
  fw_like k c -> materialize c = c /\ 0 <= col_nrows c.
Proof.
  destruct c as [n s|k' d|w o sb|d]; simpl; try done.
  - destruct s; simpl; done.
  - intros _. split; [done|lia].
Qed.

Lemma fw_like_source k c :
  fw_like k c -> fw_source k c /\ fw_prepared k c = c.
Proof.
  destruct c as [n s|k' d|w o sb|d]; simpl; try done.
  - destruct s; done.
  - intros ->. unfold fw_source, fw_prepared. simpl.
    rewrite !(decide_False (P := fw_stype k = VOID))
      by apply fw_stype_not_void.
    rewrite !decide_True by done. eauto.
Qed.

Lemma common_fw_like k c :
  fw_like k c -> common (fw_stype k) (col_stype c) = Some (fw_stype k).
Proof.
  destruct c as [n s|k' d|w o sb|d]; simpl; try done.
  - destruct s; try done. intros _. now destruct k.
  - intros ->. now destruct k.
Qed.

Lemma common_type_fw k columns :
  Forall (fw_like k) columns ->
  common_type_of (fw_stype k) (col_stype <$> columns) = inl (fw_stype k).
Proof.
  induction 1 as [|c cs Hc _ IH]; [done|]. rewrite fmap_cons.
  cbn [common_type_of]. now rewrite (common_fw_like k c Hc).
Qed.

Lemma common_type_void_fw k columns :
  Forall (fw_like k) columns -> Exists is_fw columns ->
  common_type_of VOID (col_stype <$> columns) = inl (fw_stype k).
Proof.
  induction 1 as [|c cs Hc Hcs IH]; intros Hex.
  - now apply Exists_nil in Hex.
  - rewrite fmap_cons. cbn [common_type_of].
    destruct c as [n s|k' d|w o sb|d]; simpl in Hc; try done.
    + destruct s; try done. simpl. apply IH.
      apply Exists_cons in Hex as [Hex|Hex]; [done|exact Hex].
    + subst k'. simpl. now apply common_type_fw.
Qed.

Lemma common_type_void columns :
  Forall void_col columns ->
  common_type_of VOID (col_stype <$> columns) = inl VOID.
Proof.
  induction 1 as [|c cs Hc _ IH]; [done|]. rewrite fmap_cons.
  cbn [common_type_of].
  destruct c as [n s| | |]; simpl in Hc; try done.
  destruct s; try done.
Qed.

(** [Column::rbind] on columns that need no cast: when the target and
    the columns are buffers of one fixed-width kind or void columns, one
    of them at least a buffer, and the size in bytes of all the rows
    fits [size_t], the result is the buffer of that kind that holds
    everyone's elements in order, a void column standing for one missing
    value per row. *)
Theorem Column_rbind_fw_concat (k : FwKind) (self : Column)
    (columns : list Column) :
  Forall (fw_like k) (self :: columns) ->
  Exists is_fw (self :: columns) ->
  sizeof_T k * (col_nrows self + total_rows columns) < 2 ^ 64 ->
  Column_rbind self columns
  = Ok (SentinelFw_ColumnImpl k
          (concat (fw_values k <$> self :: columns))).
Proof.
  intros Hall Hex Hbytes. apply Forall_cons in Hall as [Hself Hcols].
  assert (col_nrows self + total_rows columns < 2 ^ 64) as Hsum.
  { pose proof (sizeof_T_pos k). nia. }
  assert (Forall (fun c => materialize c = c /\ 0 <= col_nrows c) columns)
    as Hplain.
  { eapply Forall_impl; [exact Hcols|]. apply fw_like_plain. }
  assert (Forall (fw_source k) columns) as Hsrc.
  { eapply Forall_impl; [exact Hcols|]. intros c Hc.
    now apply fw_like_source. }
  assert (fw_prepared k <$> columns = columns) as Hprep.
  { apply fmap_fixed. eapply Forall_impl; [exact Hcols|]. intros c Hc.
    now apply fw_like_source. }
  destruct (fw_like_plain k self Hself) as [_ Hn].
  rewrite fmap_cons, concat_cons. unfold Column_rbind.
  destruct self as [n s|k' d|w o sb|d]; simpl in Hself; try done.
  - destruct s; try done.
    apply Exists_cons in Hex as [Hex|Hex]; [done|].
    rewrite (rbind_types_plain columns _ _ (fw_stype k));
      [|done|done|done|now apply common_type_void_fw].
    cbn [bind]. unfold rbind_newcol. simpl col_stype. simpl col_nrows.
    rewrite bool_decide_true by done. unfold new_na_column.
    assert (materialize (ConstNa_ColumnImpl n (fw_stype k))
            = SentinelFw_ColumnImpl k
                (replicate (Z.to_nat n) (GETNA_fw k))) as ->
      by now destruct k.
    cbn [rbind_impl]. cbn [col_nrows] in Hbytes, Hsum, Hn.
    rewrite fw_append_empty;
      [|done|rewrite length_replicate, Hprep; lia|exact Hbytes].
    cbn [bind app_new_stype app_self]. rewrite decide_True by done.
    now rewrite length_replicate, Hprep.
  - subst k'.
    rewrite (rbind_types_plain columns _ _ (fw_stype k));
      [|done|done|done|now apply common_type_fw].
    cbn [bind]. unfold rbind_newcol. simpl col_stype. simpl col_nrows.
    rewrite bool_decide_false by apply fw_stype_not_void.
    rewrite decide_True by done. cbn [materialize rbind_impl].
    cbn [col_nrows] in Hbytes.
    rewrite fw_append_data; [|done|now rewrite Hprep|exact Hbytes].
    cbn [bind app_new_stype app_self]. rewrite decide_True by done.
    now rewrite Hprep.
Qed.

(** [Column::rbind] of void columns to a void column is the void column
    of all the rows, when these fit [size_t]. *)
Theorem Column_rbind_void (n : Z) (columns : list Column) :
  0 <= n -> Forall void_col columns ->
  n + total_rows columns < 2 ^ 64 ->
  Column_rbind (ConstNa_ColumnImpl n VOID) columns
  = Ok (ConstNa_ColumnImpl (n + total_rows columns) VOID).
Proof.
  intros Hn Hcols Hsum. unfold Column_rbind.
  rewrite (rbind_types_plain columns _ _ VOID);
    [|done| |done|now apply common_type_void].
  2:{ eapply Forall_impl; [exact Hcols|]. intros c Hc.
      destruct c as [m s| | |]; simpl in Hc; try done.
      destruct s; done. }
  cbn [bind]. unfold rbind_newcol. simpl. reflexivity.
Qed.

(** ** The columns [DataTable::rbind] builds *)

Lemma cols_to_append_spec dts :
  forall row j0 cs,
    cols_to_append dts row j0 = Ok cs ->
    length cs = length dts /\
    forall j dtj,
      dts !! j = Some dtj ->
      exists k col,
        row !! (j0 + j)%nat = Some k /\ cs !! j = Some col /\
        picked dtj k col.
Proof.
  induction dts as [|d rest IH]; intros row j0 cs H; simpl in H.
  - injection H as <-. split; [done|]. intros j dtj Hj. done.
  - apply bind_Ok in H as (k & Hk & H). apply bind_Ok in H as (col & Hcol & H).
    apply bind_Ok in H as (cs' & Hcs & H). injection H as <-.
    apply IH in Hcs as [Hlen Hrest]. split; [simpl; lia|].
    intros [|j] dtj Hj; simpl in Hj.
    + injection Hj as <-. exists k, col. rewrite Nat.add_0_r.
      unfold at_ in Hk. destruct (row !! j0) as [k0|]; [|done].
      injection Hk as ->. split_and!; [done|done|]. unfold picked.
      destruct (decide (k = INVALID_INDEX)).
      * now injection Hcol as <-.
      * unfold get_column, at_ in Hcol.
        destruct (columns_ d !! Z.to_nat k); [|done].
        now injection Hcol as <-.
    + destruct (Hrest j dtj Hj) as (k' & col' & H1 & H2 & H3).
      exists k', col'. split_and!; [|done|done].
      now replace (j0 + S j)%nat with (S j0 + j)%nat by lia.
Qed.

Lemma rbind_each_columns dts col_indices :
  forall i0 columns columns',
    rbind_each dts col_indices i0 columns = (columns', None) ->
    (forall i row,
       col_indices !! i = Some row ->
       exists cs c c',
         cols_to_append dts row 0 = Ok cs /\
         columns !! (i0 + i)%nat = Some c /\
         Column_rbind c cs = Ok c' /\
         columns' !! (i0 + i)%nat = Some c') /\
    (forall k, (k < i0)%nat -> columns' !! k = columns !! k) /\
    length columns' = length columns.
Proof.
  induction col_indices as [|row0 rest IH]; intros i0 columns columns' H;
    simpl in H.
  - injection H as <-. split_and!; [|done|done]. intros i row Hi. done.
  - destruct (cols_to_append dts row0 0) as [cs|] eqn:Ecs; simpl in H;
      [|discriminate].
    unfold at_ in H. destruct (columns !! i0) as [c|] eqn:Ec; simpl in H;
      [|discriminate].
    destruct (Column_rbind c cs) as [c'|] eqn:Er; simpl in H;
      [|discriminate].
    apply lookup_lt_Some in Ec as Hlt.
    apply IH in H as (Hrows & Hkeep & Hlen).
    rewrite length_insert in Hlen. split_and!; [|
      intros k Hk; rewrite Hkeep by lia;
      now rewrite list_lookup_insert_ne by lia|done].
    intros [|i] row Hi; simpl in Hi.
    + injection Hi as <-. exists cs, c, c'. rewrite Nat.add_0_r.
      split_and!; [done|done|done|]. rewrite Hkeep by lia.
      now rewrite list_lookup_insert_eq.
    + destruct (Hrows i row Hi) as (cs1 & c1 & c1' & H1 & H2 & H3 & H4).
      exists cs1, c1, c1'.
      replace (i0 + S i)%nat with (S i0 + i)%nat by lia.
      split_and!; [done| |done|done].
      now rewrite list_lookup_insert_ne in H2 by lia.
Qed.

Lemma old_column_lookup dt n i c :
  (columns_ dt ++ replicate n (new_na_column (nrows_ dt) VOID)) !! i
    = Some c ->
  c = old_column dt i.
Proof.
  unfold old_column. intros H.
  destruct (columns_ dt !! i) as [c0|] eqn:E.
  - rewrite (lookup_app_l_Some _ _ _ _ E) in H. now injection H as <-.
  - apply lookup_ge_None in E. rewrite lookup_app_r in H by done.
    apply lookup_replicate in H as [-> _]. done.
Qed.

(** When [DataTable::rbind] returns, final column [i] is what
    [Column::rbind] makes of the target's column [i] (a void column
    where the target has none) and of one column per frame, picked by
    row [i] of [col_indices]: the frame's column of that index, or a
    void column for [INVALID_INDEX].  A frame that may be the target
    itself is read at columns that have not been rebuilt, so that the
    column picked is the one the frame had when the call started. *)
Theorem DataTable_rbind_columns (dt dt' : DataTable)
    (dts : list DataTable) (col_indices : list sztvec) (i : nat)
    (row : sztvec) :
  reads_unbuilt dt dts col_indices ->
  DataTable_rbind dt dts col_indices = (dt', None) ->
  col_indices !! i = Some row ->
  exists cs c',
    Column_rbind (old_column dt i) cs = Ok c' /\
    columns_ dt' !! i = Some c' /\
    length cs = length dts /\
    forall j dtj,
      dts !! j = Some dtj ->
      exists k col,
        row !! j = Some k /\ cs !! j = Some col /\ picked dtj k col.
Proof.
  unfold DataTable_rbind. intros _ H Hi.
  destruct (rbind_each dts col_indices 0 _) as [columns' [e|]] eqn:E;
    [discriminate|].
  injection H as <-. simpl.
  apply rbind_each_columns in E as (Hrows & _ & _).
  destruct (Hrows i row Hi) as (cs & c & c' & Hcs & Hc & Hr & Hc').
  simpl in Hc, Hc'. apply old_column_lookup in Hc as ->.
  apply cols_to_append_spec in Hcs as [Hlen Hpick].
  exists cs, c'. split_and!; done.
Qed.

(** ** The columns [Frame::rbind] builds *)

Lemma Frame_rbind_pieces dt dt' varargs force bynames dts j :
  process_varargs varargs ([], 0%nat) = Ok (dts, j) ->
  dts <> [] ->
  Frame_rbind dt varargs force bynames = (dt', None) ->
  exists p,
    plan_columns dt dts force bynames = Ok p /\
    names_ dt' = final_names p /\
    ncols_ dt' = length (cols p) /\
    forall i row,
      cols p !! i = Some row ->
      exists cs c',
        Column_rbind (old_column dt i) cs = Ok c' /\
        columns_ dt' !! i = Some c' /\
        length cs = length dts /\
        forall j dtj,
          dts !! j = Some dtj ->
          exists k col,
            row !! j = Some k /\ cs !! j = Some col /\ picked dtj k col.
Proof.
  intros Hp Hne H. unfold Frame_rbind in H. rewrite Hp in H.
  destruct dts as [|d0 rest] eqn:Edts; [done|]. rewrite <- Edts in *.
  destruct (decide (0 < nkeys_ dt)%nat); [discriminate|].
  destruct (plan_columns dt dts force bynames) as [p|]; [|discriminate].
  exists p. split; [done|]. unfold DataTable_rbind in H.
  destruct (rbind_each dts (cols p) 0 _) as [columns' [e|]] eqn:E;
    [discriminate|].
  injection H as <-. simpl. split_and!; [done|done|].
  intros i row Hi.
  apply rbind_each_columns in E as (Hrows & _ & _).
  destruct (Hrows i row Hi) as (cs & c & c' & Hcs & Hc & Hr & Hc').
  simpl in Hc, Hc'. apply old_column_lookup in Hc as ->.
  apply cols_to_append_spec in Hcs as [Hlen Hpick].
  exists cs, c'. split_and!; done.
Qed.

(** By names, on a target whose name list matches its columns, a seed
    without repeated names and frames of fewer than [2^64 - 1] columns:
    when the call returns, the column under each final name is what
    [Column::rbind] makes of the target's column at that position (a
    void column where the target has none) and, frame by frame, of the
    frame's last column of that name, or of a void column of the
    frame's rows when the frame has no column of that name. *)
Theorem rbind_bynames_columns (dt dt' : DataTable) (varargs : list robj)
    (force : bool) (dts : list DataTable) (j k : nat) (name : string) :
  length (names_ dt) = ncols_ dt ->
  NoDup (fst (seed_names dt dts)) ->
  process_varargs varargs ([], 0%nat) = Ok (dts, j) ->
  dts <> [] ->
  Forall (fun df => Z.of_nat (length (names_ df)) <= INVALID_INDEX) dts ->
  Frame_rbind dt varargs force true = (dt', None) ->
  names_ dt' !! k = Some name ->
  exists cs c',
    Column_rbind (old_column dt k) cs = Ok c' /\
    columns_ dt' !! k = Some c' /\
    Forall2 (named_column name) cs dts.
Proof.
  intros Hwf Hnd Hp Hne Hsmall H Hk.
  destruct (Frame_rbind_pieces _ _ _ _ _ _ _ Hp Hne H)
    as (p & Hplan & Hnames & _ & Hpieces).
  rewrite Hnames in Hk.
  destruct (plan_columns_sized _ _ _ _ _ Hwf Hplan) as [[Hf Hc] _].
  destruct (lookup_lt_is_Some_2 (cols p) k) as [row Hrow].
  { apply lookup_lt_Some in Hk. lia. }
  destruct (Hpieces k row Hrow) as (cs & c' & Hr & Hc' & Hlen & Hpick).
  exists cs, c'. split_and!; [done|done|].
  assert (forall i df,
            dts !! i = Some df ->
            names_entry (names_ df) name (cell (cols p) k i)) as Hcell.
  { pose proof (seed_names_length dt dts Hwf) as Hlen0.
    unfold plan_columns in Hplan.
    destruct (seed_names dt dts) as [fnames n0]. simpl in *. subst n0.
    rewrite bynames_frames_lookup in Hplan by now apply index_names_bij.
    apply (lookup_frames_matrix force (length dts) dts []) in Hplan;
      simpl.
    - destruct Hplan as (_ & Hcells & _). intros i df Hi.
      now apply (Hcells i df k name).
    - done.
    - now apply index_names_bij.
    - apply empty_cols_shape.
    - intros i df k0 name0 Hi. done.
    - intros i k0 Hi Hk0. unfold empty_cols. apply cell_replicate; lia.
    - intros df x Hdf. now apply elem_of_nil in Hdf. }
  apply Forall2_same_length_lookup_2; [done|].
  intros i col df Hcol Hdf.
  destruct (Hpick i df Hdf) as (kk & col' & Hkk & Hcol' & Hpicked).
  rewrite Hcol in Hcol'. injection Hcol' as <-.
  specialize (Hcell i df Hdf). unfold cell in Hcell.
  rewrite Hrow in Hcell. simpl in Hcell. rewrite Hkk in Hcell.
  destruct Hcell as [Hlast Habsent]. unfold picked in Hpicked. split.
  - intros jj Hjj. specialize (Hlast jj Hjj). injection Hlast as ->.
    assert (Z.of_nat jj < INVALID_INDEX) as Hlt.
    { destruct Hjj as [Hjj _]. apply lookup_lt_Some in Hjj.
      pose proof (Forall_lookup_1 _ _ _ _ Hsmall Hdf) as Hs.
      simpl in Hs. lia. }
    rewrite decide_False in Hpicked by lia.
    now rewrite Nat2Z.id in Hpicked.
  - intros Hnot. specialize (Habsent Hnot). injection Habsent as ->.
    now rewrite decide_True in Hpicked by done.
Qed.

(** By position, on a target whose name list matches its columns and
    frames of at most [2^64 - 1] columns: when the call returns, final
    column [k] is what [Column::rbind] makes of the target's column [k]
    (a void column where the target has none) and, frame by frame, of
    the frame's column [k], or of a void column of the frame's rows
    when the frame has fewer columns. *)
Theorem rbind_bypos_columns (dt dt' : DataTable) (varargs : list robj)
    (force : bool) (dts : list DataTable) (j k : nat) :
  length (names_ dt) = ncols_ dt ->
  process_varargs varargs ([], 0%nat) = Ok (dts, j) ->
  dts <> [] ->
  Forall (fun df => Z.of_nat (ncols_ df) <= INVALID_INDEX) dts ->
  Frame_rbind dt varargs force false = (dt', None) ->
  (k < ncols_ dt')%nat ->
  exists cs c',
    Column_rbind (old_column dt k) cs = Ok c' /\
    columns_ dt' !! k = Some c' /\
    Forall2 (placed_column k) cs dts.
Proof.
  intros Hwf Hp Hne Hsmall H Hk.
  destruct (Frame_rbind_pieces _ _ _ _ _ _ _ Hp Hne H)
    as (p & Hplan & _ & Hncols & Hpieces).
  destruct (plan_columns_sized _ _ _ _ _ Hwf Hplan) as [[Hf Hc] _].
  destruct (lookup_lt_is_Some_2 (cols p) k) as [row Hrow]; [lia|].
  destruct (Hpieces k row Hrow) as (cs & c' & Hr & Hc' & Hlen & Hpick).
  exists cs, c'. split_and!; [done|done|].
  assert (forall i df,
            dts !! i = Some df ->
            cell (cols p) k i = Some (bypos_entry k (Some df))) as Hcell.
  { unfold plan_columns in Hplan.
    destruct (seed_names dt dts) as [fnames n0].
    apply (bypos_frames_matrix force (length dts) dts []) in Hplan; simpl.
    - destruct Hplan as [_ Hcells]. intros i df Hi.
      rewrite (Hcells k i); [|lia|eapply lookup_lt_Some; eauto].
      change ([] ++ dts) with dts. now rewrite Hi.
    - done.
    - apply empty_cols_shape.
    - constructor.
    - intros k0 i Hk0 Hi. unfold empty_cols. now rewrite cell_replicate. }
  apply Forall2_same_length_lookup_2; [done|].
  intros i col df Hcol Hdf.
  destruct (Hpick i df Hdf) as (kk & col' & Hkk & Hcol' & Hpicked).
  rewrite Hcol in Hcol'. injection Hcol' as <-.
  specialize (Hcell i df Hdf). unfold cell in Hcell.
  rewrite Hrow in Hcell. simpl in Hcell. rewrite Hkk in Hcell.
  injection Hcell as ->. unfold picked in Hpicked. unfold placed_column.
  destruct (decide (k < ncols_ df)%nat) as [L|L].
  - pose proof (Forall_lookup_1 _ _ _ _ Hsmall Hdf) as Hs. simpl in Hs.
    rewrite decide_False in Hpicked by lia.
    now rewrite Nat2Z.id in Hpicked.
  - now rewrite decide_True in Hpicked by done.
Qed.

(** ** What an exception of [DataTable::rbind] leaves *)

Lemma rbind_each_torn dts col_indices :
  forall i0 columns columns' e,
    rbind_each dts col_indices i0 columns = (columns', Some e) ->
    exists i,
      (i < length col_indices)%nat /\
      (forall k row,
         (k < i)%nat -> col_indices !! k = Some row ->
         exists cs c c',
           cols_to_append dts row 0 = Ok cs /\
           columns !! (i0 + k)%nat = Some c /\
           Column_rbind c cs = Ok c' /\
           columns' !! (i0 + k)%nat = Some c') /\
      (forall k, (i0 + i <= k)%nat -> columns' !! k = columns !! k) /\
      (forall k, (k < i0)%nat -> columns' !! k = columns !! k).
Proof.
  induction col_indices as [|row0 rest IH];
    intros i0 columns columns' e H; simpl in H; [discriminate|].
  destruct (cols_to_append dts row0 0) as [cs|] eqn:Ecs; simpl in H.
  2:{ injection H as <- _. exists 0%nat.
      split_and!; [simpl; lia|intros k row Hk; lia|done|done]. }
  unfold at_ in H. destruct (columns !! i0) as [c|] eqn:Ec; simpl in H.
  2:{ injection H as <- _. exists 0%nat.
      split_and!; [simpl; lia|intros k row Hk; lia|done|done]. }
  destruct (Column_rbind c cs) as [c'|] eqn:Er; simpl in H.
  2:{ injection H as <- _. exists 0%nat.
      split_and!; [simpl; lia|intros k row Hk; lia|done|done]. }
  apply lookup_lt_Some in Ec as Hlt.
  apply IH in H as (i & Hi & Hdone & Hrest & Hkeep).
  exists (S i). split_and!.
  - simpl. lia.
  - intros [|k] row Hk Hrow; simpl in Hrow.
    + injection Hrow as <-. exists cs, c, c'. rewrite Nat.add_0_r.
      split_and!; [done|done|done|]. rewrite Hkeep by lia.
      now rewrite list_lookup_insert_eq.
    + destruct (Hdone k row) as (cs1 & c1 & c1' & H1 & H2 & H3 & H4);
        [lia|done|].
      exists cs1, c1, c1'.
      replace (i0 + S k)%nat with (S i0 + k)%nat by lia.
      split_and!; [done| |done|done].
      now rewrite list_lookup_insert_ne in H2 by lia.
  - intros k Hk. rewrite Hrest by lia.
    now rewrite list_lookup_insert_ne by lia.
  - intros k Hk. rewrite Hkeep by lia.
    now rewrite list_lookup_insert_ne by lia.
Qed.

(** When [DataTable::rbind] throws, the table keeps its row count, its
    column count and its names, but not its columns: the final columns
    before the one that failed have been rebuilt, with the rows of the
    frames in them; the others are as the call found or created them.
    A frame that may be the target itself is read at columns that have
    not been rebuilt. *)
Theorem DataTable_rbind_torn (dt dt' : DataTable) (dts : list DataTable)
    (col_indices : list sztvec) (e : Error) :
  reads_unbuilt dt dts col_indices ->
  DataTable_rbind dt dts col_indices = (dt', Some e) ->
  nrows_ dt' = nrows_ dt /\ ncols_ dt' = ncols_ dt /\
  names_ dt' = names_ dt /\
  exists i,
    (i < length col_indices)%nat /\
    (forall k row,
       (k < i)%nat -> col_indices !! k = Some row ->
       exists cs c',
         cols_to_append dts row 0 = Ok cs /\
         Column_rbind (old_column dt k) cs = Ok c' /\
         columns_ dt' !! k = Some c') /\
    (forall k,
       (i <= k)%nat ->
       columns_ dt' !! k =
       (columns_ dt ++
        replicate (length col_indices - ncols_ dt)
          (new_na_column (nrows_ dt) VOID)) !! k).
Proof.
  unfold DataTable_rbind. intros _ H.
  destruct (rbind_each dts col_indices 0 _) as [columns' [e'|]] eqn:E;
    [|discriminate].
  injection H as <- <-. simpl. split_and!; [done|done|done|].
  apply rbind_each_torn in E as (i & Hi & Hdone & Hrest & _).
  exists i. split_and!; [done| |exact Hrest].
  intros k row Hk Hrow.
  destruct (Hdone k row Hk Hrow) as (cs & c & c' & H1 & H2 & H3 & H4).
  simpl in H2, H4. apply old_column_lookup in H2 as ->. eauto.
Qed.

(** ** [py_rbind] *)

(** The function [dt.rbind], when it returns: the frame it makes is a
    table of the data model without a key, with the rows of the frames
    that have rows; its names start with the names of the first of
    these frames; when no frame has rows it is the empty frame. *)
Theorem py_rbind_new_frame (dt' : DataTable) (varargs : list robj)
    (force bynames : bool) (dts : list DataTable) (j : nat) :
  cast_keeps_stype ->
  process_varargs varargs ([], 0%nat) = Ok (dts, j) ->
  Forall rows_ok dts ->
  py_rbind varargs force bynames = (dt', None) ->
  rows_ok dt' /\ shape_ok dt' /\ nkeys_ dt' = 0%nat /\
  nrows_ dt' = table_new_nrows (mkDataTable 0 0 0 [] []) dts /\
  match dts with
  | [] => dt' = mkDataTable 0 0 0 [] []
  | d0 :: _ => names_ d0 `prefix_of` names_ dt'
  end.
Proof.
  intros Hcast Hargs Hdts H. unfold py_rbind, Frame_rbind in H.
  rewrite Hargs in H. destruct dts as [|d0 rest].
  { injection H as <-. split_and!; done. }
  simpl decide in H. cbn match in H.
  destruct (plan_columns (mkDataTable 0 0 0 [] []) (d0 :: rest)
              force bynames) as [p|e] eqn:Ep; [|discriminate].
  apply plan_columns_sized in Ep as [[Hpf Hpc] Hpre]; [|done].
  destruct (DataTable_rbind (mkDataTable 0 0 0 [] [])
              (d0 :: rest) (cols p)) as [dt1 [e|]] eqn:E;
    [discriminate|]. injection H as <-.
  assert (nkeys_ dt1 = 0%nat) as Hk.
  { unfold DataTable_rbind in E.
    destruct (rbind_each _ _ _ _) as [cs [e|]]; [discriminate|].
    now injection E as <-. }
  apply DataTable_rbind_rows in E as (Hr1 & Hn1 & Hl1 & Hc1 & Hnm1);
    [|done|split; [simpl; lia|constructor]|done|done|simpl; lia].
  split_and!; [done| |done|done|exact Hpre].
  split; simpl; congruence.
Qed.

(** ** Appending objects without a cast *)

Lemma obj_like_plain c :
  obj_like c -> materialize c = c /\ 0 <= col_nrows c.
Proof.
  destruct c as [n s|k' d|w o sb|d]; simpl; try done.
  - destruct s; simpl; done.
  - intros _. split; [done|lia].
Qed.

Lemma obj_like_source c :
  cast_obj_same -> obj_like c -> obj_source c /\ obj_prepared c = c.
Proof.
  intros Hcast. destruct c as [n s|k' d|w o sb|d]; simpl; try done.
  - destruct s; done.
  - intros _. unfold obj_source, obj_prepared. simpl.
    rewrite Hcast. eauto.
Qed.

Lemma common_type_obj columns :
  Forall obj_like columns ->
  common_type_of OBJ (col_stype <$> columns) = inl OBJ.
Proof.
  induction 1 as [|c cs Hc _ IH]; [done|]. rewrite fmap_cons.
  cbn [common_type_of].
  destruct c as [n s| | |]; simpl in Hc; try done.
  destruct s; try done.
Qed.

Lemma common_type_void_obj columns :
  Forall obj_like columns -> Exists is_obj columns ->
  common_type_of VOID (col_stype <$> columns) = inl OBJ.
Proof.
  induction 1 as [|c cs Hc Hcs IH]; intros Hex.
  - now apply Exists_nil in Hex.
  - rewrite fmap_cons. cbn [common_type_of].
    destruct c as [n s|k' d|w o sb|d]; simpl in Hc; try done.
    + destruct s; try done. simpl. apply IH.
      apply Exists_cons in Hex as [Hex|Hex]; [done|exact Hex].
    + simpl. now apply common_type_obj.
Qed.

(** [Column::rbind] on object columns and void columns, one of them at
    least an object column, when a cast to the object type leaves an
    object column as it is, the buffer of all the pointers fits
    [size_t] in bytes, and a void target has no rows: the result holds
    the objects of the target, followed by what the columns contribute
    in order, a void column one [None] per row. *)
Theorem Column_rbind_obj_concat (self : Column) (columns : list Column) :
  cast_obj_same ->
  Forall obj_like (self :: columns) ->
  Exists is_obj (self :: columns) ->
  sizeof_ptr * (col_nrows self + total_rows columns) < 2 ^ 64 ->
  (col_stype self = VOID -> col_nrows self = 0) ->
  Column_rbind self columns
  = Ok (SentinelObj_ColumnImpl
          (obj_values self ++ concat (obj_values <$> columns))).
Proof.
  intros Hcast Hall Hex Hbytes Hvoid.
  apply Forall_cons in Hall as [Hself Hcols].
  assert (col_nrows self + total_rows columns < 2 ^ 64) as Hsum.
  { unfold sizeof_ptr in Hbytes. lia. }
  assert (Forall (fun c => materialize c = c /\ 0 <= col_nrows c) columns)
    as Hplain.
  { eapply Forall_impl; [exact Hcols|]. apply obj_like_plain. }
  assert (Forall obj_source columns) as Hsrc.
  { eapply Forall_impl; [exact Hcols|]. intros c Hc.
    now apply obj_like_source. }
  assert (obj_prepared <$> columns = columns) as Hprep.
  { apply fmap_fixed. eapply Forall_impl; [exact Hcols|]. intros c Hc.
    now apply obj_like_source. }
  destruct (obj_like_plain self Hself) as [_ Hn].
  unfold Column_rbind.
  destruct self as [n s|k' d|w o sb|d]; simpl in Hself; try done.
  - destruct s; try done.
    apply Exists_cons in Hex as [Hex|Hex]; [done|].
    cbn [col_nrows col_stype] in Hvoid, Hbytes, Hsum.
    rewrite Hvoid in * by done.
    rewrite (rbind_types_plain columns _ _ OBJ);
      [|done|done|done|now apply common_type_void_obj].
    cbn [bind]. unfold rbind_newcol. simpl col_stype. simpl col_nrows.
    rewrite bool_decide_true by done. unfold new_na_column.
    cbn [materialize rbind_impl]. change (Z.to_nat 0) with 0%nat.
    rewrite (obj_append_empty 0);
      [|done|rewrite Hprep; simpl; lia|exact Hbytes].
    cbn [bind app_new_stype app_self]. rewrite !decide_True by done.
    rewrite Hprep. simpl. now rewrite app_nil_r.
  - cbn [col_nrows] in Hbytes.
    rewrite (rbind_types_plain columns _ _ OBJ);
      [|done|done|done|now apply common_type_obj].
    cbn [bind]. unfold rbind_newcol. simpl col_stype. simpl col_nrows.
    rewrite bool_decide_false by done.
    rewrite decide_True by done. cbn [materialize rbind_impl].
    rewrite obj_append_data; [|done|now rewrite Hprep|exact Hbytes].
    cbn [bind app_new_stype app_self]. rewrite decide_True by done.
    now rewrite Hprep.
Qed.

(** ** [Column::rbind] returns *)

Lemma stype_cases t :
  t = VOID \/ (exists k, t = fw_stype k) \/ (exists w, t = str_stype w) \/
  t = OBJ.
Proof.
  destruct t; first
    [ now left
    | right; left;
      first [ now exists FW_BOOL | now exists FW_INT8 | now exists FW_INT16
            | now exists FW_INT32 | now exists FW_INT64
            | now exists FW_FLOAT32 | now exists FW_FLOAT64 ]
    | right; right; left; first [ now exists W32 | now exists W64 ]
    | now right; right; right ].
Qed.

Lemma fw_stype_inj k k' : fw_stype k = fw_stype k' -> k = k'.
Proof. destruct k, k'; simpl; congruence. Qed.

Lemma materialize_fw c k :
  col_stype c = fw_stype k ->
  exists d, materialize c = SentinelFw_ColumnImpl k d.
Proof.
  destruct c as [n s|k' d|w o sb|d]; simpl; intros H.
  - subst s. destruct k; simpl; eauto.
  - apply fw_stype_inj in H as ->. eauto.
  - destruct w, k; discriminate.
  - destruct k; discriminate.
Qed.

Lemma materialize_obj c :
  col_stype c = OBJ -> exists d, materialize c = SentinelObj_ColumnImpl d.
Proof.
  destruct c as [n s|k' d|w o sb|d]; simpl; intros H.
  - subst s. simpl. eauto.
  - destruct k'; discriminate.
  - destruct w; discriminate.
  - eauto.
Qed.

Lemma col_bytes_materialize c : col_bytes (materialize c) = col_bytes c.
Proof. destruct c as [n []| | |]; reflexivity. Qed.

Lemma rbind_types_ok columns n s t :
  0 <= n -> Forall (fun c => 0 <= col_nrows c) columns ->
  n + total_rows columns < 2 ^ 64 ->
  common_type_of s (col_stype <$> columns) = inl t ->
  rbind_types columns n s
  = Ok (materialize <$> columns, (n + total_rows columns, t)).
Proof.
  intros Hn Hall Hsum Ht.
  pose proof (rbind_types_common columns n s) as H. rewrite Ht in H.
  destruct H as [n' H]. rewrite H.
  apply rbind_types_nrows in H. rewrite rbind_nrows_sum in H by done.
  now subst n'.
Qed.

Lemma total_rows_fmap (f : Column -> Column) columns :
  Forall (fun c => col_nrows (f c) = col_nrows c) columns ->
  total_rows (f <$> columns) = total_rows columns.
Proof.
  induction 1 as [|c cs Hc _ IH]; [done|].
  rewrite fmap_cons, !total_rows_cons. now rewrite Hc, IH.
Qed.

Lemma total_bytes_materialize columns :
  total_bytes (materialize <$> columns) = total_bytes columns.
Proof.
  induction columns as [|c cs IH]; [done|].
  rewrite fmap_cons, !total_bytes_cons.
  now rewrite col_bytes_materialize, IH.
Qed.

Lemma total_rows_materialize columns :
  Forall (fun c => 0 <= col_nrows c) columns ->
  total_rows (materialize <$> columns) = total_rows columns.
Proof.
  intros H. apply total_rows_fmap. eapply Forall_impl; [exact H|].
  intros c Hc. now apply materialize_nrows.
Qed.

Lemma rbind_newcol_nrows self t :
  cast_keeps_nrows -> 0 <= col_nrows self ->
  col_nrows (rbind_newcol self t) = col_nrows self.
Proof.
  intros Hrows Hn. unfold rbind_newcol. cbn zeta.
  case_bool_decide; [now rewrite materialize_nrows|].
  destruct (decide _); [now rewrite materialize_nrows|].
  rewrite materialize_nrows; now rewrite Hrows.
Qed.

Lemma rbind_newcol_fw self k :
  cast_keeps_stype ->
  exists d, rbind_newcol self (fw_stype k) = SentinelFw_ColumnImpl k d.
Proof.
  intros Hcast. unfold rbind_newcol. apply materialize_fw.
  case_bool_decide; [done|]. destruct (decide _); [done|apply Hcast].
Qed.

(** *** A fixed-width result *)

Lemma fw_source_materialize k c :
  cast_keeps_stype -> 0 <= col_nrows c -> fw_source k (materialize c).
Proof.
  intros Hcast Hn. unfold fw_source, fw_prepared.
  rewrite col_stype_materialize.
  destruct (decide (col_stype c = VOID)); [now rewrite materialize_nrows|].
  destruct (decide (col_stype c = fw_stype k)) as [Hk|Hk].
  - destruct (materialize_fw c k Hk) as [d ->]. eauto.
  - destruct (materialize_fw (cast (fw_stype k) (materialize c)) k)
      as [d ->]; [apply Hcast|eauto].
Qed.

Lemma fw_prepared_materialize_nrows k c :
  cast_keeps_nrows -> 0 <= col_nrows c ->
  col_nrows (fw_prepared k (materialize c)) = col_nrows c.
Proof.
  intros Hrows Hn.
  pose proof (materialize_nrows c Hn) as Hm.
  unfold fw_prepared.
  destruct (decide _); [done|]. destruct (decide _); [done|].
  rewrite materialize_nrows; rewrite Hrows; lia.
Qed.

Lemma fw_append_returns k mbuf_ columns new_nrows col_empty new_stype :
  Forall (fw_source k) columns ->
  new_nrows
    = Z.of_nat (length mbuf_) + total_rows (fw_prepared k <$> columns) ->
  sizeof_T k * new_nrows < 2 ^ 64 ->
  exists d,
    SentinelFw_rbind_impl k mbuf_ columns new_nrows col_empty new_stype
    = Ok (mkAppended (SentinelFw_ColumnImpl k d)
            (fw_prepared k <$> columns) new_stype).
Proof.
  intros Hsrc Hrows Hb. destruct col_empty.
  - rewrite fw_append_empty by done. eauto.
  - rewrite fw_append_data by done. eauto.
Qed.

Lemma Column_rbind_returns_fw self columns k :
  cast_keeps_stype -> cast_keeps_nrows ->
  Forall (fun c => 0 <= col_nrows c) (self :: columns) ->
  sizeof_T k * (col_nrows self + total_rows columns) < 2 ^ 64 ->
  common_type_of (col_stype self) (col_stype <$> columns)
    = inl (fw_stype k) ->
  exists c, Column_rbind self columns = Ok c.
Proof.
  intros Hcast Hrows Hall Hb Ht. apply Forall_cons in Hall as [Hself Hcols].
  assert (col_nrows self + total_rows columns < 2 ^ 64) as Hsum.
  { pose proof (sizeof_T_pos k). nia. }
  unfold Column_rbind.
  rewrite (rbind_types_ok _ _ _ _ Hself Hcols Hsum Ht). cbn [bind]. cbn zeta.
  pose proof (rbind_newcol_nrows self (fw_stype k) Hrows Hself) as Hn.
  destruct (rbind_newcol_fw self k Hcast) as [d Hd]. rewrite Hd in *.
  simpl in Hn. cbn [rbind_impl].
  destruct (fw_append_returns k d (materialize <$> columns)
              (col_nrows self + total_rows columns)
              (bool_decide (col_stype self = VOID)) VOID) as [d' ->].
  - apply Forall_fmap. eapply Forall_impl; [exact Hcols|].
    intros c Hc. now apply fw_source_materialize.
  - rewrite <- list_fmap_compose, total_rows_fmap; [lia|].
    eapply Forall_impl; [exact Hcols|]. intros c Hc.
    now apply fw_prepared_materialize_nrows.
  - exact Hb.
  - cbn [bind app_new_stype app_self]. rewrite decide_True by done. eauto.
Qed.

(** *** An object result *)

Lemma obj_source_materialize c :
  cast_keeps_stype -> cast_keeps_nrows -> 0 <= col_nrows c ->
  obj_source (materialize c).
Proof.
  intros Hcast Hrows Hn. unfold obj_source. rewrite col_stype_materialize.
  destruct (decide _); [now rewrite materialize_nrows|].
  pose proof (Hcast OBJ (materialize c)) as Hs.
  pose proof (Hrows OBJ (materialize c)) as Hr.
  rewrite materialize_nrows in Hr by done.
  destruct (cast OBJ (materialize c)) as [m s|k d|w o sb|d]; simpl in *;
    try done.
  - lia.
  - destruct k; discriminate.
  - destruct w; discriminate.
Qed.

Lemma obj_prepared_materialize_nrows c :
  cast_keeps_nrows -> 0 <= col_nrows c ->
  col_nrows (obj_prepared (materialize c)) = col_nrows c.
Proof.
  intros Hrows Hn. pose proof (materialize_nrows c Hn) as Hm.
  unfold obj_prepared. destruct (decide _); [done|]. now rewrite Hrows.
Qed.

Lemma obj_append_returns mbuf_ columns nnrows col_empty new_stype :
  Forall obj_source columns ->
  nnrows = Z.of_nat (length mbuf_) + total_rows (obj_prepared <$> columns) ->
  sizeof_ptr * nnrows < 2 ^ 64 ->
  (col_empty = true -> mbuf_ = replicate (length mbuf_) Py_None) ->
  exists d,
    SentinelObj_rbind_impl mbuf_ columns nnrows col_empty new_stype
    = Ok (mkAppended (SentinelObj_ColumnImpl d) (obj_prepared <$> columns)
            new_stype).
Proof.
  intros Hsrc Hrows Hb He. destruct col_empty.
  - rewrite He by done.
    rewrite obj_append_empty; [eauto|done|exact Hrows|done].
  - rewrite obj_append_data by done. eauto.
Qed.

Lemma rbind_newcol_obj self :
  cast_keeps_stype ->
  exists d,
    rbind_newcol self OBJ = SentinelObj_ColumnImpl d /\
    (bool_decide (col_stype self = VOID) = true ->
     d = replicate (length d) Py_None).
Proof.
  intros Hcast. unfold rbind_newcol. cbn zeta. case_bool_decide.
  - simpl. eexists. split; [reflexivity|]. intros _.
    now rewrite length_replicate.
  - destruct (materialize_obj
                (if decide (col_stype self = OBJ) then self
                 else cast OBJ self)) as [d ->].
    + destruct (decide _); [done|apply Hcast].
    + exists d. split; [done|discriminate].
Qed.

Lemma Column_rbind_returns_obj self columns :
  cast_keeps_stype -> cast_keeps_nrows ->
  Forall (fun c => 0 <= col_nrows c) (self :: columns) ->
  sizeof_ptr * (col_nrows self + total_rows columns) < 2 ^ 64 ->
  common_type_of (col_stype self) (col_stype <$> columns) = inl OBJ ->
  exists c, Column_rbind self columns = Ok c.
Proof.
  intros Hcast Hrows Hall Hb Ht. apply Forall_cons in Hall as [Hself Hcols].
  assert (col_nrows self + total_rows columns < 2 ^ 64) as Hsum.
  { unfold sizeof_ptr in Hb. lia. }
  unfold Column_rbind.
  rewrite (rbind_types_ok _ _ _ _ Hself Hcols Hsum Ht). cbn [bind]. cbn zeta.
  pose proof (rbind_newcol_nrows self OBJ Hrows Hself) as Hn.
  destruct (rbind_newcol_obj self Hcast) as (d & Hd & Hnone).
  rewrite Hd in *. simpl in Hn. cbn [rbind_impl].
  destruct (obj_append_returns d (materialize <$> columns)
              (col_nrows self + total_rows columns)
              (bool_decide (col_stype self = VOID)) VOID) as [d' ->].
  - apply Forall_fmap. eapply Forall_impl; [exact Hcols|].
    intros c Hc. now apply obj_source_materialize.
  - rewrite <- list_fmap_compose, total_rows_fmap; [lia|].
    eapply Forall_impl; [exact Hcols|]. intros c Hc.
    now apply obj_prepared_materialize_nrows.
  - exact Hb.
  - exact Hnone.
  - cbn [bind app_new_stype app_self]. rewrite decide_True by done. eauto.
Qed.

(** *** A void result *)

Lemma Column_rbind_returns_void self columns :
  cast_keeps_stype ->
  Forall (fun c => 0 <= col_nrows c) (self :: columns) ->
  col_nrows self + total_rows columns < 2 ^ 64 ->
  common_type_of (col_stype self) (col_stype <$> columns) = inl VOID ->
  exists c, Column_rbind self columns = Ok c.
Proof.
  intros Hcast Hall Hsum Ht. apply Forall_cons in Hall as [Hself Hcols].
  unfold Column_rbind.
  rewrite (rbind_types_ok _ _ _ _ Hself Hcols Hsum Ht). cbn [bind]. cbn zeta.
  pose proof (rbind_newcol_stype self VOID Hcast) as Hs.
  destruct (rbind_newcol self VOID) as [n s|k d|w o sb|d]; simpl in Hs.
  - cbn [rbind_impl]. unfold ConstNa_rbind_impl.
    cbn [bind app_new_stype app_self]. rewrite decide_True by done. eauto.
  - destruct k; discriminate.
  - destruct w; discriminate.
  - discriminate.
Qed.

(** *** A string result *)

Lemma common_str_inv a b w :
  common a b = Some (str_stype w) -> str_or_void a /\ str_or_void b.
Proof.
  unfold str_or_void.
  destruct a, b, w; vm_compute; intros H; try discriminate H; tauto.
Qed.

Lemma common_void_inv a b : common a b = Some VOID -> a = VOID /\ b = VOID.
Proof.
  destruct a, b; vm_compute; intros H; try discriminate H; tauto.
Qed.

Lemma common_type_str_inv types :
  forall s w,
    common_type_of s types = inl (str_stype w) ->
    str_or_void s /\ Forall str_or_void types.
Proof.
  induction types as [|t0 rest IH]; intros s w H; simpl in H.
  - injection H as ->. split; [|constructor].
    unfold str_or_void. destruct w; simpl; auto.
  - destruct (common s t0) as [next|] eqn:E; [|discriminate].
    apply IH in H as [Hn Hrest].
    assert (str_or_void s /\ str_or_void t0) as [Hs Ht0].
    { destruct Hn as [-> | [-> | ->]].
      - apply common_void_inv in E as [-> ->]. unfold str_or_void. auto.
      - now apply (common_str_inv s t0 W32).
      - now apply (common_str_inv s t0 W64). }
    split; [done|]. now constructor.
Qed.

Lemma str_wf_na_run w n : str_wf w (replicate n (GETNA w)) [].
Proof.
  pose proof (GETNA_pos w) as Hg.
  assert (clear_na w (GETNA w) = 0) as Hc.
  { exact (clear_na_tagged w 0 ltac:(lia)). }
  split.
  - apply Forall_replicate. rewrite pow_bits, Hc. simpl. lia.
  - exact (last_off_na_run w 0 n ltac:(lia) 0
             (clear_na_plain w 0 ltac:(lia))).
Qed.

Lemma str_source_materialize c :
  col_ok c -> str_or_void (col_stype c) -> str_source (materialize c).
Proof.
  intros [Hn Hwf] Hs. destruct c as [n s|k d|w o sb|d]; simpl in *.
  - destruct Hs as [-> | [-> | ->]]; simpl.
    + done.
    + apply str_wf_na_run.
    + apply str_wf_na_run.
  - destruct Hs as [H|[H|H]]; destruct k; discriminate.
  - exact Hwf.
  - destruct Hs as [H|[H|H]]; discriminate.
Qed.

Lemma str_sizes_plain w cs :
  Forall str_source cs ->
  forall init, exists sz, str_sizes w cs init = Ok (cs, sz).
Proof.
  induction 1 as [|c cs Hc _ IH]; intros init; simpl; [eauto|].
  destruct (decide (col_stype c = VOID)).
  - destruct (IH init) as [sz ->]. simpl. eauto.
  - destruct c as [m s| |w' o sb|]; simpl in Hc; try done.
    + destruct Hc as [-> _]. done.
    + rewrite decide_True by now destruct w'.
      simpl. destruct (IH (size_add init (Z.of_nat (length sb)))) as [sz ->].
      simpl. eauto.
Qed.

(** The string appender returns: with the column built, or, at 32-bit
    width, with the request for 64-bit offsets. *)
Lemma str_append_returns w (offs_ : list Z) (strbuf_ : list Byte.byte)
    columns new_nrows (col_empty : bool) new_stype :
  Forall str_source columns ->
  (col_empty = false -> str_wf w offs_ strbuf_) ->
  new_nrows = Z.of_nat (length offs_) + total_rows columns ->
  sizeof_off w * (new_nrows + 1) < 2 ^ 64 ->
  (if col_empty then 0 else Z.of_nat (length strbuf_))
    + total_bytes columns < 2 ^ 63 ->
  exists a,
    SentinelStr_rbind_impl w offs_ strbuf_ columns new_nrows col_empty
      new_stype = Ok a /\
    app_columns a = columns /\
    (app_new_stype a = new_stype \/
     w = W32 /\ app_self a = SentinelStr_ColumnImpl W32 offs_ strbuf_ /\
     app_new_stype a = STR64).
Proof.
  intros Hsrc Hwf Hrows Hr64 Hb63.
  destruct (str_sizes_plain w columns Hsrc
              (if col_empty then 0
               else size_add 0 (Z.of_nat (length strbuf_)))) as [sz Hsz].
  destruct (bool_decide (w = W32) &&
            (bool_decide (sz > MAX_ARR32_SIZE)
             || bool_decide (new_nrows > MAX_ARR32_SIZE))) eqn:Echeck.
  - destruct (andb_prop _ _ Echeck) as [Hw _].
    apply bool_decide_eq_true in Hw. subst w.
    unfold SentinelStr_rbind_impl. rewrite Hsz. cbn [bind]. cbn zeta.
    rewrite Echeck. eexists. split; [reflexivity|]. simpl. auto.
  - assert (w = W32 -> sz <= MAX_ARR32_SIZE /\ new_nrows <= MAX_ARR32_SIZE)
      as Hcheck.
    { intros ->. rewrite bool_decide_eq_true_2 in Echeck by done.
      simpl in Echeck. apply orb_false_iff in Echeck as [H1 H2].
      apply bool_decide_eq_false in H1, H2. lia. }
    destruct col_empty.
    + destruct (str_append_empty w offs_ strbuf_ columns columns new_nrows
                  new_stype sz) as (o & sb & -> & _); try done.
      eexists. split; [reflexivity|]. simpl. auto.
    + destruct (str_append_data w offs_ strbuf_ columns columns new_nrows
                  new_stype sz) as (o & sb & -> & _); try done.
      { now apply Hwf. }
      eexists. split; [reflexivity|]. simpl. auto.
Qed.

(** The string column [Column::rbind] starts from. *)
Lemma rbind_newcol_str self w :
  cast_keeps_stype -> cast_str_ok ->
  col_ok self -> str_or_void (col_stype self) ->
  exists o sb,
    rbind_newcol self (str_stype w) = SentinelStr_ColumnImpl w o sb /\
    str_wf w o sb /\
    (if bool_decide (col_stype self = VOID) then 0
     else Z.of_nat (length sb)) <= col_bytes self.
Proof.
  intros Hcast Hstr Hok Hs.
  pose proof (rbind_newcol_stype self (str_stype w) Hcast) as Ht.
  assert (0 <= col_bytes self) as Hb0.
  { destruct self; simpl; lia. }
  unfold rbind_newcol in *. cbn zeta in *.
  set (x := if bool_decide (col_stype self = VOID)
            then new_na_column (col_nrows self) (str_stype w)
            else if decide (col_stype self = str_stype w) then self
                 else cast (str_stype w) self) in *.
  assert (col_ok x /\ str_or_void (col_stype x) /\
          (if bool_decide (col_stype self = VOID) then 0
           else col_bytes x) <= col_bytes self) as (Hx & Hsx & Hbx).
  { subst x. case_bool_decide as Hv.
    - split_and!; [split; [apply Hok|done]| |done].
      unfold str_or_void. destruct w; simpl; auto.
    - destruct (decide (col_stype self = str_stype w)).
      + split_and!; [done|done|lia].
      + assert (col_ltype self = LT_STRING) as Hl.
        { unfold col_ltype. destruct Hs as [H|[H|H]]; [done| |];
            now rewrite H. }
        destruct (Hstr w self Hok Hl) as [H1 H2].
        split_and!; [done| |done]. rewrite Hcast.
        unfold str_or_void. destruct w; simpl; auto. }
  rewrite col_stype_materialize in Ht.
  destruct (materialize_str x w Ht) as (o & sb & Hm).
  pose proof (str_source_materialize x Hx Hsx) as Hsrc.
  pose proof (col_bytes_materialize x) as Hbm.
  rewrite Hm in *. simpl in Hsrc, Hbm. exists o, sb.
  split_and!; [done|done|]. case_bool_decide; lia.
Qed.

Lemma Column_rbind_returns_str self columns w :
  cast_keeps_stype -> cast_keeps_nrows -> cast_str_ok ->
  Forall col_ok (self :: columns) ->
  8 * (col_nrows self + total_rows columns + 1) < 2 ^ 64 ->
  col_bytes self + total_bytes columns < 2 ^ 63 ->
  common_type_of (col_stype self) (col_stype <$> columns)
    = inl (str_stype w) ->
  exists c, Column_rbind self columns = Ok c.
Proof.
  intros Hcast Hrows Hstr Hall Hb Hbytes Ht.
  apply Forall_cons in Hall as [Hself Hcols].
  destruct (common_type_str_inv _ _ _ Ht) as [Hs Hss].
  assert (Forall (fun c => 0 <= col_nrows c) columns) as Hnn.
  { eapply Forall_impl; [exact Hcols|]. now intros c [H _]. }
  assert (0 <= col_nrows self) as Hn0 by apply Hself.
  assert (Forall str_source (materialize <$> columns)) as Hsrc.
  { apply Forall_fmap, Forall_lookup_2. intros i c Hi. simpl.
    apply str_source_materialize.
    - exact (Forall_lookup_1 _ _ _ _ Hcols Hi).
    - apply (Forall_lookup_1 _ _ i _ Hss). now rewrite list_lookup_fmap, Hi. }
  pose proof (total_rows_materialize columns Hnn) as Htr.
  pose proof (total_bytes_materialize columns) as Htb.
  unfold Column_rbind.
  rewrite (rbind_types_ok _ _ _ _ Hn0 Hnn ltac:(lia) Ht). cbn [bind].
  cbn zeta.
  pose proof (rbind_newcol_nrows self (str_stype w) Hrows Hn0) as Hn.
  destruct (rbind_newcol_str self w Hcast Hstr Hself Hs)
    as (o & sb & Hd & Hwf & Hsb).
  rewrite Hd in *. simpl in Hn. cbn [rbind_impl].
  pose proof (sizeof_off_pos w) as Hw.
  assert (sizeof_off w <= 8) as Hw8 by (destruct w; simpl; lia).
  destruct (str_append_returns w o sb (materialize <$> columns)
              (col_nrows self + total_rows columns)
              (bool_decide (col_stype self = VOID)) VOID)
    as (a1 & -> & Hcs1 & Hcase).
  - exact Hsrc.
  - intros _. exact Hwf.
  - lia.
  - nia.
  - rewrite Htb. destruct (bool_decide (col_stype self = VOID)); lia.
  - cbn [bind]. destruct Hcase as [Hv|(-> & Ha1 & H64)].
    + rewrite decide_True by done. eauto.
    + rewrite H64, Ha1, Hcs1. rewrite decide_False by done.
      assert (col_ok (SentinelStr_ColumnImpl W32 o sb)) as Hok1.
      { split; [simpl; lia|exact Hwf]. }
      destruct (Hstr W64 _ Hok1 eq_refl) as [Hok2 Hb2].
      pose proof (Hcast STR64 (SentinelStr_ColumnImpl W32 o sb)) as Hs2.
      pose proof (Hrows STR64 (SentinelStr_ColumnImpl W32 o sb)) as Hr2.
      set (x := cast STR64 (SentinelStr_ColumnImpl W32 o sb)) in *.
      destruct (materialize_str x W64 Hs2) as (o2 & sb2 & Hm).
      assert (str_source (materialize x)) as Hsrc2.
      { apply str_source_materialize; [done|].
        rewrite Hs2. unfold str_or_void. auto. }
      pose proof (col_bytes_materialize x) as Hbm.
      pose proof (materialize_nrows x (proj1 Hok2)) as Hnm.
      rewrite Hm in *. simpl in Hsrc2, Hbm, Hnm, Hr2, Hb2.
      assert (Z.of_nat (length sb2) <= Z.of_nat (length sb)) as Hle.
      { subst x. lia. }
      cbn [rbind_impl].
      destruct (str_append_returns W64 o2 sb2 (materialize <$> columns)
                  (col_nrows self + total_rows columns)
                  (bool_decide (col_stype self = VOID)) STR64)
        as (a2 & -> & _).
      * exact Hsrc.
      * intros _. exact Hsrc2.
      * lia.
      * simpl. lia.
      * rewrite Htb.
        destruct (bool_decide (col_stype self = VOID)); lia.
      * cbn [bind]. eauto.
Qed.

(** *** The result, whatever its type *)

Lemma Column_rbind_returns self columns t :
  cast_keeps_stype -> cast_keeps_nrows -> cast_str_ok ->
  Forall col_ok (self :: columns) ->
  8 * (col_nrows self + total_rows columns + 1) < 2 ^ 64 ->
  col_bytes self + total_bytes columns < 2 ^ 63 ->
  common_type_of (col_stype self) (col_stype <$> columns) = inl t ->
  exists c, Column_rbind self columns = Ok c.
Proof.
  intros Hcast Hrows Hstr Hall Hb Hbytes Ht.
  assert (Forall (fun c => 0 <= col_nrows c) (self :: columns)) as Hnn.
  { eapply Forall_impl; [exact Hall|]. now intros c [H _]. }
  assert (0 <= col_nrows self + total_rows columns) as Hr0.
  { apply Forall_cons in Hnn as [H1 H2].
    pose proof (total_rows_nonneg columns H2). lia. }
  destruct (stype_cases t) as [-> | [[k ->] | [[w ->] | ->]]].
  - apply Column_rbind_returns_void; try done. lia.
  - apply (Column_rbind_returns_fw self columns k); try done.
    assert (sizeof_T k <= 8) by (destruct k; simpl; lia).
    pose proof (sizeof_T_pos k). nia.
  - now apply (Column_rbind_returns_str self columns w).
  - apply Column_rbind_returns_obj; try done. unfold sizeof_ptr. lia.
Qed.

(** [C5] The type of the column [Column::rbind] builds, given that a cast
    returns a column of the type asked for.  When the fold of [common]
    over the target's type and the columns' types, left to right, meets a
    pair without a common type, the call throws the type error that names
    the column's type and the type reached so far.  Otherwise it throws no
    type error, and a column it returns has the element type the fold
    arrives at; and it does return such a column when the columns are
    columns of the data model, a cast keeps the number of rows and keeps
    a string column one of the data model, and the sizes fit: the rows
    and one more take less than [2^64] bytes at eight bytes each, and the
    string data is less than [2^63] bytes.  On the lattice of section
    4.4, bool with int32 gives int32, int32 with float64 gives float64,
    and a string type with int32 has no common type. *)
Theorem result_type_is_common_type (self : Column) (columns : list Column) :
  cast_keeps_stype ->
  match common_type_of (col_stype self) (col_stype <$> columns) with
  | inr (col_type, new_type) =>
      Column_rbind self columns = Err (TypeError_rbind col_type new_type)
  | inl t =>
      match Column_rbind self columns with
      | Ok c => element_type (col_stype c) = element_type t
      | Err e => e = Fault
      end /\
      (cast_keeps_nrows -> cast_str_ok ->
       Forall col_ok (self :: columns) ->
       8 * (col_nrows self + total_rows columns + 1) < 2 ^ 64 ->
       col_bytes self + total_bytes columns < 2 ^ 63 ->
       exists c,
         Column_rbind self columns = Ok c /\
         element_type (col_stype c) = element_type t)
  end /\
  common BOOL INT32 = Some INT32 /\
  common INT32 FLOAT64 = Some FLOAT64 /\
  common STR32 INT32 = None /\ common STR64 INT32 = None /\
  common_type_of STR32 [INT32] = inr (INT32, STR32).
Proof.
  intros Hcast. split; [|repeat split; reflexivity].
  pose proof (rbind_types_common columns (col_nrows self) (col_stype self))
    as Ht.
  destruct (common_type_of (col_stype self) (col_stype <$> columns))
    as [t|[ct at_]] eqn:Et.
  2:{ unfold Column_rbind. now rewrite Ht. }
  assert (match Column_rbind self columns with
          | Ok c => element_type (col_stype c) = element_type t
          | Err e => e = Fault
          end) as Htype.
  { unfold Column_rbind. destruct Ht as [n ->]. simpl.
    pose proof (rbind_newcol_stype self t Hcast) as Hnew.
    pose proof (only_fault_rbind_impl (rbind_newcol self t)
                  (materialize <$> columns) n
                  (bool_decide (col_stype self = VOID)) VOID) as Hf1.
    destruct (rbind_impl (rbind_newcol self t) _ _ _ VOID) as [a1|e] eqn:E1;
      simpl; [|now apply Hf1].
    apply rbind_impl_stype in E1 as [Hs1 Hn1].
    destruct (decide (app_new_stype a1 = VOID)) as [Hv|Hv].
    { congruence. }
    destruct Hn1 as [Hn1|(H32 & Hself & H64)]; [contradiction|].
    rewrite H64.
    pose proof (only_fault_rbind_impl
                  (materialize (cast STR64 (app_self a1)))
                  (app_columns a1) n
                  (bool_decide (col_stype self = VOID)) STR64) as Hf2.
    destruct (rbind_impl (materialize (cast STR64 (app_self a1))) _ _ _
                STR64) as [a2|e] eqn:E2; simpl; [|now apply Hf2].
    apply rbind_impl_stype in E2 as [Hs2 _].
    rewrite Hs2, col_stype_materialize, Hcast.
    rewrite <- Hnew, H32. reflexivity. }
  split; [exact Htype|].
  intros Hrows Hstr Hall Hb Hbytes.
  destruct (Column_rbind_returns self columns t Hcast Hrows Hstr Hall Hb
              Hbytes Et) as [c Hc].
  exists c. split; [exact Hc|]. now rewrite Hc in Htype.
Qed.

End Rbind.

(** * Examples *)

Lemma ex_cast_keeps_stype : cast_keeps_stype ex_cast.
Proof.
  intros s c. unfold ex_cast. now destruct (decide (col_stype c = s)).
Defined.

(** The first example of the documentation of [dt.rbind]: six rows. *)
Lemma row_count_adds_up_witness :
  nrows_ ex_DT12 = (nrows_ ex_DT1 + sum_nrows [ex_DT2]) mod 2 ^ 64 /\
  (nrows_ ex_DT1 + sum_nrows [ex_DT2] < 2 ^ 64 ->
   nrows_ ex_DT12 = nrows_ ex_DT1 + sum_nrows [ex_DT2]) /\
  sum_nrows [ex_DT2] = sum_nrows (all_frames [PyFrame ex_norows;
                                                PyFrame ex_DT2]).
Proof.
  apply (row_count_adds_up ex_cast ex_GETNA_fw 0 Byte.x00 ex_DT1 ex_DT12
           [PyFrame ex_norows; PyFrame ex_DT2] false true [ex_DT2] 2%nat).
  - reflexivity.
  - vm_compute. reflexivity.
  - simpl. lia.
  - repeat constructor. simpl. lia.
Defined.

(** A frame of one void column of [2^63] rows, appended to itself: the
    call returns and leaves a frame without rows. *)
Example void63_self_append :
  Frame_rbind ex_cast ex_GETNA_fw 0 Byte.x00 ex_void63 [PyFrame ex_void63]
    false true
  = (mkDataTable 0 1 0 [ConstNa_ColumnImpl 0 VOID] ["A"]%string, None).
Proof. vm_compute. reflexivity. Qed.

(** [C1], as stated, fails: the call above returns, and the row count it
    leaves is not the sum of the row counts, which is [2^64]. *)
Lemma row_count_wraps_around :
  ~ (forall dt',
       Frame_rbind ex_cast ex_GETNA_fw 0 Byte.x00 ex_void63
         [PyFrame ex_void63] false true = (dt', None) ->
       nrows_ dt'
       = nrows_ ex_void63
         + sum_nrows (filter has_rows (all_frames [PyFrame ex_void63]))).
Proof.
  intros H.
  specialize (H (mkDataTable 0 1 0 [ConstNa_ColumnImpl 0 VOID] ["A"]%string)).
  assert (0 = 2 ^ 63 + (2 ^ 63 + 0)) as Hk; [|discriminate Hk].
  apply H. vm_compute. reflexivity.
Qed.

(** A 64-bit string column takes a 32-bit one, a void one and a 64-bit
    one. *)
Lemma string_round_trip_witness :
  exists offs' sb',
    SentinelStr_rbind_impl ex_cast ex_GETNA_fw 0 Byte.x00 W64
      [2; 2 ^ 63 + 2; 3] [Byte.x61; Byte.x62; Byte.x63]
      [ex_str32; ConstNa_ColumnImpl 2 VOID; ex_str64] 10 false VOID
      = Ok (mkAppended (SentinelStr_ColumnImpl W64 offs' sb')
              [ex_str32; ConstNa_ColumnImpl 2 VOID; ex_str64] VOID) /\
    length offs' = Z.to_nat 10 /\
    length sb' = Z.to_nat 8 /\
    str_decode W64 0 offs' sb'
      = str_decode W64 0 [2; 2 ^ 63 + 2; 3] [Byte.x61; Byte.x62; Byte.x63]
        ++ concat (col_values <$>
                     [ex_str32; ConstNa_ColumnImpl 2 VOID; ex_str64]).
Proof.
  apply (string_round_trip ex_cast ex_GETNA_fw 0 Byte.x00 W64
           [2; 2 ^ 63 + 2; 3] [Byte.x61; Byte.x62; Byte.x63]
           [ex_str32; ConstNa_ColumnImpl 2 VOID; ex_str64]
           [ex_str32; ConstNa_ColumnImpl 2 VOID; ex_str64]
           10 false VOID 8).
  - reflexivity.
  - repeat constructor; vm_compute; try reflexivity; intros [=].
  - intros _. repeat constructor; vm_compute; try reflexivity; intros [=].
  - reflexivity.
  - reflexivity.
  - reflexivity.
  - intros [=].
Defined.


Lemma ex_cast_keeps_nrows : cast_keeps_nrows ex_cast.
Proof.
  intros s c. unfold ex_cast. now destruct (decide (col_stype c = s)).
Defined.

Lemma ex_cast_str_ok : cast_str_ok ex_cast.
Proof.
  intros w c Hok _. unfold ex_cast.
  destruct (decide (col_stype c = str_stype w)); [split; [done|lia]|].
  split; [split; [apply Hok|done]|]. destruct c; simpl; lia.
Defined.

(** A boolean column takes an integer column: the call returns an
    integer column. *)
Lemma result_type_is_common_type_witness :
  exists c,
    Column_rbind ex_cast ex_GETNA_fw 0 Byte.x00
      (SentinelFw_ColumnImpl FW_BOOL [1; 0]) [ex_int32 [7]] = Ok c /\
    element_type (col_stype c) = E_int32.
Proof.
  apply (proj2 (proj1 (result_type_is_common_type ex_cast ex_GETNA_fw 0
                         Byte.x00 (SentinelFw_ColumnImpl FW_BOOL [1; 0])
                         [ex_int32 [7]] ex_cast_keeps_stype))).
  - exact ex_cast_keeps_nrows.
  - exact ex_cast_str_ok.
  - repeat constructor; simpl; lia.
  - vm_compute. reflexivity.
  - vm_compute. reflexivity.
Defined.

(** The column the call above returns; the cast of the examples loses
    the two boolean values. *)
Example promotion_example :
  Column_rbind ex_cast ex_GETNA_fw 0 Byte.x00
    (SentinelFw_ColumnImpl FW_BOOL [1; 0]) [ex_int32 [7]]
  = Ok (ex_int32 [-2147483648; -2147483648; 7]).
Proof. vm_compute. reflexivity. Qed.

(** An integer column takes a column of doubles, and a string column
    refuses an integer column. *)
Example promotion_example_float :
  Column_rbind ex_cast ex_GETNA_fw 0 Byte.x00
    (ex_int32 [1]) [SentinelFw_ColumnImpl FW_FLOAT64 [2]]
  = Ok (SentinelFw_ColumnImpl FW_FLOAT64 [9218868437227407266; 2]).
Proof. vm_compute. reflexivity. Qed.

Example conflict_example :
  Column_rbind ex_cast ex_GETNA_fw 0 Byte.x00 ex_str32 [ex_int32 [7]]
  = Err (TypeError_rbind INT32 STR32).
Proof. vm_compute. reflexivity. Qed.

(** Three columns to a frame of two, without [force]. *)
Lemma schema_errors_leave_target_witness :
  exists e,
    Frame_rbind ex_cast ex_GETNA_fw 0 Byte.x00 ex_DT1 [PyFrame ex_DT3]
      false true = (ex_DT1, Some e) /\
    schema_error 2 ["Weight"; "Height"]%string [ex_DT3] e /\
    (true = false -> exists n1, e = ValueError_ncols 2 n1).
Proof.
  apply (schema_errors_leave_target ex_cast ex_GETNA_fw 0 Byte.x00 ex_DT1
           [PyFrame ex_DT3] true [ex_DT3] 1%nat).
  - reflexivity.
  - reflexivity.
  - reflexivity.
  - left. exists ex_DT3. split; [apply list_elem_of_singleton; reflexivity|].
    simpl. lia.
Defined.

Lemma keyed_target_rejected_witness :
  Frame_rbind ex_cast ex_GETNA_fw 0 Byte.x00 ex_keyed [PyFrame ex_DT2]
    false true = (ex_keyed, Some ValueError_keyed).
Proof.
  apply (proj2 (keyed_target_rejected ex_cast ex_GETNA_fw 0 Byte.x00
                  ex_keyed [PyFrame ex_DT2] false true
                  ltac:(simpl; lia)) [ex_DT2] 1%nat).
  - reflexivity.
  - discriminate.
Defined.

(** [C7], as stated, fails: a keyed target and no frame with rows. *)
Lemma keyed_target_without_sources :
  ~ ((0 < nkeys_ ex_keyed)%nat ->
     snd (Frame_rbind ex_cast ex_GETNA_fw 0 Byte.x00 ex_keyed
            [PyFrame ex_norows] false true) = Some ValueError_keyed).
Proof.
  intros H. assert (0 < nkeys_ ex_keyed)%nat as Hk by (simpl; lia).
  apply H in Hk. discriminate Hk.
Qed.

Lemma zero_row_sources_skipped_witness :
  [ex_DT2] = filter has_rows
               (all_frames [PyFrame ex_norows; PyIter [PyFrame ex_DT2]]) /\
  Frame_rbind ex_cast ex_GETNA_fw 0 Byte.x00 ex_DT1
    [PyFrame ex_norows; PyIter [PyFrame ex_DT2]] false true
    = Frame_rbind ex_cast ex_GETNA_fw 0 Byte.x00 ex_DT1
        (PyFrame <$> [ex_DT2]) false true /\
  ([ex_DT2] = [] ->
   Frame_rbind ex_cast ex_GETNA_fw 0 Byte.x00 ex_DT1
     [PyFrame ex_norows; PyIter [PyFrame ex_DT2]] false true
     = (ex_DT1, None)).
Proof.
  apply (zero_row_sources_skipped ex_cast ex_GETNA_fw 0 Byte.x00 ex_DT1
           [PyFrame ex_norows; PyIter [PyFrame ex_DT2]] false true
           [ex_DT2] 2%nat).
  reflexivity.
Defined.

Lemma same_position_shortcut_invisible_witness :
  plan_columns ex_DT1 [ex_DT2; ex_DT3] true true
    = plan_columns_lookup ex_DT1 [ex_DT2; ex_DT3] true.
Proof.
  apply (same_position_shortcut_invisible ex_DT1 [ex_DT2; ex_DT3] true).
  - reflexivity.
  - simpl. compute_done.
Defined.

Lemma zero_column_target_seeded_witness :
  (forall rest,
     seed_names ex_nocols (ex_DT3 :: rest) = (names_ ex_DT3, ncols_ ex_DT3))
  /\
  (exists p, plan_columns ex_nocols [ex_DT3] false false = Ok p /\
             final_names p = names_ ex_DT3 /\ plan_n p = ncols_ ex_DT3) /\
  (forall rest n0 n1,
     plan_columns ex_nocols (ex_DT3 :: rest) false false
       = Err (ValueError_ncols n0 n1) ->
     n0 = ncols_ ex_DT3 /\ n1 <> n0 /\
     exists df, df ∈ rest /\ ncols_ df = n1).
Proof.
  apply (zero_column_target_seeded ex_nocols ex_DT3 false).
  - reflexivity.
  - reflexivity.
Defined.

(** The three examples of the documentation of [dt.rbind]. *)
Example doc_example_bynames :
  py_rbind ex_cast ex_GETNA_fw 0 Byte.x00 [PyFrame ex_DT1; PyFrame ex_DT2]
    false true
  = (mkDataTable 6 2 0
       [ex_int32 [5; 4; 6; 4; 4; 5];
        ex_int32 [170; 172; 180; 180; 181; 169]]
       ["Weight"; "Height"]%string,
     None).
Proof. vm_compute. reflexivity. Qed.

Example doc_example_bypos :
  py_rbind ex_cast ex_GETNA_fw 0 Byte.x00 [PyFrame ex_DT1; PyFrame ex_DT2]
    false false
  = (mkDataTable 6 2 0
       [ex_int32 [5; 4; 6; 180; 181; 169];
        ex_int32 [170; 172; 180; 4; 4; 5]]
       ["Weight"; "Height"]%string,
     None).
Proof. vm_compute. reflexivity. Qed.

Example doc_example_force :
  py_rbind ex_cast ex_GETNA_fw 0 Byte.x00 [PyFrame ex_DT1; PyFrame ex_DT3]
    true true
  = (mkDataTable 6 3 0
       [ex_int32 [5; 4; 6; 4; 4; 5];
        ex_int32 [170; 172; 180; 180; 181; 169];
        ex_int32 [-2147483648; -2147483648; -2147483648; 25; 50; 67]]
       ["Weight"; "Height"; "Age"]%string,
     None).
Proof. vm_compute. reflexivity. Qed.

(** A 32-bit string column takes a 64-bit one: the tag of the missing
    row moves from bit 63 to bit 31. *)
Example narrowing_example :
  SentinelStr_rbind_impl ex_cast ex_GETNA_fw 0 Byte.x00 W32
    [2 ^ 31; 2] [Byte.x64; Byte.x65] [ex_str64] 5 false VOID
  = Ok (mkAppended
          (SentinelStr_ColumnImpl W32 [2 ^ 31; 2; 4; 2 ^ 31 + 4; 5]
             [Byte.x64; Byte.x65; Byte.x61; Byte.x62; Byte.x63])
          [ex_str64] VOID).
Proof. vm_compute. reflexivity. Qed.

(** [C4] at an object column.  The target has three rows and no column
    [B]; the first frame has two rows and no column [B]; the second has
    three rows and an object column [B].  In the column [B] of the result
    the objects stand in rows 2 to 4, so that rows 3 and 4, which belong
    to the first frame, hold objects and not missing values. *)
Lemma object_column_rows_misplaced :
  Frame_rbind ex_cast ex_GETNA_fw 0 Byte.x00 ex_A3
    [PyFrame ex_A2; PyFrame ex_AB3] true true
  = (mkDataTable 8 2 0
       [ex_int32 [1; 2; 3; 4; 5; 6; 7; 8];
        SentinelObj_ColumnImpl
          [Py_None; Py_None; Py_ref 1; Py_ref 2; Py_ref 3;
           Py_None; Py_None; Py_None]]
       ["A"; "B"]%string,
     None).
Proof. vm_compute. reflexivity. Qed.

(** ** The further properties at the examples *)

Lemma Column_rbind_row_count_witness :
  col_nrows (ex_int32 [-2147483648; -2147483648; 7])
    = rbind_nrows ex_GETNA_fw (SentinelFw_ColumnImpl FW_BOOL [1; 0])
        [ex_int32 [7]] /\
  (Forall (fun col => 0 <= col_nrows col) [ex_int32 [7]] ->
   col_nrows (SentinelFw_ColumnImpl FW_BOOL [1; 0])
     + total_rows [ex_int32 [7]] < 2 ^ 64 ->
   col_nrows (ex_int32 [-2147483648; -2147483648; 7])
     = col_nrows (SentinelFw_ColumnImpl FW_BOOL [1; 0])
       + total_rows [ex_int32 [7]]).
Proof.
  apply (Column_rbind_row_count ex_cast ex_GETNA_fw 0 Byte.x00
           (SentinelFw_ColumnImpl FW_BOOL [1; 0])
           (ex_int32 [-2147483648; -2147483648; 7]) [ex_int32 [7]]
           ex_cast_keeps_stype).
  - simpl. lia.
  - vm_compute. reflexivity.
Defined.

Lemma rbind_keeps_table_invariants_witness :
  rows_ok ex_DT12 /\ shape_ok ex_DT12 /\
  nrows_ ex_DT12 = table_new_nrows ex_DT1 [ex_DT2] /\
  (ncols_ ex_DT1 <> 0%nat -> names_ ex_DT1 `prefix_of` names_ ex_DT12).
Proof.
  apply (rbind_keeps_table_invariants ex_cast ex_GETNA_fw 0 Byte.x00
           ex_DT1 ex_DT12 [PyFrame ex_norows; PyFrame ex_DT2] false true
           [ex_DT2] 2%nat ex_cast_keeps_stype).
  - split; [simpl; lia|]. repeat constructor.
  - split; reflexivity.
  - reflexivity.
  - repeat constructor. simpl. lia.
  - vm_compute. reflexivity.
Defined.

(** An integer column of two rows takes a void column of two rows and
    an integer column of one. *)
Lemma SentinelFw_rbind_impl_correct_witness :
  SentinelFw_rbind_impl ex_cast ex_GETNA_fw 0 FW_INT32 [1; 2]
    [ConstNa_ColumnImpl 2 VOID; ex_int32 [7]] 5 false VOID
  = Ok (mkAppended
          (SentinelFw_ColumnImpl FW_INT32
             ([1; 2]
              ++ concat
                   (fw_values ex_GETNA_fw FW_INT32 <$>
                      (fw_prepared ex_cast ex_GETNA_fw FW_INT32 <$>
                         [ConstNa_ColumnImpl 2 VOID; ex_int32 [7]]))))
          (fw_prepared ex_cast ex_GETNA_fw FW_INT32 <$>
             [ConstNa_ColumnImpl 2 VOID; ex_int32 [7]]) VOID).
Proof.
  apply (SentinelFw_rbind_impl_correct ex_cast ex_GETNA_fw 0 FW_INT32
           [1; 2] [ConstNa_ColumnImpl 2 VOID; ex_int32 [7]] 5 false VOID).
  - repeat constructor.
    + unfold fw_source. simpl. lia.
    + unfold fw_source. simpl. eexists _, _. reflexivity.
  - reflexivity.
  - reflexivity.
Defined.

(** A column of one object takes a void column of one row and a column
    of one object. *)
Lemma SentinelObj_rbind_impl_correct_witness :
  SentinelObj_rbind_impl ex_cast [Py_ref 1]
    [ConstNa_ColumnImpl 1 VOID; SentinelObj_ColumnImpl [Py_ref 2]]
    3 false VOID
  = Ok (mkAppended
          (SentinelObj_ColumnImpl
             ([Py_ref 1]
              ++ concat
                   (obj_values <$>
                      (obj_prepared ex_cast <$>
                         [ConstNa_ColumnImpl 1 VOID;
                          SentinelObj_ColumnImpl [Py_ref 2]]))))
          (obj_prepared ex_cast <$>
             [ConstNa_ColumnImpl 1 VOID; SentinelObj_ColumnImpl [Py_ref 2]])
          VOID).
Proof.
  apply (SentinelObj_rbind_impl_correct ex_cast [Py_ref 1]
           [ConstNa_ColumnImpl 1 VOID; SentinelObj_ColumnImpl [Py_ref 2]]
           3 false VOID).
  - repeat constructor. unfold obj_source. simpl. lia.
  - reflexivity.
  - reflexivity.
  - intros [=].
Defined.

Lemma plan_bynames_force_witness :
  exists p,
    plan_columns ex_DT1 [ex_DT3] true true = Ok p /\
    plan_sized p /\
    fst (seed_names ex_DT1 [ex_DT3]) `prefix_of` final_names p /\
    (forall x, x ∈ final_names p <->
               x ∈ fst (seed_names ex_DT1 [ex_DT3]) \/
               exists df, df ∈ [ex_DT3] /\ x ∈ names_ df) /\
    (NoDup (fst (seed_names ex_DT1 [ex_DT3])) -> NoDup (final_names p)).
Proof.
  apply (plan_bynames_force ex_DT1 [ex_DT3]). reflexivity.
Defined.

Lemma plan_bynames_matrix_witness :
  exists p,
    plan_columns ex_DT1 [ex_DT2] false true = Ok p /\
    NoDup (final_names p) /\
    (forall df x, df ∈ [ex_DT2] -> x ∈ names_ df -> x ∈ final_names p) /\
    (forall i df k name,
       [ex_DT2] !! i = Some df -> final_names p !! k = Some name ->
       names_entry (names_ df) name (cell (cols p) k i)).
Proof.
  eexists. split; [vm_compute; reflexivity|].
  apply (plan_bynames_matrix ex_DT1 [ex_DT2] false).
  - reflexivity.
  - simpl. compute_done.
  - vm_compute. reflexivity.
Defined.

Lemma plan_bypos_matrix_witness :
  exists p,
    plan_columns ex_DT1 [ex_DT3] true false = Ok p /\
    plan_n p = fold_left Nat.max (ncols_ <$> [ex_DT3])
                 (snd (seed_names ex_DT1 [ex_DT3])) /\
    (forall k i df,
       (k < plan_n p)%nat -> [ex_DT3] !! i = Some df ->
       cell (cols p) k i =
       Some (if decide (k < ncols_ df)%nat then Z.of_nat k
             else INVALID_INDEX)).
Proof.
  eexists. split; [vm_compute; reflexivity|].
  apply (plan_bypos_matrix ex_DT1 [ex_DT3] true).
  - reflexivity.
  - vm_compute. reflexivity.
Defined.

(** The third column takes the name of the third column of [ex_DT3]. *)
Lemma plan_bypos_names_witness :
  exists p,
    plan_columns ex_DT1 [ex_DT3] true false = Ok p /\
    final_names p !! 2%nat = names_ ex_DT3 !! 2%nat /\
    is_Some (names_ ex_DT3 !! 2%nat).
Proof.
  eexists. split; [vm_compute; reflexivity|].
  apply (plan_bypos_names ex_DT1 [ex_DT3] true _ 2%nat 0%nat ex_DT3).
  - reflexivity.
  - vm_compute. reflexivity.
  - simpl. lia.
  - reflexivity.
  - simpl. lia.
  - intros i' df' Hi'. lia.
Defined.

Lemma plan_bypos_force_witness :
  exists p, plan_columns ex_DT1 [ex_DT3] true false = Ok p.
Proof.
  apply (plan_bypos_force ex_DT1 [ex_DT3]).
  repeat constructor.
Defined.

(** [ex_mixed3] has a column more than [ex_DT1]: without [force] the
    call throws the error about the number of columns; with [force] the
    planner returns and the call throws the type error of the second
    column. *)
Lemma force_raises_no_schema_error_witness :
  snd (Frame_rbind ex_cast ex_GETNA_fw 0 Byte.x00 ex_DT1
         [PyFrame ex_mixed3] false true) = Some (ValueError_ncols 2 3) /\
  snd (Frame_rbind ex_cast ex_GETNA_fw 0 Byte.x00 ex_DT1
         [PyFrame ex_mixed3] true true)
    = Some (TypeError_rbind STR32 INT32) /\
  forall dt' e,
    Frame_rbind ex_cast ex_GETNA_fw 0 Byte.x00 ex_DT1
      [PyFrame ex_mixed3] true true = (dt', Some e) ->
    forced_error e.
Proof.
  split; [vm_compute; reflexivity|].
  split; [vm_compute; reflexivity|].
  apply (force_raises_no_schema_error ex_cast ex_GETNA_fw 0 Byte.x00
           ex_DT1 [PyFrame ex_mixed3] true).
  - reflexivity.
  - repeat constructor.
Defined.

(** A void column of two rows takes an integer column and a void
    column. *)
Lemma Column_rbind_fw_concat_witness :
  Column_rbind ex_cast ex_GETNA_fw 0 Byte.x00 (ConstNa_ColumnImpl 2 VOID)
    [ex_int32 [7]; ConstNa_ColumnImpl 1 VOID]
  = Ok (SentinelFw_ColumnImpl FW_INT32
          (concat
             (fw_values ex_GETNA_fw FW_INT32 <$>
                ConstNa_ColumnImpl 2 VOID
                :: [ex_int32 [7]; ConstNa_ColumnImpl 1 VOID]))).
Proof.
  apply (Column_rbind_fw_concat ex_cast ex_GETNA_fw 0 Byte.x00 FW_INT32
           (ConstNa_ColumnImpl 2 VOID)
           [ex_int32 [7]; ConstNa_ColumnImpl 1 VOID]).
  - repeat constructor; simpl; lia.
  - apply Exists_cons_tl, Exists_cons_hd. exact I.
  - vm_compute. reflexivity.
Defined.

Lemma Column_rbind_void_witness :
  Column_rbind ex_cast ex_GETNA_fw 0 Byte.x00 (ConstNa_ColumnImpl 2 VOID)
    [ConstNa_ColumnImpl 3 VOID]
  = Ok (ConstNa_ColumnImpl (2 + total_rows [ConstNa_ColumnImpl 3 VOID])
          VOID).
Proof.
  apply (Column_rbind_void ex_cast ex_GETNA_fw 0 Byte.x00 2
           [ConstNa_ColumnImpl 3 VOID]).
  - lia.
  - repeat constructor. simpl. lia.
  - vm_compute. reflexivity.
Defined.

(** [ex_DT1] takes its own rows and those of [ex_DT2]: the first column
    of the result is made of the first column of [ex_DT1], twice, and of
    the second of [ex_DT2]. *)
Lemma DataTable_rbind_columns_witness :
  exists cs c',
    Column_rbind ex_cast ex_GETNA_fw 0 Byte.x00 (old_column ex_DT1 0) cs
      = Ok c' /\
    columns_ ex_DT112 !! 0%nat = Some c' /\
    length cs = length [ex_DT1; ex_DT2] /\
    forall j dtj,
      [ex_DT1; ex_DT2] !! j = Some dtj ->
      exists k col,
        [0; 1] !! j = Some k /\ cs !! j = Some col /\ picked dtj k col.
Proof.
  apply (DataTable_rbind_columns ex_cast ex_GETNA_fw 0 Byte.x00
           ex_DT1 ex_DT112 [ex_DT1; ex_DT2] [[0; 1]; [1; 0]] 0%nat [0; 1]).
  - intros [|[|i]] row [|[|j]] k Hi Hk Hj; try discriminate;
      injection Hi as <-; injection Hk as <-; right; simpl; lia.
  - vm_compute. reflexivity.
  - reflexivity.
Defined.

Lemma rbind_bynames_columns_witness :
  exists cs c',
    Column_rbind ex_cast ex_GETNA_fw 0 Byte.x00 (old_column ex_DT1 0) cs
      = Ok c' /\
    columns_ ex_DT12 !! 0%nat = Some c' /\
    Forall2 (named_column "Weight") cs [ex_DT2].
Proof.
  apply (rbind_bynames_columns ex_cast ex_GETNA_fw 0 Byte.x00
           ex_DT1 ex_DT12 [PyFrame ex_DT2] false [ex_DT2] 1%nat 0%nat
           "Weight").
  - reflexivity.
  - simpl. compute_done.
  - reflexivity.
  - discriminate.
  - repeat constructor. vm_compute. discriminate.
  - vm_compute. reflexivity.
  - reflexivity.
Defined.

(** The third column of [ex_DT13] is made of a void column for
    [ex_DT1] and of the third column of [ex_DT3]. *)
Lemma rbind_bypos_columns_witness :
  exists cs c',
    Column_rbind ex_cast ex_GETNA_fw 0 Byte.x00 (old_column ex_DT1 2) cs
      = Ok c' /\
    columns_ ex_DT13 !! 2%nat = Some c' /\
    Forall2 (placed_column 2) cs [ex_DT3].
Proof.
  apply (rbind_bypos_columns ex_cast ex_GETNA_fw 0 Byte.x00
           ex_DT1 ex_DT13 [PyFrame ex_DT3] true [ex_DT3] 1%nat 2%nat).
  - reflexivity.
  - reflexivity.
  - discriminate.
  - repeat constructor. vm_compute. discriminate.
  - vm_compute. reflexivity.
  - simpl. lia.
Defined.

(** Appending [ex_DT1] itself and [ex_mixed] to [ex_DT1] by position
    fails at the second column, after the first has taken five more
    rows. *)
Lemma DataTable_rbind_torn_witness :
  nrows_ ex_DT11_torn = nrows_ ex_DT1 /\
  ncols_ ex_DT11_torn = ncols_ ex_DT1 /\
  names_ ex_DT11_torn = names_ ex_DT1 /\
  exists i,
    (i < length [[0; 0]; [1; 1]])%nat /\
    (forall k row,
       (k < i)%nat -> [[0; 0]; [1; 1]] !! k = Some row ->
       exists cs c',
         cols_to_append [ex_DT1; ex_mixed] row 0 = Ok cs /\
         Column_rbind ex_cast ex_GETNA_fw 0 Byte.x00
           (old_column ex_DT1 k) cs = Ok c' /\
         columns_ ex_DT11_torn !! k = Some c') /\
    (forall k,
       (i <= k)%nat ->
       columns_ ex_DT11_torn !! k =
       (columns_ ex_DT1 ++
        replicate (length [[0; 0]; [1; 1]] - ncols_ ex_DT1)
          (new_na_column (nrows_ ex_DT1) VOID)) !! k).
Proof.
  apply (DataTable_rbind_torn ex_cast ex_GETNA_fw 0 Byte.x00
           ex_DT1 ex_DT11_torn [ex_DT1; ex_mixed] [[0; 0]; [1; 1]]
           (TypeError_rbind STR32 INT32)).
  - intros [|[|i]] row [|[|j]] k Hi Hk Hj; try discriminate;
      injection Hi as <-; injection Hk as <-; right; simpl; lia.
  - vm_compute. reflexivity.
Defined.

Lemma py_rbind_new_frame_witness :
  rows_ok ex_DT12 /\ shape_ok ex_DT12 /\ nkeys_ ex_DT12 = 0%nat /\
  nrows_ ex_DT12
    = table_new_nrows (mkDataTable 0 0 0 [] []) [ex_DT1; ex_DT2] /\
  names_ ex_DT1 `prefix_of` names_ ex_DT12.
Proof.
  apply (py_rbind_new_frame ex_cast ex_GETNA_fw 0 Byte.x00 ex_DT12
           [PyFrame ex_DT1; PyFrame ex_DT2] false true
           [ex_DT1; ex_DT2] 2%nat ex_cast_keeps_stype).
  - reflexivity.
  - repeat constructor; simpl; lia.
  - vm_compute. reflexivity.
Defined.

(** A column of one object takes a void column of two rows and three
    objects. *)
Lemma Column_rbind_obj_concat_witness :
  Column_rbind ex_cast ex_GETNA_fw 0 Byte.x00
    (SentinelObj_ColumnImpl [Py_ref 4])
    [ConstNa_ColumnImpl 2 VOID;
     SentinelObj_ColumnImpl [Py_ref 1; Py_ref 2; Py_ref 3]]
  = Ok (SentinelObj_ColumnImpl
          (obj_values (SentinelObj_ColumnImpl [Py_ref 4])
           ++ concat
                (obj_values <$>
                   [ConstNa_ColumnImpl 2 VOID;
                    SentinelObj_ColumnImpl
                      [Py_ref 1; Py_ref 2; Py_ref 3]]))).
Proof.
  apply (Column_rbind_obj_concat ex_cast ex_GETNA_fw 0 Byte.x00
           (SentinelObj_ColumnImpl [Py_ref 4])
           [ConstNa_ColumnImpl 2 VOID;
            SentinelObj_ColumnImpl [Py_ref 1; Py_ref 2; Py_ref 3]]).
  - intros d. reflexivity.
  - repeat constructor; simpl; lia.
  - apply Exists_cons_hd. exact I.
  - vm_compute. reflexivity.
  - intros [=].
Defined.
